(** * ltouwrap: a wrapper around mt, sg_logs and sg_read_attr for LTO drives

    Shallow embedding of [ltouwrap.go].  Go strings are byte sequences
    ([list ascii]); the external utilities are an oracle ([Runner]) that
    answers every process invocation from the history of invocations made
    so far; every operation of the drive handle is a state-passing function
    over a [World] that records the invocations, the contexts created and
    the contexts cancelled. *)

From Stdlib Require Import String Ascii DecimalString.
From Stdlib Require Import ZArith NArith Bool Lia Arith List.
Import ListNotations.

Local Open Scope Z_scope.

(** ** Go strings *)

Definition gostring := list ascii.

Definition str (s : string) : gostring := list_ascii_of_string s.

Definition byte_of (c : ascii) : N := N_of_ascii c.

Definition byte_eqb (a b : ascii) : bool := Ascii.eqb a b.

Fixpoint gostring_eqb (a b : gostring) : bool :=
  match a, b with
  | [], [] => true
  | x :: a', y :: b' => byte_eqb x y && gostring_eqb a' b'
  | _, _ => false
  end.

(** [strings.HasPrefix]. *)
Fixpoint HasPrefix (s prefix : gostring) {struct prefix} : bool :=
  match prefix with
  | [] => true
  | p :: ps =>
      match s with
      | [] => false
      | c :: cs => byte_eqb c p && HasPrefix cs ps
      end
  end.

(** [strings.Split] with a one-byte separator, which is what every call
    site of the package passes.  The result always has at least one
    element ([Split "" sep] is [[""]]). *)
Fixpoint Split (s : gostring) (sep : ascii) : list gostring :=
  match s with
  | [] => [[]]
  | c :: r =>
      if byte_eqb c sep then [] :: Split r sep
      else match Split r sep with
           | x :: xs => (c :: x) :: xs
           | [] => [[c]]
           end
  end.

(** [strings.ReplaceAll] with a one-byte [old]. *)
Fixpoint ReplaceAll (s : gostring) (old : ascii) (new : gostring) : gostring :=
  match s with
  | [] => []
  | c :: r =>
      if byte_eqb c old then (new ++ ReplaceAll r old new)%list
      else c :: ReplaceAll r old new
  end.

(** The table [asciiSpace] of package strings: tab, LF, VT, FF, CR and
    the space. *)
Definition asciiSpace (c : ascii) : bool :=
  let b := byte_of c in
  ((9 <=? b) && (b <=? 13))%N || (b =? 32)%N.

(** The white space runes of [unicode.IsSpace] beyond ASCII, by their UTF-8
    encodings: U+0085 and U+00A0 (two bytes); U+1680, U+2000..U+200A,
    U+2028, U+2029, U+202F, U+205F and U+3000 (three bytes). *)
Definition space2 (c1 c2 : ascii) : bool :=
  let b1 := byte_of c1 in
  let b2 := byte_of c2 in
  ((b1 =? 194) && ((b2 =? 133) || (b2 =? 160)))%N.

Definition space3 (c1 c2 c3 : ascii) : bool :=
  let b1 := byte_of c1 in
  let b2 := byte_of c2 in
  let b3 := byte_of c3 in
  (((b1 =? 225) && (b2 =? 154) && (b3 =? 128))
   || ((b1 =? 226) && (b2 =? 128)
       && (((128 <=? b3) && (b3 <=? 138)) || (b3 =? 168) || (b3 =? 169)
           || (b3 =? 175)))
   || ((b1 =? 226) && (b2 =? 129) && (b3 =? 159))
   || ((b1 =? 227) && (b2 =? 128) && (b3 =? 128)))%N.

(** When [s] starts with a white space rune, the rest of [s] after it. *)
Definition skip_space (s : gostring) : option gostring :=
  match s with
  | [] => None
  | c1 :: r1 =>
      if asciiSpace c1 then Some r1
      else match r1 with
           | [] => None
           | c2 :: r2 =>
               if space2 c1 c2 then Some r2
               else match r2 with
                    | [] => None
                    | c3 :: r3 => if space3 c1 c2 c3 then Some r3 else None
                    end
           end
  end.

(** The same on the reversed string: when the string whose reversal is
    [r] ends with a white space rune, the reversal of what precedes it. *)
Definition skip_space_rev (r : gostring) : option gostring :=
  match r with
  | [] => None
  | c1 :: r1 =>
      if asciiSpace c1 then Some r1
      else match r1 with
           | [] => None
           | c2 :: r2 =>
               if space2 c2 c1 then Some r2
               else match r2 with
                    | [] => None
                    | c3 :: r3 => if space3 c3 c2 c1 then Some r3 else None
                    end
           end
  end.

Fixpoint strip_while (skip : gostring -> option gostring) (fuel : nat)
  (s : gostring) : gostring :=
  match fuel with
  | O => s
  | S fuel' =>
      match skip s with
      | Some r => strip_while skip fuel' r
      | None => s
      end
  end.

(** Runes are taken off one end as long as [skip] finds one; no more
    than [length s] of them can be taken. *)
Definition strip (skip : gostring -> option gostring) (s : gostring)
  : gostring :=
  strip_while skip (length s) s.

Definition TrimLeftSpace (s : gostring) : gostring := strip skip_space s.

Definition TrimRightSpace (s : gostring) : gostring :=
  rev (strip skip_space_rev (rev s)).

(** [strings.TrimSpace]: leading and trailing white space (as defined by
    Unicode) removed. *)
Definition TrimSpace (s : gostring) : gostring :=
  TrimRightSpace (TrimLeftSpace s).

(** [strings.Fields]: the maximal runs of non white space.  [cur] is the
    field being read, reversed. *)
Definition flush_field (cur : gostring) : list gostring :=
  match cur with
  | [] => []
  | _ => [rev cur]
  end.

Fixpoint fields_from (fuel : nat) (cur : gostring) (s : gostring)
  : list gostring :=
  match fuel with
  | O => flush_field cur
  | S fuel' =>
      match s with
      | [] => flush_field cur
      | c :: r =>
          match skip_space s with
          | Some r' => (flush_field cur ++ fields_from fuel' [] r')%list
          | None => fields_from fuel' (c :: cur) r
          end
      end
  end.

Definition Fields (s : gostring) : list gostring :=
  fields_from (S (length s)) [] s.

(** ** Go errors *)

Inductive NumErrKind : Type :=
| ErrSyntax
| ErrRange
| ErrInvalidBase (base : Z)
| ErrInvalidBitSize (bits : Z).

#[warnings="-register-all"]
Inductive error : Type :=
| New (msg : gostring)                           (* errors.New *)
| Errorf2 (outer inner : error)                  (* fmt.Errorf("%w: %w", ..) *)
| JoinError (errs : list error)                  (* errors.Join *)
| NumError (fn num : gostring) (k : NumErrKind)  (* *strconv.NumError *)
| ExitError (code : Z)                           (* *exec.ExitError *)
| LaunchError (name msg : gostring)              (* *exec.Error and the like *)
| DeadlineExceeded                               (* context.DeadlineExceeded *)
| Canceled.                                      (* context.Canceled *)

(** [errors.Join]: nil arguments are dropped; nil when none is left. *)
Fixpoint non_nil (errs : list (option error)) : list error :=
  match errs with
  | [] => []
  | Some e :: r => e :: non_nil r
  | None :: r => non_nil r
  end.

Definition Join (errs : list (option error)) : option error :=
  match non_nil errs with
  | [] => None
  | l => Some (JoinError l)
  end.

(** [errors.Is err target] for a target made by [errors.New] (the
    package-level sentinels, told apart by their messages); for any other
    target the answer is [false]. *)
Definition same_sentinel (e target : error) : bool :=
  match e, target with
  | New a, New b => gostring_eqb a b
  | _, _ => false
  end.

Fixpoint Is (err target : error) : bool :=
  same_sentinel err target
  || match err with
     | Errorf2 a b => Is a target || Is b target
     | JoinError es => existsb (fun e => Is e target) es
     | _ => false
     end.

(** [errors.As(err, &exitErr)] with [exitErr : *exec.ExitError]. *)
Fixpoint AsExitError (err : error) : bool :=
  match err with
  | ExitError _ => true
  | Errorf2 a b => AsExitError a || AsExitError b
  | JoinError es => existsb AsExitError es
  | _ => false
  end.

(** ** strconv *)

Definition maxUint64 : Z := 2 ^ 64 - 1.

(** [lower(c)] of strconv: [c | ('x' - 'X')]. *)
Definition lower (c : ascii) : N := N.lor (byte_of c) 32.

Definition syntaxError (fn s : gostring) : error := NumError fn s ErrSyntax.
Definition rangeError (fn s : gostring) : error := NumError fn s ErrRange.

(** [underscoreOK]: underscores only between digits or between the base
    prefix and a digit.  [saw] is the kind of the previous byte: a digit
    or the base prefix, an underscore, anything else, or the start. *)
Inductive PrevKind := PkStart | PkDigit | PkUnderscore | PkOther.

Fixpoint underscore_scan (hex : bool) (saw : PrevKind) (s : gostring)
  : bool :=
  match s with
  | [] => match saw with PkUnderscore => false | _ => true end
  | c :: r =>
      let b := byte_of c in
      if (((48 <=? b) && (b <=? 57))
          || (hex && (97 <=? lower c) && (lower c <=? 102)))%N
      then underscore_scan hex PkDigit r
      else if (b =? 95)%N
      then match saw with
           | PkDigit => underscore_scan hex PkUnderscore r
           | _ => false
           end
      else match saw with
           | PkUnderscore => false
           | _ => underscore_scan hex PkOther r
           end
  end.

Definition underscoreOK (s : gostring) : bool :=
  let s1 :=
    match s with
    | c :: r => if ((byte_of c =? 45) || (byte_of c =? 43))%N then r else s
    | [] => s
    end in
  match s1 with
  | c0 :: c1 :: r =>
      if ((byte_of c0 =? 48)
          && ((lower c1 =? 98) || (lower c1 =? 111) || (lower c1 =? 120)))%N
      then underscore_scan (lower c1 =? 120)%N PkDigit r
      else underscore_scan false PkStart s1
  | _ => underscore_scan false PkStart s1
  end.

(** The digit loop of [ParseUint]; [n] is a uint64, [us] records whether
    an underscore was seen.  The result is the value and the error. *)
Fixpoint parse_digits (base0 : bool) (base : Z) (maxVal : Z) (s0 : gostring)
  (n : Z) (us : bool) (s : gostring) : Z * bool * option error :=
  match s with
  | [] => (n, us, None)
  | c :: r =>
      let b := byte_of c in
      if ((b =? 95)%N && base0)
      then parse_digits base0 base maxVal s0 n true r
      else
        let digit : option Z :=
          if ((48 <=? b) && (b <=? 57))%N then Some (Z.of_N b - 48)
          else if ((97 <=? lower c) && (lower c <=? 122))%N
               then Some (Z.of_N (lower c) - 97 + 10)
               else None in
        match digit with
        | None => (0, us, Some (syntaxError (str "ParseUint") s0))
        | Some d =>
            if base <=? d
            then (0, us, Some (syntaxError (str "ParseUint") s0))
            else if maxUint64 / base + 1 <=? n
            then (maxVal, us, Some (rangeError (str "ParseUint") s0))
            else
              let n' := (n * base) mod 2 ^ 64 in
              let n1 := (n' + d) mod 2 ^ 64 in
              if (n1 <? n') || (maxVal <? n1)
              then (maxVal, us, Some (rangeError (str "ParseUint") s0))
              else parse_digits base0 base maxVal s0 n1 us r
        end
  end.

(** [strconv.ParseUint]. *)
Definition ParseUint (s : gostring) (base : Z) (bitSize : Z)
  : Z * option error :=
  match s with
  | [] => (0, Some (syntaxError (str "ParseUint") s))
  | c0 :: r0 =>
      let pick : option (Z * gostring) :=
        if (2 <=? base) && (base <=? 36) then Some (base, s)
        else if base =? 0 then
          if (byte_of c0 =? 48)%N then
            match r0 with
            | c1 :: _ :: _ =>
                if (lower c1 =? 98)%N then Some (2, tl r0)
                else if (lower c1 =? 111)%N then Some (8, tl r0)
                else if (lower c1 =? 120)%N then Some (16, tl r0)
                else Some (8, r0)
            | _ => Some (8, r0)
            end
          else Some (10, s)
        else None in
      match pick with
      | None => (0, Some (NumError (str "ParseUint") s (ErrInvalidBase base)))
      | Some (b, digits) =>
          if (bitSize <? 0) || (64 <? bitSize)
          then (0, Some (NumError (str "ParseUint") s
                           (ErrInvalidBitSize bitSize)))
          else
            let bits := if bitSize =? 0 then 64 else bitSize in
            let maxVal := 2 ^ bits - 1 in
            match parse_digits (base =? 0) b maxVal s 0 false digits with
            | (n, us, Some e) => (n, Some e)
            | (n, us, None) =>
                if us && negb (underscoreOK s)
                then (0, Some (syntaxError (str "ParseUint") s))
                else (n, None)
            end
      end
  end.

Definition is_range_error (e : error) : bool :=
  match e with
  | NumError _ _ ErrRange => true
  | _ => false
  end.

Definition as_ParseInt (s0 : gostring) (e : error) : error :=
  match e with
  | NumError _ _ k => NumError (str "ParseInt") s0 k
  | _ => e
  end.

(** [strconv.ParseInt]; the result is an int64. *)
Definition ParseInt (s : gostring) (base : Z) (bitSize : Z)
  : Z * option error :=
  match s with
  | [] => (0, Some (syntaxError (str "ParseInt") s))
  | c0 :: r0 =>
      let neg := (byte_of c0 =? 45)%N in
      let s1 := if ((byte_of c0 =? 43) || (byte_of c0 =? 45))%N then r0 else s in
      let '(un, err) := ParseUint s1 base bitSize in
      let bits := if bitSize =? 0 then 64 else bitSize in
      let cutoff := 2 ^ (bits - 1) in
      let convert :=
        if negb neg && (cutoff <=? un)
        then (cutoff - 1, Some (rangeError (str "ParseInt") s))
        else if neg && (cutoff <? un)
        then (- cutoff, Some (rangeError (str "ParseInt") s))
        else ((if neg then - un else un), None) in
      match err with
      | Some e =>
          if negb (is_range_error e) then (0, Some (as_ParseInt s e))
          else convert
      | None => convert
      end
  end.

(** [strconv.FormatUint(x, 10)]. *)
Definition FormatUint (x : N) : gostring :=
  list_ascii_of_string (NilZero.string_of_uint (N.to_uint x)).

(** ** Contexts, process invocations and the world *)

(** A context is the background context or one made by
    [context.WithTimeout(context.Background(), timeout)]; [id] tells two
    such contexts apart, [timeout] is the [time.Duration] in nanoseconds. *)
Inductive Context : Type :=
| Background
| WithTimeout (id : nat) (timeout : Z).


(** One run of an external program: [inv_ctx] is [None] for
    [exec.Command] and [Some ctx] for [exec.CommandContext ctx]. *)
Record Invocation : Type := mkInvocation {
  inv_ctx : option Context;
  inv_name : gostring;
  inv_args : list gostring
}.

(** Combined output and error of [cmd.CombinedOutput()]. *)
Definition CmdResult : Type := (gostring * option error)%type.

(** The utilities and the drive behind them: the answer to an invocation
    may depend on everything that was run before. *)
Definition Runner : Type := list Invocation -> Invocation -> CmdResult.

Record World : Type := mkWorld {
  trace : list Invocation;     (* invocations so far, oldest first *)
  ctx_next : nat;              (* identity of the next context *)
  cancelled : list nat         (* contexts whose cancel function ran *)
}.

Definition M (A : Type) : Type := World -> A * World.

Definition ret {A : Type} (a : A) : M A := fun w => (a, w).

Definition bind {A B : Type} (m : M A) (k : A -> M B) : M B :=
  fun w => let (a, w') := m w in k a w'.

Declare Scope go_scope.
Delimit Scope go_scope with go.
Notation "x <- m ;; k" := (bind m (fun x => k))
  (at level 61, m at next level, right associativity) : go_scope.
Notation "m ;;; k" := (bind m (fun _ => k))
  (at level 61, right associativity) : go_scope.
Local Open Scope go_scope.

(** [context.WithTimeout(context.Background(), timeout)]. *)
Definition withTimeout (timeout : Z) : M Context :=
  fun w => (WithTimeout (ctx_next w) timeout,
            mkWorld (trace w) (S (ctx_next w)) (cancelled w)).

(** The deferred [cancel()]. *)
Definition cancel (ctx : Context) : M unit :=
  fun w => match ctx with
           | Background => (tt, w)
           | WithTimeout id _ =>
               (tt, mkWorld (trace w) (ctx_next w) (id :: cancelled w))
           end.

(** The world after one more invocation. *)
Definition record_inv (inv : Invocation) (w : World) : World :=
  mkWorld (trace w ++ [inv]) (ctx_next w) (cancelled w).

(** The invocations made between two worlds. *)
Definition issued (w w' : World) : list Invocation :=
  skipn (length (trace w)) (trace w').

(** ** The package *)

Record LtoNoRewindTapeDrive : Type := mkDrive {
  DeviceFile : gostring;
  SgLogs : gostring;
  SgReadAttr : gostring;
  Mt : gostring
}.

Record LtoTapeCapacityLog : Type := mkCapacityLog {
  MainPartitionRemaining : Z;
  AlternatePartitionRemaining : Z;
  MainPartitionMax : Z;
  AlternatePartitionMax : Z
}.

Definition UnknownCapacity : Z := -1.

Definition ReadAttrMediumTypeDataCartridge : Z := 0.

Definition ErrDeviceCheckFailed : error := New (str "device check failed").
Definition ErrNoMtDiscovered : error := New (str "can not find mt").
Definition ErrNoSgLogsDiscovered : error := New (str "can not find sg_logs").
Definition ErrNoSgReadAttrDiscovered : error :=
  New (str "can not find sg_read_attr").
Definition ErrSgLogsExecFailed : error :=
  New (str "failed to get sg_logs cmd output").
Definition ErrSgReadAttrExecFailed : error :=
  New (str "failed to get sg_read_attr cmd output").
Definition ErrCanNotParseSgReadAttrOutput : error :=
  New (str "can not parse output of sg_read_attr").
Definition ErrSomeMtRelatedFieldsMissing : error :=
  New (str "some mt related fields missing").
Definition ErrSomeSgRelatedFieldsMissing : error :=
  New (str "some sg_* related fields missing").
Definition ErrSomeCapacityLogFieldsMissing : error :=
  New (str "some capacity log fields missing").
Definition ErrCanNotParseMainPartitionRemaining : error :=
  New (str "can not parse main partition remaining capacity").
Definition ErrCanNotParseAlternatePartitionRemaining : error :=
  New (str "can not parse alternate partition remaining capacity").
Definition ErrCanNotParseMainPartitionMax : error :=
  New (str "can not parse main partition maximum capacity").
Definition ErrCanNotParseAlternatePartitionMax : error :=
  New (str "can not parse alternate partition maximum capacity").
Definition ErrNoDataCartridgeOrNotReady : error :=
  New (str "no data cartridge or not ready yet").
Definition ErrMtExecFailed : error := New (str "failed to get mt cmd output").
Definition ErrMtOutputParseFailed : error :=
  New (str "can not parse output of mt").
Definition ErrCanNotGoToPrevFile : error :=
  New (str "can not go to previous file").
Definition ErrCanNotGetMediumSN : error :=
  New (str "can not get medium serial number").

(** [splited[len(splited)-1]]; [Split] never returns an empty slice. *)
Definition last_elem (l : list gostring) : gostring := last l [].

(** [strings.Fields(valStr)[0]]; at both call sites [valStr] is trimmed
    and not empty, so the slice has a first element. *)
Definition first_field (valStr : gostring) : gostring :=
  nth 0 (Fields valStr) [].

Definition extractSgIntVal (s : gostring) (base : Z) : Z * option error :=
  let s := TrimSpace s in
  let splited := Split s ":" in
  let valStr := TrimSpace (last_elem splited) in
  if (length valStr =? 0)%nat then (-1, Some ErrSomeSgRelatedFieldsMissing)
  else
    let valStr := first_field valStr in
    let valStr := ReplaceAll valStr "," [] in
    let (valInt, err) := ParseInt valStr base 64 in
    match err with
    | Some e => (-1, Some e)
    | None => (valInt, None)
    end.

Definition extractSgStrVal (s : gostring) : gostring * option error :=
  let s := TrimSpace s in
  let splited := Split s ":" in
  if (length splited <? 2)%nat then ([], Some ErrSomeSgRelatedFieldsMissing)
  else
    let valStr := TrimSpace (last_elem splited) in
    if ((length valStr =? 0) || (length (first_field valStr) =? 0))%nat
    then ([], Some ErrSomeSgRelatedFieldsMissing)
    else (first_field valStr, None).

Definition extractMtUintVal (s : gostring) (base : Z) : Z * option error :=
  let s := TrimSpace s in
  let splited := Split s "=" in
  let valStr := TrimSpace (last_elem splited) in
  if (length valStr =? 0)%nat then (0, Some ErrSomeMtRelatedFieldsMissing)
  else
    let valStr := first_field valStr in
    let valStr := ReplaceAll valStr "," [] in
    let (valInt, err) := ParseUint valStr base 64 in
    match err with
    | Some e => (0, Some e)
    | None => (valInt, None)
    end.

(** [parseSgLogsCapacityLine]: the new value of [*target] and the error. *)
Definition parseSgLogsCapacityLine (line : gostring) (baseErr : error)
  : Z * option error :=
  let (valInt, err) := extractSgIntVal line 0 in
  match err with
  | Some e => (UnknownCapacity, Some (Errorf2 baseErr e))
  | None => (valInt, None)
  end.

(** The body of the loop of [GetCapacityLog] over the lines of the
    report: the [switch] on the label of the trimmed line. *)
Definition capacity_line (line : gostring)
  (st : LtoTapeCapacityLog * option error) : LtoTapeCapacityLog * option error :=
  let (capLog, errs) := st in
  let tmp := TrimSpace line in
  if HasPrefix tmp (str "Main partition remaining capacity") then
    let (v, e) :=
      parseSgLogsCapacityLine tmp ErrCanNotParseMainPartitionRemaining in
    (mkCapacityLog v (AlternatePartitionRemaining capLog)
       (MainPartitionMax capLog) (AlternatePartitionMax capLog),
     Join [errs; e])
  else if HasPrefix tmp (str "Alternate partition remaining capacity") then
    let (v, e) :=
      parseSgLogsCapacityLine tmp ErrCanNotParseAlternatePartitionRemaining in
    (mkCapacityLog (MainPartitionRemaining capLog) v
       (MainPartitionMax capLog) (AlternatePartitionMax capLog),
     Join [errs; e])
  else if HasPrefix tmp (str "Main partition maximum capacity") then
    let (v, e) :=
      parseSgLogsCapacityLine tmp ErrCanNotParseMainPartitionMax in
    (mkCapacityLog (MainPartitionRemaining capLog)
       (AlternatePartitionRemaining capLog) v (AlternatePartitionMax capLog),
     Join [errs; e])
  else if HasPrefix tmp (str "Alternate partition maximum capacity") then
    let (v, e) :=
      parseSgLogsCapacityLine tmp ErrCanNotParseAlternatePartitionMax in
    (mkCapacityLog (MainPartitionRemaining capLog)
       (AlternatePartitionRemaining capLog) (MainPartitionMax capLog) v,
     Join [errs; e])
  else (capLog, errs).

Definition has_unknown (capLog : LtoTapeCapacityLog) : bool :=
  (AlternatePartitionMax capLog =? UnknownCapacity)
  || (AlternatePartitionRemaining capLog =? UnknownCapacity)
  || (MainPartitionMax capLog =? UnknownCapacity)
  || (MainPartitionRemaining capLog =? UnknownCapacity).

(** [GetCapacityLog] once the report text is there. *)
Definition parse_capacity_report (cmdOut : gostring)
  : LtoTapeCapacityLog * option error :=
  let outLines := Split cmdOut "010" in
  let (capLog, errs) :=
    fold_left (fun st line => capacity_line line st) outLines
      (mkCapacityLog (-1) (-1) (-1) (-1), None) in
  if has_unknown capLog
  then (capLog,
        Join [errs; Some (Errorf2 ErrSomeCapacityLogFieldsMissing
                            ErrSomeSgRelatedFieldsMissing)])
  else (capLog, errs).

(** The loop of [GetCurFileNumber] over the lines of [mt status]. *)
Fixpoint scan_file_number (outLines : list gostring) : Z * option error :=
  match outLines with
  | [] => (0, Some ErrSomeMtRelatedFieldsMissing)
  | line :: rest =>
      let splited := Split line "," in
      let trimed := TrimSpace (nth 0 splited []) in
      if HasPrefix trimed (str "File number") then
        let (val, err) := extractMtUintVal trimed 0 in
        match err with
        | Some e => (0, Some (Errorf2 ErrMtOutputParseFailed e))
        | None => (val, None)
        end
      else scan_file_number rest
  end.

Definition UtilsDiscoverTimeout : Z := 1000000000.

Definition possibleSgLogs : list gostring :=
  [str "/usr/bin/sg_logs"; str "/bin/sg_logs"; str "sg_logs"].
Definition possibleSgReadAttr : list gostring :=
  [str "/usr/bin/sg_read_attr"; str "/bin/sg_read_attr"; str "sg_read_attr"].
Definition possibleMt : list gostring :=
  [str "/usr/bin/mt"; str "/usr/bin/mt-st"; str "/bin/mt"; str "/bin/mt-st";
   str "mt"; str "mt-st"].

Section Package.

Variable run : Runner.

(** [getCmdOutput] and [getCmdOutputCtx]; the debug trace printed to
    standard output is not part of the world. *)
Definition getCmdOutput (name : gostring) (args : list gostring)
  : M CmdResult :=
  fun w =>
    let inv := mkInvocation None name args in
    (run (trace w) inv, record_inv inv w).

Definition getCmdOutputCtx (ctx : Context) (name : gostring)
  (args : list gostring) : M CmdResult :=
  fun w =>
    let inv := mkInvocation (Some ctx) name args in
    (run (trace w) inv, record_inv inv w).

(** The loop of [utilProbe]. *)
Fixpoint probe_loop (ctx : Context) (possibleAt : list gostring)
  (parm : gostring) (onFail : error) : M (gostring * option error) :=
  match possibleAt with
  | [] => ret ([], Some onFail)
  | path :: rest =>
      r <- getCmdOutputCtx ctx path [parm] ;;
      match snd r with
      | None => ret (path, None)
      | Some e =>
          if AsExitError e then ret (path, None)
          else probe_loop ctx rest parm onFail
      end
  end.

Definition utilProbe (possibleAt : list gostring) (parm : gostring)
  (onFail : error) : M (gostring * option error) :=
  ctx <- withTimeout UtilsDiscoverTimeout ;;
  r <- probe_loop ctx possibleAt parm onFail ;;
  cancel ctx ;;;
  ret r.

Definition discoverSgLogs : M (gostring * option error) :=
  utilProbe possibleSgLogs (str "-h") ErrNoSgLogsDiscovered.

Definition discoverMt : M (gostring * option error) :=
  utilProbe possibleMt (str "-h") ErrNoMtDiscovered.

Definition discoverSgReadAttr : M (gostring * option error) :=
  utilProbe possibleSgReadAttr (str "-h") ErrNoSgReadAttrDiscovered.

Variable device : LtoNoRewindTapeDrive.

Definition ExecSgReadAttr (id : gostring) : M (gostring * option error) :=
  r <- getCmdOutput (SgReadAttr device) [str "-f"; id; DeviceFile device] ;;
  match snd r with
  | Some err => ret ([], Some (Errorf2 ErrSgReadAttrExecFailed err))
  | None => ret (extractSgStrVal (fst r))
  end.

Definition HasDataCartridge : M (bool * option error) :=
  r <- ExecSgReadAttr (str "0x0408") ;;
  match snd r with
  | Some err => ret (false, Some err)
  | None =>
      let (val, err) := ParseInt (fst r) 0 64 in
      match err with
      | Some e => ret (false, Some (Errorf2 ErrCanNotParseSgReadAttrOutput e))
      | None => ret (val =? ReadAttrMediumTypeDataCartridge, None)
      end
  end.

Definition TryReadAttr : M (option error) :=
  r <- HasDataCartridge ;;
  ret (snd r).

Definition GetCapacityLog : M (LtoTapeCapacityLog * option error) :=
  r <- getCmdOutput (SgLogs device) [str "-p"; str "0x31"; DeviceFile device] ;;
  match snd r with
  | Some err =>
      ret (mkCapacityLog (-1) (-1) (-1) (-1),
           Join [None; Some (Errorf2 ErrSgLogsExecFailed err)])
  | None => ret (parse_capacity_report (fst r))
  end.

Definition GetMediumSN : M (gostring * option error) :=
  err <- TryReadAttr ;;
  match err with
  | Some e => ret ([], Some (Errorf2 ErrCanNotGetMediumSN e))
  | None =>
      r <- ExecSgReadAttr (str "0x0401") ;;
      match snd r with
      | Some e => ret ([], Some (Errorf2 ErrCanNotGetMediumSN e))
      | None => ret (fst r, None)
      end
  end.

(** [args] are uint32 values. *)
Definition ExecMtCmdCtx (ctx : Context) (cmd : gostring) (args : list N)
  : M (gostring * option error) :=
  r <- HasDataCartridge ;;
  match snd r with
  | Some err => ret ([], Some (Errorf2 ErrNoDataCartridgeOrNotReady err))
  | None =>
      if negb (fst r) then ret ([], Some ErrNoDataCartridgeOrNotReady)
      else
        let argsStrs :=
          [str "-f"; DeviceFile device; cmd] ++ map FormatUint args in
        getCmdOutputCtx ctx (Mt device) argsStrs
  end.

Definition ExecMtCmd (timeout : Z) (cmd : gostring) (args : list N)
  : M (gostring * option error) :=
  if timeout =? 0 then ExecMtCmdCtx Background cmd args
  else
    ctx <- withTimeout timeout ;;
    r <- ExecMtCmdCtx ctx cmd args ;;
    cancel ctx ;;;
    ret r.

Definition ChkDevice : M (option error) :=
  r <- ExecMtCmd 0 (str "status") [] ;;
  match snd r with
  | Some err => ret (Some (Errorf2 ErrDeviceCheckFailed err))
  | None => ret None
  end.

Definition Rewind (timeout : Z) : M (option error) :=
  r <- ExecMtCmd timeout (str "rewind") [] ;; ret (snd r).

Definition RewindCtx (ctx : Context) : M (option error) :=
  r <- ExecMtCmdCtx ctx (str "rewind") [] ;; ret (snd r).

Definition FSF (count : N) (timeout : Z) : M (option error) :=
  r <- ExecMtCmd timeout (str "fsf") [count] ;; ret (snd r).

Definition FSFCtx (ctx : Context) (count : N) : M (option error) :=
  r <- ExecMtCmdCtx ctx (str "fsf") [count] ;; ret (snd r).

Definition BSF (count : N) (timeout : Z) : M (option error) :=
  r <- ExecMtCmd timeout (str "bsf") [count] ;; ret (snd r).

Definition BSFCtx (ctx : Context) (count : N) : M (option error) :=
  r <- ExecMtCmdCtx ctx (str "bsf") [count] ;; ret (snd r).

Definition BSFM (count : N) (timeout : Z) : M (option error) :=
  r <- ExecMtCmd timeout (str "bsfm") [count] ;; ret (snd r).

Definition BSFMCtx (ctx : Context) (count : N) : M (option error) :=
  r <- ExecMtCmdCtx ctx (str "bsfm") [count] ;; ret (snd r).

Definition Erase (timeout : Z) : M (option error) :=
  r <- ExecMtCmd timeout (str "erase") [] ;; ret (snd r).

Definition EraseCtx (ctx : Context) : M (option error) :=
  r <- ExecMtCmdCtx ctx (str "erase") [] ;; ret (snd r).

Definition Eject (timeout : Z) : M (option error) :=
  r <- ExecMtCmd timeout (str "eject") [] ;; ret (snd r).

Definition EjectCtx (ctx : Context) : M (option error) :=
  r <- ExecMtCmdCtx ctx (str "eject") [] ;; ret (snd r).

Definition WEOF (timeout : Z) : M (option error) :=
  r <- ExecMtCmd timeout (str "weof") [] ;; ret (snd r).

Definition WEOFCtx (ctx : Context) : M (option error) :=
  r <- ExecMtCmdCtx ctx (str "weof") [] ;; ret (snd r).

Definition NextFileCtx (ctx : Context) : M (option error) := FSFCtx ctx 1.

Definition NextFile (timeout : Z) : M (option error) :=
  if timeout =? 0 then NextFileCtx Background
  else
    ctx <- withTimeout timeout ;;
    r <- NextFileCtx ctx ;;
    cancel ctx ;;;
    ret r.

Definition GetCurFileNumber : M (Z * option error) :=
  r <- ExecMtCmd 0 (str "status") [] ;;
  match snd r with
  | Some err => ret (0, Some (Errorf2 ErrMtExecFailed err))
  | None => ret (scan_file_number (Split (fst r) "010"))
  end.

Definition PrevFileCtx (ctx : Context) : M (option error) :=
  r <- GetCurFileNumber ;;
  match snd r with
  | Some err => ret (Some (Errorf2 ErrCanNotGoToPrevFile err))
  | None =>
      if (fst r =? 0) || (fst r =? 1) then RewindCtx ctx
      else
        err <- BSFCtx ctx 1 ;;
        match err with
        | Some e => ret (Some (Errorf2 ErrCanNotGoToPrevFile e))
        | None =>
            err <- BSFMCtx ctx 1 ;;
            match err with
            | Some e => ret (Some (Errorf2 ErrCanNotGoToPrevFile e))
            | None => ret None
            end
        end
  end.

Definition PrevFile (timeout : Z) : M (option error) :=
  if timeout =? 0 then PrevFileCtx Background
  else
    ctx <- withTimeout timeout ;;
    r <- PrevFileCtx ctx ;;
    cancel ctx ;;;
    ret r.

(** The [for err == nil] loop of [CountFiles], entered after a rewind
    that succeeded; [cnt] is a uint64.  The loop ends only when a step
    fails: [None] is returned when it has not ended within [fuel]
    steps. *)
Fixpoint count_loop (fuel : nat) (ctx : Context) (cnt : Z)
  : M (option (Z * option error)) :=
  match fuel with
  | O => ret None
  | S fuel' =>
      err <- NextFileCtx ctx ;;
      match err with
      | Some e => ret (Some (cnt, Some e))
      | None => count_loop fuel' ctx ((cnt + 1) mod 2 ^ 64)
      end
  end.

Definition CountFiles (fuel : nat) (timeout : Z)
  : M (option (Z * option error)) :=
  ctx <- withTimeout timeout ;;
  err <- RewindCtx ctx ;;
  r <- match err with
       | Some e => ret (Some (0, Some e))
       | None => count_loop fuel ctx 0
       end ;;
  match r with
  | None => ret None
  | Some (cnt, err) =>
      errRewind <- RewindCtx ctx ;;
      cancel ctx ;;;
      ret (Some (cnt, Join [err; errRewind]))
  end.

End Package.

(** ** Invocations named in the statements *)

(** The medium-type probe: [sg_read_attr -f 0x0408 <device>], run by
    [exec.Command], so under no context. *)
Definition probe_inv (device : LtoNoRewindTapeDrive) : Invocation :=
  mkInvocation None (SgReadAttr device)
    [str "-f"; str "0x0408"; DeviceFile device].

(** [mt -f <device> cmd args...] under [ctx]. *)
Definition mt_inv (device : LtoNoRewindTapeDrive) (ctx : Context)
  (cmd : gostring) (args : list N) : Invocation :=
  mkInvocation (Some ctx) (Mt device)
    ([str "-f"; DeviceFile device; cmd] ++ map FormatUint args).

(** The probe answered and reported a data cartridge. *)
Definition gate_open (r : bool * option error) : bool :=
  match r with
  | (true, None) => true
  | _ => false
  end.

(** The error of a positioning command stopped at the gate. *)
Definition gate_error (r : bool * option error) : error :=
  match snd r with
  | Some e => Errorf2 ErrNoDataCartridgeOrNotReady e
  | None => ErrNoDataCartridgeOrNotReady
  end.

(** The answer of the medium-type probe when it is run after the
    invocations [tr]. *)
Definition probe_after (run : Runner) (device : LtoNoRewindTapeDrive)
  (tr : list Invocation) : bool * option error :=
  fst (HasDataCartridge run device (mkWorld tr 0 [])).

(** The invocations of an mt command dispatched after [tr]: the probe,
    and the command itself when the probe opens the gate. *)
Definition gated_invocations (run : Runner) (device : LtoNoRewindTapeDrive)
  (ctx : Context) (cmd : gostring) (args : list N) (tr : list Invocation)
  : list Invocation :=
  probe_inv device
  :: (if gate_open (probe_after run device tr)
      then [mt_inv device ctx cmd args] else []).

(** The error of that command: what mt answered, or the error of the
    gate. *)
Definition gated_outcome (run : Runner) (device : LtoNoRewindTapeDrive)
  (ctx : Context) (cmd : gostring) (args : list N) (tr : list Invocation)
  : option error :=
  if gate_open (probe_after run device tr)
  then snd (run (tr ++ [probe_inv device]) (mt_inv device ctx cmd args))
  else Some (gate_error (probe_after run device tr)).

(** The positioning primitives built on [ExecMtCmdCtx]. *)
Inductive Primitive : Type :=
| PRewind
| PFSF (count : N)
| PBSF (count : N)
| PBSFM (count : N)
| PWEOF
| PErase
| PEject.

Definition primitive_cmd (p : Primitive) : gostring :=
  match p with
  | PRewind => str "rewind"
  | PFSF _ => str "fsf"
  | PBSF _ => str "bsf"
  | PBSFM _ => str "bsfm"
  | PWEOF => str "weof"
  | PErase => str "erase"
  | PEject => str "eject"
  end.

Definition primitive_args (p : Primitive) : list N :=
  match p with
  | PFSF n | PBSF n | PBSFM n => [n]
  | _ => []
  end.

Definition primitiveCtx (run : Runner) (device : LtoNoRewindTapeDrive)
  (p : Primitive) (ctx : Context) : M (option error) :=
  match p with
  | PRewind => RewindCtx run device ctx
  | PFSF n => FSFCtx run device ctx n
  | PBSF n => BSFCtx run device ctx n
  | PBSFM n => BSFMCtx run device ctx n
  | PWEOF => WEOFCtx run device ctx
  | PErase => EraseCtx run device ctx
  | PEject => EjectCtx run device ctx
  end.

(** The same primitives with a timeout instead of a context. *)
Definition primitiveTimeout (run : Runner) (device : LtoNoRewindTapeDrive)
  (p : Primitive) (timeout : Z) : M (option error) :=
  match p with
  | PRewind => Rewind run device timeout
  | PFSF n => FSF run device n timeout
  | PBSF n => BSF run device n timeout
  | PBSFM n => BSFM run device n timeout
  | PWEOF => WEOF run device timeout
  | PErase => Erase run device timeout
  | PEject => Eject run device timeout
  end.

(** [sg_logs -p 0x31 <device>], the capacity report. *)
Definition sg_logs_inv (device : LtoNoRewindTapeDrive) : Invocation :=
  mkInvocation None (SgLogs device) [str "-p"; str "0x31"; DeviceFile device].

(** [sg_read_attr -f id <device>]. *)
Definition attr_inv (device : LtoNoRewindTapeDrive) (id : gostring)
  : Invocation :=
  mkInvocation None (SgReadAttr device) [str "-f"; id; DeviceFile device].

(** The probe of a candidate by [utilProbe]. *)
Definition util_inv (ctx : Context) (path parm : gostring) : Invocation :=
  mkInvocation (Some ctx) path [parm].

(** A candidate proves resolvable: its probe ran, or failed with an
    [*exec.ExitError]. *)
Definition resolves (run : Runner) (hist : list Invocation) (ctx : Context)
  (path parm : gostring) : bool :=
  match snd (run hist (util_inv ctx path parm)) with
  | None => true
  | Some e => AsExitError e
  end.

Definition is_nil (e : option error) : bool :=
  match e with
  | None => true
  | Some _ => false
  end.

(** The world after [n] calls of [NextFileCtx]. *)
Fixpoint steps_forward (run : Runner) (device : LtoNoRewindTapeDrive)
  (ctx : Context) (n : nat) (w : World) : World :=
  match n with
  | O => w
  | S n' =>
      steps_forward run device ctx n' (snd (NextFileCtx run device ctx w))
  end.

(** [w'] is [w] after some more invocations, all satisfying [P]. *)
Definition grows (P : Invocation -> Prop) (w w' : World) : Prop :=
  exists l, trace w' = trace w ++ l /\ Forall P l.

(** ** Bytes and tokens named in the statements *)

(** An ASCII byte that is not white space. *)
Definition plain (c : ascii) : bool :=
  (byte_of c <? 128)%N && negb (asciiSpace c).

Definition is_digit (c : ascii) : bool :=
  ((48 <=? byte_of c) && (byte_of c <=? 57))%N.

(** The value of a string of decimal digits read after [n]. *)
Definition decimal_from (n : Z) (ds : gostring) : Z :=
  fold_left (fun acc c => acc * 10 + (Z.of_N (byte_of c) - 48)) ds n.

Definition decimal_value (ds : gostring) : Z := decimal_from 0 ds.

(** A decimal numeral as the utilities print it: digits, not empty, with
    no leading zero unless it is [0] itself. *)
Definition canonical_decimal (ds : gostring) : bool :=
  forallb is_digit ds
  && match ds with
     | [] => false
     | [_] => true
     | c :: _ => negb (byte_eqb c "0")
     end.



Definition no_byte (sep : ascii) (s : gostring) : bool :=
  forallb (fun c => negb (byte_eqb c sep)) s.

(** What may follow the value token on its line: nothing, or white space
    and then any text. *)
Definition trailing_text (trail : gostring) : bool :=
  match trail with
  | [] => true
  | c :: _ => asciiSpace c
  end.

(** An optional sign before a numeral. *)
Inductive Sign : Type := NoSign | PlusSign | MinusSign.

Definition sign_text (sg : Sign) : gostring :=
  match sg with
  | NoSign => []
  | PlusSign => ["+"%char]
  | MinusSign => ["-"%char]
  end.

Definition sign_factor (sg : Sign) : Z :=
  match sg with
  | MinusSign => -1
  | _ => 1
  end.

(** The four fields of the capacity log, with their labels and errors. *)
Inductive CapField : Type := FMainRemaining | FAltRemaining | FMainMax | FAltMax.

Definition field_label (f : CapField) : gostring :=
  match f with
  | FMainRemaining => str "Main partition remaining capacity"
  | FAltRemaining => str "Alternate partition remaining capacity"
  | FMainMax => str "Main partition maximum capacity"
  | FAltMax => str "Alternate partition maximum capacity"
  end.

Definition field_error (f : CapField) : error :=
  match f with
  | FMainRemaining => ErrCanNotParseMainPartitionRemaining
  | FAltRemaining => ErrCanNotParseAlternatePartitionRemaining
  | FMainMax => ErrCanNotParseMainPartitionMax
  | FAltMax => ErrCanNotParseAlternatePartitionMax
  end.

Definition get_field (f : CapField) (capLog : LtoTapeCapacityLog) : Z :=
  match f with
  | FMainRemaining => MainPartitionRemaining capLog
  | FAltRemaining => AlternatePartitionRemaining capLog
  | FMainMax => MainPartitionMax capLog
  | FAltMax => AlternatePartitionMax capLog
  end.

Definition set_field (f : CapField) (v : Z) (capLog : LtoTapeCapacityLog)
  : LtoTapeCapacityLog :=
  match f with
  | FMainRemaining =>
      mkCapacityLog v (AlternatePartitionRemaining capLog)
        (MainPartitionMax capLog) (AlternatePartitionMax capLog)
  | FAltRemaining =>
      mkCapacityLog (MainPartitionRemaining capLog) v
        (MainPartitionMax capLog) (AlternatePartitionMax capLog)
  | FMainMax =>
      mkCapacityLog (MainPartitionRemaining capLog)
        (AlternatePartitionRemaining capLog) v (AlternatePartitionMax capLog)
  | FAltMax =>
      mkCapacityLog (MainPartitionRemaining capLog)
        (AlternatePartitionRemaining capLog) (MainPartitionMax capLog) v
  end.

Definition includes (errs : option error) (target : error) : bool :=
  match errs with
  | Some e => Is e target
  | None => false
  end.

(** ** A simulated host and drive, for concrete runs *)

Definition dev0 : LtoNoRewindTapeDrive :=
  mkDrive (str "/dev/nst0") (str "/usr/bin/sg_logs")
    (str "/usr/bin/sg_read_attr") (str "/usr/bin/mt").

Definition w0 : World := mkWorld [] 0 [].

Record Tape : Type := mkTape {
  medium : gostring;        (* what sg_read_attr prints *)
  status_out : gostring;    (* what mt status prints *)
  report : gostring;        (* what sg_logs prints *)
  marks : nat;              (* how many fsf succeed *)
  rewinds : nat             (* how many rewind succeed *)
}.

Definition arg_is (inv : Invocation) (k : nat) (s : gostring) : bool :=
  gostring_eqb (nth k (inv_args inv) []) s.

Definition runs_of (cmd : gostring) (hist : list Invocation) : nat :=
  length (filter (fun i => gostring_eqb (inv_name i) (str "/usr/bin/mt")
                           && arg_is i 2 cmd) hist).

Definition io_error : CmdResult :=
  (str "/dev/nst0: Input/output error", Some (ExitError 2)).

Definition tape_runner (t : Tape) : Runner :=
  fun hist inv =>
    if gostring_eqb (inv_name inv) (str "/usr/bin/sg_read_attr")
    then (medium t, None)
    else if gostring_eqb (inv_name inv) (str "/usr/bin/sg_logs")
    then (report t, None)
    else if gostring_eqb (inv_name inv) (str "/usr/bin/mt")
    then
      if arg_is inv 2 (str "status") then (status_out t, None)
      else if arg_is inv 2 (str "fsf")
      then if (runs_of (str "fsf") hist <? marks t)%nat
           then ([], None) else io_error
      else if arg_is inv 2 (str "rewind")
      then if (runs_of (str "rewind") hist <? rewinds t)%nat
           then ([], None) else io_error
      else ([], None)
    else ([], Some (LaunchError (inv_name inv)
                      (str "executable file not found in $PATH"))).

Definition newline : gostring := ["010"%char].

Definition status_at_file_2 : gostring :=
  str "SCSI 2 tape drive:" ++ newline
  ++ str "File number=2, block number=0, partition=0." ++ newline
  ++ str "Tape block size 0 bytes. Density code 0x5a (no translation)."
  ++ newline.

Definition capacity_report : gostring :=
  str "Tape capacity page  (LTO-5 and LTO-6 specific) [0x31]" ++ newline
  ++ str "  Main partition remaining capacity (in MiB): 1,409,466" ++ newline
  ++ str "  Alternate partition remaining capacity (in MiB): 0" ++ newline
  ++ str "  Main partition maximum capacity (in MiB): 1425000 MiB" ++ newline
  ++ str "  Alternate partition maximum capacity (in MiB): 0" ++ newline.

(** A data cartridge with two file marks. *)
Definition loaded_tape : Tape :=
  mkTape (str "  Medium type: 0") status_at_file_2 capacity_report 2 8.

(** The same cartridge in a drive that rewinds once and then fails. *)
Definition stuck_tape : Tape :=
  mkTape (str "  Medium type: 0") status_at_file_2 capacity_report 2 1.

(** A data cartridge positioned at file [n]. *)
Definition file_number_tape (n : gostring) : Tape :=
  mkTape (str "  Medium type: 0")
    (str "File number=" ++ n ++ str ", block number=0, partition=0.")
    capacity_report 2 8.

(** A cleaning cartridge: medium type 1. *)
Definition cleaning_tape : Tape :=
  mkTape (str "  Medium type: 1") status_at_file_2 capacity_report 2 8.

(** A drive with no cartridge in it: the attribute read fails, [mt]
    answers as before. *)
Definition empty_drive : Runner :=
  fun hist inv =>
    if gostring_eqb (inv_name inv) (str "/usr/bin/sg_read_attr")
    then (str "sg_read_attr: medium not present", Some (ExitError 2))
    else tape_runner loaded_tape hist inv.

(** A host where only the listed programs exist; they all reject [-h]
    with exit status 1, except the programs of [good], which accept it. *)
Definition host_runner (installed good : list gostring) : Runner :=
  fun _ inv =>
    if existsb (gostring_eqb (inv_name inv)) good then (str "Usage", None)
    else if existsb (gostring_eqb (inv_name inv)) installed
    then (str "invalid option", Some (ExitError 1))
    else ([], Some (LaunchError (inv_name inv)
                      (str "no such file or directory"))).


Definition all_fields : list CapField :=
  [FMainRemaining; FAltRemaining; FMainMax; FAltMax].

Definition no_fields : LtoTapeCapacityLog * option error :=
  (mkCapacityLog (-1) (-1) (-1) (-1), None).

(** The first comma-delimited sub-field of a line of [mt status],
    trimmed, as [GetCurFileNumber] looks at it. *)
Definition first_sub_field (line : gostring) : gostring :=
  TrimSpace (nth 0 (Split line ",") []).

(** The status line of the specification, and one that has the file
    number in its first sub-field. *)
Definition spec_status_tape : Tape :=
  mkTape (str "  Medium type: 0")
    (str "ONLINE, File number=3, Block number=0") capacity_report 2 8.

Definition file3_tape : Tape :=
  mkTape (str "  Medium type: 0")
    (str "File number=3, Block number=0") capacity_report 2 8.



(** ** Construction of the drive handle *)

Definition ErrCanNotStatTheDevice : error :=
  New (str "can not stat specified device file").
Definition ErrNoRewindRequired : error :=
  New (str "a no rewind tape device is required").
Definition ErrUnsupportedPlatform : error :=
  New (str "this os is not supported").

(** [strings.HasSuffix]. *)
Definition HasSuffix (s suffix : gostring) : bool :=
  (length suffix <=? length s)%nat
  && gostring_eqb (skipn (length s - length suffix) s) suffix.

Section Construction.

(** [runtime.GOOS] and the error of [os.Stat] on a path: the platform and
    the file system are given from outside. *)
Variable GOOS : gostring.
Variable stat : gostring -> option error.
Variable run : Runner.

Definition tryStatDF (device : LtoNoRewindTapeDrive) : option error :=
  match stat (DeviceFile device) with
  | Some _ => Some ErrCanNotStatTheDevice
  | None => None
  end.

Definition chkIsNoRewind (device : LtoNoRewindTapeDrive) : option error :=
  let splitedDF := Split (DeviceFile device) "/" in
  if gostring_eqb GOOS (str "linux") then
    if negb (HasPrefix (last_elem splitedDF) (str "nst"))
    then Some ErrNoRewindRequired else None
  else if gostring_eqb GOOS (str "freebsd")
          || gostring_eqb GOOS (str "netbsd")
          || gostring_eqb GOOS (str "openbsd") then
    if negb (HasPrefix (last_elem splitedDF) (str "nsa"))
    then Some ErrNoRewindRequired else None
  else if gostring_eqb GOOS (str "solaris") then
    if negb (HasSuffix (last_elem splitedDF) (str "n"))
    then Some ErrNoRewindRequired else None
  else if gostring_eqb GOOS (str "aix") then
    if negb (HasSuffix (last_elem splitedDF) (str ".1"))
    then Some ErrNoRewindRequired else None
  else Some ErrUnsupportedPlatform.

(** [errs = errors.Join(errs, err)] under [if err != nil]. *)
Definition join_if (errs err : option error) : option error :=
  match err with
  | Some e => Join [errs; Some e]
  | None => errs
  end.

Definition NewLtoNoRewindTapeDrive (device : gostring)
  : M (LtoNoRewindTapeDrive * option error) :=
  let newDevice := mkDrive device [] [] [] in
  match tryStatDF newDevice with
  | Some _ => ret (newDevice, Some ErrCanNotStatTheDevice)
  | None =>
      match chkIsNoRewind newDevice with
      | Some _ => ret (newDevice, Some ErrNoRewindRequired)
      | None =>
          mt <- discoverMt run ;;
          let errs := join_if None (snd mt) in
          sgLogs <- discoverSgLogs run ;;
          let errs := join_if errs (snd sgLogs) in
          sgReadAttr <- discoverSgReadAttr run ;;
          let errs := join_if errs (snd sgReadAttr) in
          ret (mkDrive device (fst sgLogs) (fst sgReadAttr) (fst mt), errs)
      end
  end.

End Construction.

(** What a discovery returns: a candidate and no error, or no path and
    the error of the utility. *)
Definition discovered (candidates : list gostring) (onFail : error)
  (r : gostring * option error) : Prop :=
  (In (fst r) candidates /\ snd r = None)
  \/ r = ([], Some onFail).

(** A discovery that probed the first [n] candidates of [l] ended with
    the path [p]: the candidate probed last, or none after all of them. *)
Definition probed_until (l : list gostring) (n : nat) (p : gostring)
  : Prop :=
  (p = [] /\ n = length l)
  \/ ((0 < n <= length l)%nat /\ p = nth (n - 1) l []).

Definition is_empty (s : gostring) : bool :=
  match s with
  | [] => true
  | _ => false
  end.

Definition no_space (s : gostring) : bool :=
  forallb (fun c => negb (asciiSpace c)) s.

(** A line of the capacity report that carries one of the four labels
    and whose value cannot be read. *)
Definition line_fails (line : gostring) : bool :=
  existsb (fun f => HasPrefix (TrimSpace line) (field_label f)) all_fields
  && negb (is_nil (snd (extractSgIntVal (TrimSpace line) 0))).

(** The context a timeout stands for: none for 0, a new one otherwise. *)
Definition timeout_ctx (timeout : Z) (w : World) : Context :=
  if timeout =? 0 then Background else WithTimeout (ctx_next w) timeout.

(** A drive whose capacity report has no line for the alternate
    partition. *)
Definition single_partition_report : gostring :=
  str "  Main partition remaining capacity (in MiB): 1,409,466" ++ newline
  ++ str "  Main partition maximum capacity (in MiB): 1425000" ++ newline.

Definition single_partition_tape : Tape :=
  mkTape (str "  Medium type: 0") status_at_file_2 single_partition_report 2 8.

(** A drive whose attribute read prints no colon. *)
Definition mute_tape : Tape :=
  mkTape (str "medium type unknown") status_at_file_2 capacity_report 2 8.

(** A host without [sg_logs]. *)
Definition no_sg_logs : Runner :=
  fun hist inv =>
    if gostring_eqb (inv_name inv) (str "/usr/bin/sg_logs")
    then ([], Some (LaunchError (str "/usr/bin/sg_logs")
                      (str "no such file or directory")))
    else tape_runner loaded_tape hist inv.

(** A file system in which only [/dev/nst0] exists. *)
Definition only_nst0 (path : gostring) : option error :=
  if gostring_eqb path (str "/dev/nst0") then None
  else Some (LaunchError path (str "no such file or directory")).

(** * The library functions on examples *)

Local Open Scope go_scope.

Example ParseInt_decimal_example :
  ParseInt (str "1234") 0 64 = (1234, None).
Proof. vm_compute. reflexivity. Qed.

Example ParseInt_hex_example :
  ParseInt (str "-0x1f") 0 64 = (-31, None).
Proof. vm_compute. reflexivity. Qed.

Example ParseInt_octal_example :
  ParseInt (str "010") 0 64 = (8, None).
Proof. vm_compute. reflexivity. Qed.

Example ParseInt_zero_example :
  ParseInt (str "0") 0 64 = (0, None).
Proof. vm_compute. reflexivity. Qed.

Example ParseInt_range_example :
  fst (ParseInt (str "9223372036854775808") 0 64)
  = 9223372036854775807.
Proof. vm_compute. reflexivity. Qed.

Example ParseInt_underscore_example :
  ParseInt (str "1_000") 0 64 = (1000, None).
Proof. vm_compute. reflexivity. Qed.

Example Fields_example :
  Fields (str "  ab  cd e ") = [str "ab"; str "cd"; str "e"].
Proof. vm_compute. reflexivity. Qed.

Example TrimSpace_example :
  TrimSpace (str "  ab  cd e  ") = str "ab  cd e".
Proof. vm_compute. reflexivity. Qed.

(** A no-break space (C2 A0) before and a line separator (E2 80 A8)
    after are white space; a lone continuation byte is not. *)
Example TrimSpace_unicode_example :
  TrimSpace (["194"; "160"; "7"; "226"; "128"; "168"]%char) = str "7"
  /\ TrimSpace (["7"; "160"]%char) = ["7"; "160"]%char
  /\ Fields (["1"; "226"; "128"; "130"; "2"]%char) = [str "1"; str "2"].
Proof. vm_compute. repeat split. Qed.

Example Split_example :
  Split (str "a:b::c") ":"%char = [str "a"; str "b"; str ""; str "c"].
Proof. vm_compute. reflexivity. Qed.

Example FormatUint_example :
  FormatUint 120 = str "120".
Proof. vm_compute. reflexivity. Qed.

Example FormatUint_zero_example :
  FormatUint 0 = str "0".
Proof. vm_compute. reflexivity. Qed.

Example ParseInt_leading_underscore :
  snd (ParseInt (str "_1") 0 64) <> None.
Proof. vm_compute. discriminate. Qed.

Example ParseInt_double_underscore :
  snd (ParseInt (str "1__0") 0 64) <> None.
Proof. vm_compute. discriminate. Qed.


(** * Strings and numerals *)

(** ** Bytes *)

Lemma byte_eqb_eq (a b : ascii) : byte_eqb a b = true <-> a = b.
Proof. apply Ascii.eqb_eq. Qed.

Lemma byte_eqb_refl (a : ascii) : byte_eqb a a = true.
Proof. apply Ascii.eqb_refl. Qed.

Lemma plain_lo (c : ascii) :
  plain c = true -> (byte_of c < 128)%N /\ asciiSpace c = false.
Proof.
  unfold plain. rewrite andb_true_iff, negb_true_iff, N.ltb_lt. auto.
Qed.

Lemma asciiSpace_lo (c : ascii) : asciiSpace c = true -> (byte_of c < 128)%N.
Proof.
  unfold asciiSpace.
  rewrite orb_true_iff, andb_true_iff, !N.leb_le, N.eqb_eq. lia.
Qed.

Lemma space2_hi (c1 c2 : ascii) :
  space2 c1 c2 = true -> (128 <= byte_of c1)%N /\ (128 <= byte_of c2)%N.
Proof.
  unfold space2.
  rewrite andb_true_iff, orb_true_iff, !N.eqb_eq. lia.
Qed.

Lemma space3_hi (c1 c2 c3 : ascii) :
  space3 c1 c2 c3 = true ->
  (128 <= byte_of c1)%N /\ (128 <= byte_of c2)%N /\ (128 <= byte_of c3)%N.
Proof.
  unfold space3.
  rewrite !orb_true_iff, !andb_true_iff, !orb_true_iff, !andb_true_iff,
    !N.eqb_eq, !N.leb_le.
  lia.
Qed.

Lemma space2_plain_l c x : plain c = true -> space2 c x = false.
Proof.
  intros H. apply plain_lo in H.
  destruct (space2 c x) eqn:E; [apply space2_hi in E; lia | reflexivity].
Qed.

Lemma space2_plain_r c x : plain c = true -> space2 x c = false.
Proof.
  intros H. apply plain_lo in H.
  destruct (space2 x c) eqn:E; [apply space2_hi in E; lia | reflexivity].
Qed.

Lemma space3_plain_1 c x y : plain c = true -> space3 c x y = false.
Proof.
  intros H. apply plain_lo in H.
  destruct (space3 c x y) eqn:E; [apply space3_hi in E; lia | reflexivity].
Qed.

Lemma space3_plain_2 c x y : plain c = true -> space3 x c y = false.
Proof.
  intros H. apply plain_lo in H.
  destruct (space3 x c y) eqn:E; [apply space3_hi in E; lia | reflexivity].
Qed.

Lemma space3_plain_3 c x y : plain c = true -> space3 x y c = false.
Proof.
  intros H. apply plain_lo in H.
  destruct (space3 x y c) eqn:E; [apply space3_hi in E; lia | reflexivity].
Qed.

(** ** Stripping white space from one end *)

Section Strip.

Variable skip : gostring -> option gostring.

Hypothesis skip_nil : skip [] = None.
Hypothesis skip_suffix :
  forall x x', skip x = Some x' -> exists p, p <> [] /\ x = p ++ x'.
Hypothesis skip_app :
  forall x x' y, skip x = Some x' -> skip (x ++ y) = Some (x' ++ y).
Hypothesis skip_app_plain :
  forall x c y, x <> [] -> skip x = None -> plain c = true ->
                skip (x ++ c :: y) = None.
Hypothesis skip_plain : forall c y, plain c = true -> skip (c :: y) = None.
Hypothesis skip_space_byte :
  forall c y, asciiSpace c = true -> skip (c :: y) = Some y.

Lemma skip_shorter x x' : skip x = Some x' -> (length x' < length x)%nat.
Proof.
  intros H. destruct (skip_suffix _ _ H) as [p [Hp Hx]]. subst x.
  rewrite length_app. destruct p; [congruence | simpl; lia].
Qed.

Lemma strip_fuel :
  forall n m s, (length s <= n)%nat -> (length s <= m)%nat ->
                strip_while skip n s = strip_while skip m s.
Proof.
  induction n as [|n IH]; intros m s Hn Hm.
  - destruct s; [|simpl in Hn; lia].
    destruct m; simpl; [reflexivity | rewrite skip_nil; reflexivity].
  - destruct m as [|m].
    + destruct s; [|simpl in Hm; lia]. simpl. rewrite skip_nil. reflexivity.
    + simpl. destruct (skip s) as [r|] eqn:E; [|reflexivity].
      apply skip_shorter in E. apply IH; lia.
Qed.

Local Abbreviation strip := (strip skip).

Lemma strip_eq (s : gostring) :
  strip s = match skip s with
            | Some r => strip r
            | None => s
            end.
Proof.
  unfold strip. destruct s as [|c s].
  - simpl. rewrite skip_nil. reflexivity.
  - cbn [length strip_while]. destruct (skip (c :: s)) as [r|] eqn:E.
    + apply strip_fuel; [|lia]. apply skip_shorter in E. simpl in E. lia.
    + reflexivity.
Qed.

Lemma strip_ind (P : gostring -> Prop) :
  (forall s, (forall r, (length r < length s)%nat -> P r) -> P s) ->
  forall s, P s.
Proof.
  intros H s. remember (length s) as n eqn:Hn.
  revert s Hn. induction n as [n IH] using lt_wf_ind.
  intros s Hn. apply H. intros r Hr. apply (IH (length r)); [lia|reflexivity].
Qed.

Lemma strip_app_plain (x : gostring) (c : ascii) (y : gostring) :
  plain c = true -> strip (x ++ c :: y) = strip x ++ c :: y.
Proof.
  intros Hc. induction x as [x IH] using strip_ind.
  rewrite (strip_eq (x ++ c :: y)), (strip_eq x).
  destruct x as [|a x].
  - simpl. rewrite skip_nil, (skip_plain _ _ Hc). reflexivity.
  - destruct (skip (a :: x)) as [r|] eqn:E.
    + rewrite (skip_app _ _ (c :: y) E). apply IH.
      apply skip_shorter. exact E.
    + rewrite skip_app_plain; [reflexivity|discriminate|exact E|exact Hc].
Qed.

Lemma strip_fixed (s : gostring) : skip (strip s) = None.
Proof.
  induction s as [s IH] using strip_ind.
  rewrite strip_eq. destruct (skip s) as [r|] eqn:E.
  - apply IH. apply skip_shorter. exact E.
  - exact E.
Qed.

Lemma strip_idem (s : gostring) : strip (strip s) = strip s.
Proof. rewrite (strip_eq (strip s)), strip_fixed. reflexivity. Qed.

Lemma strip_is_suffix (s : gostring) : exists p, s = p ++ strip s.
Proof.
  induction s as [s IH] using strip_ind.
  rewrite strip_eq. destruct (skip s) as [r|] eqn:E.
  - destruct (skip_suffix _ _ E) as [p [_ Hp]].
    destruct (IH r) as [q Hq]; [apply skip_shorter; exact E|].
    exists (p ++ q). rewrite <- app_assoc, <- Hq. exact Hp.
  - exists []. reflexivity.
Qed.

Lemma strip_spaces (sp s : gostring) :
  forallb asciiSpace sp = true -> strip (sp ++ s) = strip s.
Proof.
  induction sp as [|c sp IH]; intros H; [reflexivity|].
  simpl in H. apply andb_true_iff in H. destruct H as [Hc Hsp].
  rewrite strip_eq. simpl. rewrite (skip_space_byte _ _ Hc). auto.
Qed.

End Strip.

(** ** [skip_space] and [skip_space_rev] strip well *)

Lemma skip_space_suffix (x x' : gostring) :
  skip_space x = Some x' -> exists p, p <> [] /\ x = p ++ x'.
Proof.
  destruct x as [|c1 [|c2 [|c3 r]]]; simpl;
    repeat match goal with
      | |- context [if ?b then _ else _] => destruct b
      end;
    intros H; inversion H; subst;
    first [ exists [c1]; split; [discriminate|reflexivity]
          | exists [c1; c2]; split; [discriminate|reflexivity]
          | exists [c1; c2; c3]; split; [discriminate|reflexivity] ].
Qed.

Lemma skip_space_app (x x' y : gostring) :
  skip_space x = Some x' -> skip_space (x ++ y) = Some (x' ++ y).
Proof.
  destruct x as [|c1 [|c2 [|c3 r]]]; simpl;
    repeat match goal with
      | |- context [if ?b then _ else _] => destruct b
      end;
    intros H; inversion H; subst; reflexivity.
Qed.

Lemma skip_space_plain (c : ascii) (y : gostring) :
  plain c = true -> skip_space (c :: y) = None.
Proof.
  intros H. simpl. rewrite (proj2 (plain_lo _ H)).
  destruct y as [|c2 [|c3 r]]; [reflexivity| |].
  - rewrite space2_plain_l by exact H. reflexivity.
  - rewrite space2_plain_l, space3_plain_1 by exact H. reflexivity.
Qed.

Lemma skip_space_app_plain (x : gostring) (c : ascii) (y : gostring) :
  x <> [] -> skip_space x = None -> plain c = true ->
  skip_space (x ++ c :: y) = None.
Proof.
  intros Hx Hs Hc.
  destruct x as [|c1 [|c2 [|c3 r]]]; [congruence| | |]; simpl in *.
  - destruct (asciiSpace c1); [discriminate|].
    rewrite space2_plain_r by exact Hc.
    destruct y; [reflexivity|].
    rewrite space3_plain_2 by exact Hc. reflexivity.
  - destruct (asciiSpace c1); [discriminate|].
    destruct (space2 c1 c2); [discriminate|].
    rewrite space3_plain_3 by exact Hc. reflexivity.
  - destruct (asciiSpace c1); [discriminate|].
    destruct (space2 c1 c2); [discriminate|].
    destruct (space3 c1 c2 c3); [discriminate|reflexivity].
Qed.

Lemma skip_space_byte (c : ascii) (y : gostring) :
  asciiSpace c = true -> skip_space (c :: y) = Some y.
Proof. intros H. simpl. rewrite H. reflexivity. Qed.

Lemma skip_space_rev_suffix (x x' : gostring) :
  skip_space_rev x = Some x' -> exists p, p <> [] /\ x = p ++ x'.
Proof.
  destruct x as [|c1 [|c2 [|c3 r]]]; simpl;
    repeat match goal with
      | |- context [if ?b then _ else _] => destruct b
      end;
    intros H; inversion H; subst;
    first [ exists [c1]; split; [discriminate|reflexivity]
          | exists [c1; c2]; split; [discriminate|reflexivity]
          | exists [c1; c2; c3]; split; [discriminate|reflexivity] ].
Qed.

Lemma skip_space_rev_app (x x' y : gostring) :
  skip_space_rev x = Some x' -> skip_space_rev (x ++ y) = Some (x' ++ y).
Proof.
  destruct x as [|c1 [|c2 [|c3 r]]]; simpl;
    repeat match goal with
      | |- context [if ?b then _ else _] => destruct b
      end;
    intros H; inversion H; subst; reflexivity.
Qed.

Lemma skip_space_rev_plain (c : ascii) (y : gostring) :
  plain c = true -> skip_space_rev (c :: y) = None.
Proof.
  intros H. simpl. rewrite (proj2 (plain_lo _ H)).
  destruct y as [|c2 [|c3 r]]; [reflexivity| |].
  - rewrite space2_plain_r by exact H. reflexivity.
  - rewrite space2_plain_r, space3_plain_3 by exact H. reflexivity.
Qed.

Lemma skip_space_rev_app_plain (x : gostring) (c : ascii) (y : gostring) :
  x <> [] -> skip_space_rev x = None -> plain c = true ->
  skip_space_rev (x ++ c :: y) = None.
Proof.
  intros Hx Hs Hc.
  destruct x as [|c1 [|c2 [|c3 r]]]; [congruence| | |]; simpl in *.
  - destruct (asciiSpace c1); [discriminate|].
    rewrite space2_plain_l by exact Hc.
    destruct y; [reflexivity|].
    rewrite space3_plain_2 by exact Hc. reflexivity.
  - destruct (asciiSpace c1); [discriminate|].
    destruct (space2 c2 c1); [discriminate|].
    rewrite space3_plain_1 by exact Hc. reflexivity.
  - destruct (asciiSpace c1); [discriminate|].
    destruct (space2 c2 c1); [discriminate|].
    destruct (space3 c3 c2 c1); [discriminate|reflexivity].
Qed.

Lemma skip_space_rev_byte (c : ascii) (y : gostring) :
  asciiSpace c = true -> skip_space_rev (c :: y) = Some y.
Proof. intros H. simpl. rewrite H. reflexivity. Qed.

(** ** [TrimSpace] *)

Lemma TrimLeftSpace_plain (c : ascii) (y : gostring) :
  plain c = true -> TrimLeftSpace (c :: y) = c :: y.
Proof.
  intros H. unfold TrimLeftSpace.
  rewrite (strip_eq skip_space eq_refl skip_space_suffix).
  rewrite skip_space_plain by exact H. reflexivity.
Qed.

Lemma TrimLeftSpace_spaces (sp s : gostring) :
  forallb asciiSpace sp = true -> TrimLeftSpace (sp ++ s) = TrimLeftSpace s.
Proof.
  apply (strip_spaces skip_space eq_refl skip_space_suffix skip_space_byte).
Qed.

Lemma TrimRightSpace_nil : TrimRightSpace [] = [].
Proof. reflexivity. Qed.

Lemma TrimRightSpace_app_plain (x : gostring) (c : ascii) (y : gostring) :
  plain c = true -> TrimRightSpace (x ++ c :: y) = x ++ c :: TrimRightSpace y.
Proof.
  intros H. unfold TrimRightSpace.
  rewrite rev_app_distr. simpl. rewrite <- app_assoc. simpl.
  rewrite (strip_app_plain skip_space_rev eq_refl skip_space_rev_suffix
             skip_space_rev_app skip_space_rev_app_plain
             skip_space_rev_plain) by exact H.
  rewrite rev_app_distr. simpl. rewrite rev_involutive, <- app_assoc.
  reflexivity.
Qed.

Lemma TrimRightSpace_idem (s : gostring) :
  TrimRightSpace (TrimRightSpace s) = TrimRightSpace s.
Proof.
  unfold TrimRightSpace. rewrite rev_involutive.
  rewrite (strip_idem skip_space_rev eq_refl skip_space_rev_suffix).
  reflexivity.
Qed.

Lemma TrimRightSpace_prefix (s : gostring) :
  exists q, s = TrimRightSpace s ++ q.
Proof.
  unfold TrimRightSpace.
  destruct (strip_is_suffix skip_space_rev eq_refl skip_space_rev_suffix
              (rev s)) as [p Hp].
  exists (rev p).
  rewrite <- rev_app_distr, <- Hp, rev_involutive. reflexivity.
Qed.

Lemma forallb_rev {A : Type} (f : A -> bool) (l : list A) :
  forallb f (rev l) = forallb f l.
Proof.
  induction l as [|a l IH]; [reflexivity|].
  simpl. rewrite forallb_app, IH. simpl. rewrite andb_true_r.
  apply andb_comm.
Qed.

Lemma TrimRightSpace_spaces (sp : gostring) :
  forallb asciiSpace sp = true -> TrimRightSpace sp = [].
Proof.
  intros H. unfold TrimRightSpace.
  rewrite <- (app_nil_r (rev sp)).
  rewrite (strip_spaces skip_space_rev eq_refl skip_space_rev_suffix
             skip_space_rev_byte); [reflexivity|].
  rewrite forallb_rev. exact H.
Qed.

(** White space before a core that begins and ends with plain bytes is
    removed, and so is the white space at the end of what follows. *)
Lemma TrimSpace_core (lead core trail : gostring) :
  forallb asciiSpace lead = true ->
  plain (hd " "%char core) = true ->
  plain (last core " "%char) = true ->
  TrimSpace (lead ++ core ++ trail) = core ++ TrimRightSpace trail.
Proof.
  intros Hl Hh Ht. unfold TrimSpace.
  rewrite TrimLeftSpace_spaces by exact Hl.
  assert (Hleft : TrimLeftSpace (core ++ trail) = core ++ trail).
  { destruct core as [|c0 core']; [discriminate|].
    apply TrimLeftSpace_plain. exact Hh. }
  rewrite Hleft.
  assert (Hne : core <> []) by (destruct core; [discriminate|congruence]).
  destruct (exists_last Hne) as [ini [tl Hini]]. subst core.
  rewrite last_last in Ht. rewrite <- !app_assoc. simpl.
  apply TrimRightSpace_app_plain. exact Ht.
Qed.

Lemma TrimRightSpace_trailing (trail : gostring) :
  trailing_text trail = true -> trailing_text (TrimRightSpace trail) = true.
Proof.
  intros H. destruct (TrimRightSpace_prefix trail) as [q Hq].
  destruct (TrimRightSpace trail) as [|c t]; [reflexivity|].
  rewrite Hq in H. exact H.
Qed.

Lemma TrimRightSpace_no_byte (sep : ascii) (trail : gostring) :
  no_byte sep trail = true -> no_byte sep (TrimRightSpace trail) = true.
Proof.
  intros H. destruct (TrimRightSpace_prefix trail) as [q Hq].
  rewrite Hq in H. unfold no_byte in *. rewrite forallb_app in H.
  apply andb_true_iff in H. tauto.
Qed.

(** ** [Fields], [Split], [ReplaceAll], [HasPrefix] *)

Lemma fields_from_plain (tok : gostring) :
  forall (fuel : nat) (cur rest : gostring),
    forallb plain tok = true -> (length tok < fuel)%nat ->
    fields_from fuel cur (tok ++ rest)
    = fields_from (fuel - length tok) (rev tok ++ cur) rest.
Proof.
  induction tok as [|c tok IH]; intros fuel cur rest Hp Hf.
  - simpl. rewrite Nat.sub_0_r. reflexivity.
  - simpl in Hp. apply andb_true_iff in Hp. destruct Hp as [Hc Hp].
    destruct fuel as [|fuel]; [simpl in Hf; lia|].
    cbn [fields_from app]. rewrite (skip_space_plain c (tok ++ rest) Hc).
    rewrite IH by (simpl in Hf; auto; lia).
    simpl. rewrite <- app_assoc. reflexivity.
Qed.

Lemma first_field_token (tok trail : gostring) :
  forallb plain tok = true -> tok <> [] -> trailing_text trail = true ->
  first_field (tok ++ trail) = tok.
Proof.
  intros Hp Hne Ht. unfold first_field, Fields.
  rewrite fields_from_plain by (rewrite ?length_app; auto; lia).
  rewrite length_app.
  replace (S (length tok + length trail) - length tok)%nat
    with (S (length trail)) by lia.
  rewrite app_nil_r.
  assert (Hf : flush_field (rev tok) = [tok]).
  { unfold flush_field. destruct (rev tok) eqn:E.
    - apply (f_equal (@rev ascii)) in E. rewrite rev_involutive in E.
      simpl in E. congruence.
    - rewrite <- E, rev_involutive. reflexivity. }
  destruct trail as [|c t].
  - cbn [fields_from]. rewrite Hf. reflexivity.
  - simpl in Ht. cbn [fields_from]. rewrite (skip_space_byte c t Ht).
    rewrite Hf. reflexivity.
Qed.

Lemma Split_not_nil (s : gostring) (sep : ascii) : Split s sep <> [].
Proof.
  destruct s as [|c r]; simpl; [discriminate|].
  destruct (byte_eqb c sep); [discriminate|].
  destruct (Split r sep); discriminate.
Qed.

Lemma Split_no_sep (s : gostring) (sep : ascii) :
  no_byte sep s = true -> Split s sep = [s].
Proof.
  induction s as [|c r IH]; intros H; [reflexivity|].
  simpl in H. apply andb_true_iff in H. destruct H as [Hc Hr].
  apply negb_true_iff in Hc. simpl. rewrite Hc, (IH Hr). reflexivity.
Qed.

Lemma Split_app_sep (a b : gostring) (sep : ascii) :
  no_byte sep a = true -> Split (a ++ sep :: b) sep = a :: Split b sep.
Proof.
  induction a as [|c r IH]; intros H.
  - simpl. rewrite byte_eqb_refl. reflexivity.
  - simpl in H. apply andb_true_iff in H. destruct H as [Hc Hr].
    apply negb_true_iff in Hc. simpl. rewrite Hc, (IH Hr). reflexivity.
Qed.

Lemma Split_two (a b : gostring) (sep : ascii) :
  (2 <= length (Split (a ++ sep :: b) sep))%nat.
Proof.
  induction a as [|c r IH]; simpl.
  - rewrite byte_eqb_refl. simpl.
    pose proof (Split_not_nil b sep). destruct (Split b sep);
      [congruence | simpl; lia].
  - destruct (byte_eqb c sep); [simpl; lia|].
    destruct (Split (r ++ sep :: b) sep); simpl in *; lia.
Qed.

Lemma last_elem_cons (x : gostring) (l : list gostring) :
  l <> [] -> last_elem (x :: l) = last_elem l.
Proof. intros H. destruct l; [congruence | reflexivity]. Qed.

(** Only what follows the last separator counts. *)
Lemma last_Split_app (a b : gostring) (sep : ascii) :
  last_elem (Split (a ++ sep :: b) sep) = last_elem (Split b sep).
Proof.
  induction a as [|c r IH]; simpl.
  - rewrite byte_eqb_refl. apply last_elem_cons, Split_not_nil.
  - destruct (byte_eqb c sep).
    + rewrite last_elem_cons by apply Split_not_nil. exact IH.
    + pose proof (Split_two r b sep) as H2.
      destruct (Split (r ++ sep :: b) sep) as [|x xs]; [simpl in H2; lia|].
      destruct xs as [|y ys]; [simpl in H2; lia|].
      rewrite <- IH. reflexivity.
Qed.

Lemma ReplaceAll_none (s : gostring) (old : ascii) (new : gostring) :
  no_byte old s = true -> ReplaceAll s old new = s.
Proof.
  induction s as [|c r IH]; intros H; [reflexivity|].
  simpl in H. apply andb_true_iff in H. destruct H as [Hc Hr].
  apply negb_true_iff in Hc. simpl. rewrite Hc, (IH Hr). reflexivity.
Qed.



Lemma HasPrefix_app (p r : gostring) : HasPrefix (p ++ r) p = true.
Proof.
  induction p as [|c p IH]; [reflexivity|].
  simpl. rewrite byte_eqb_refl. exact IH.
Qed.

Lemma HasPrefix_split (s p : gostring) :
  HasPrefix s p = true -> exists r, s = p ++ r.
Proof.
  revert s. induction p as [|c p IH]; intros s H.
  - exists s. reflexivity.
  - destruct s as [|d s]; [discriminate|].
    simpl in H. apply andb_true_iff in H. destruct H as [Hc Hp].
    apply byte_eqb_eq in Hc. subst d.
    destruct (IH s Hp) as [r Hr]. exists r. simpl. congruence.
Qed.

(** ** [ParseUint] and [ParseInt] on decimal numerals *)

Lemma is_digit_range (c : ascii) :
  is_digit c = true -> (48 <= byte_of c <= 57)%N.
Proof.
  unfold is_digit. rewrite andb_true_iff, !N.leb_le. auto.
Qed.

Lemma decimal_from_cons (n : Z) (c : ascii) (ds : gostring) :
  decimal_from n (c :: ds)
  = decimal_from (n * 10 + (Z.of_N (byte_of c) - 48)) ds.
Proof. reflexivity. Qed.

Lemma decimal_from_ge (ds : gostring) :
  forall n, forallb is_digit ds = true -> 0 <= n -> n <= decimal_from n ds.
Proof.
  induction ds as [|c r IH]; intros n H Hn; [simpl; unfold decimal_from; simpl; lia|].
  simpl in H. apply andb_true_iff in H. destruct H as [Hc Hr].
  apply is_digit_range in Hc. rewrite decimal_from_cons.
  specialize (IH (n * 10 + (Z.of_N (byte_of c) - 48)) Hr ltac:(lia)). lia.
Qed.

Lemma parse_digits_decimal (s0 : gostring) (ds : gostring) :
  forall n,
    forallb is_digit ds = true -> 0 <= n -> decimal_from n ds < 2 ^ 64 ->
    parse_digits true 10 maxUint64 s0 n false ds
    = (decimal_from n ds, false, None).
Proof.
  induction ds as [|c r IH]; intros n H Hn Hv; [reflexivity|].
  simpl in H. apply andb_true_iff in H. destruct H as [Hc Hr].
  pose proof (is_digit_range c Hc) as Hb.
  rewrite decimal_from_cons in *.
  pose proof (decimal_from_ge r (n * 10 + (Z.of_N (byte_of c) - 48)) Hr
                ltac:(lia)) as Hge.
  cbn [parse_digits].
  replace (byte_of c =? 95)%N with false by (symmetry; apply N.eqb_neq; lia).
  cbn [andb]. fold (is_digit c). rewrite Hc.
  change (2 ^ 64) with 18446744073709551616 in *.
  change (maxUint64 / 10 + 1) with 1844674407370955162.
  change maxUint64 with 18446744073709551615.
  replace (10 <=? Z.of_N (byte_of c) - 48) with false
    by (symmetry; apply Z.leb_gt; lia).
  replace (1844674407370955162 <=? n) with false
    by (symmetry; apply Z.leb_gt; lia).
  rewrite (Z.mod_small (n * 10)) by lia.
  rewrite (Z.mod_small (n * 10 + (Z.of_N (byte_of c) - 48))) by lia.
  replace (n * 10 + (Z.of_N (byte_of c) - 48) <? n * 10) with false
    by (symmetry; apply Z.ltb_ge; lia).
  replace (18446744073709551615 <? n * 10 + (Z.of_N (byte_of c) - 48))
    with false by (symmetry; apply Z.ltb_ge; lia).
  cbn [orb].
  apply (IH (n * 10 + (Z.of_N (byte_of c) - 48))); [exact Hr|lia|exact Hv].
Qed.

Lemma ParseUint_decimal (ds : gostring) :
  canonical_decimal ds = true -> decimal_value ds < 2 ^ 64 ->
  ParseUint ds 0 64 = (decimal_value ds, None).
Proof.
  unfold canonical_decimal. intros H Hv.
  apply andb_true_iff in H. destruct H as [Hd Hc].
  destruct ds as [|c r]; [discriminate|].
  destruct (byte_of c =? 48)%N eqn:E.
  - assert (c = "0"%char).
    { apply N.eqb_eq in E. unfold byte_of in E.
      rewrite <- (ascii_N_embedding c), E. reflexivity. }
    subst c. destruct r as [|c2 r]; [vm_compute; reflexivity|].
    simpl in Hc. discriminate.
  - unfold ParseUint. rewrite E.
    change ((2 <=? 0) && (0 <=? 36)) with false.
    change (0 =? 0) with true.
    change ((64 <? 0) || (64 <? 64)) with false.
    change (64 =? 0) with false. cbv iota beta.
    change (2 ^ 64 - 1) with maxUint64.
    rewrite parse_digits_decimal; [reflexivity|exact Hd|lia|exact Hv].
Qed.

Lemma decimal_value_nonneg (ds : gostring) :
  forallb is_digit ds = true -> 0 <= decimal_value ds.
Proof. intros H. apply (decimal_from_ge ds 0 H). lia. Qed.

Lemma canonical_digits (ds : gostring) :
  canonical_decimal ds = true -> forallb is_digit ds = true /\ ds <> [].
Proof.
  unfold canonical_decimal. intros H. apply andb_true_iff in H.
  destruct H as [Hd Hc]. split; [exact Hd|].
  destruct ds; [discriminate|discriminate].
Qed.

Lemma ParseInt_decimal (sg : Sign) (ds : gostring) :
  canonical_decimal ds = true ->
  - 2 ^ 63 <= sign_factor sg * decimal_value ds < 2 ^ 63 ->
  ParseInt (sign_text sg ++ ds) 0 64
  = (sign_factor sg * decimal_value ds, None).
Proof.
  intros Hc Hr.
  destruct (canonical_digits ds Hc) as [Hd Hne].
  pose proof (decimal_value_nonneg ds Hd) as H0.
  change (2 ^ 63) with 9223372036854775808 in Hr.
  assert (Hu : ParseUint ds 0 64 = (decimal_value ds, None)).
  { apply ParseUint_decimal; [exact Hc|].
    change (2 ^ 64) with 18446744073709551616.
    destruct sg; cbn [sign_factor] in Hr; lia. }
  destruct sg; cbn [sign_text app sign_factor] in *.
  - destruct ds as [|c r]; [congruence|].
    simpl in Hd. apply andb_true_iff in Hd. destruct Hd as [Hd _].
    apply is_digit_range in Hd.
    unfold ParseInt.
    replace (byte_of c =? 45)%N with false by (symmetry; apply N.eqb_neq; lia).
    replace (byte_of c =? 43)%N with false by (symmetry; apply N.eqb_neq; lia).
    cbn [orb]. rewrite Hu.
    change (64 =? 0) with false. cbv iota beta.
    change (2 ^ (64 - 1)) with 9223372036854775808.
    cbn [negb andb].
    replace (9223372036854775808 <=? decimal_value (c :: r)) with false
      by (symmetry; apply Z.leb_gt; lia).
    f_equal; lia.
  - unfold ParseInt.
    change (byte_of "+" =? 45)%N with false.
    change (byte_of "+" =? 43)%N with true.
    cbn [orb]. rewrite Hu.
    change (64 =? 0) with false. cbv iota beta.
    change (2 ^ (64 - 1)) with 9223372036854775808.
    cbn [negb andb].
    replace (9223372036854775808 <=? decimal_value ds) with false
      by (symmetry; apply Z.leb_gt; lia).
    f_equal; lia.
  - unfold ParseInt.
    change (byte_of "-" =? 45)%N with true.
    change (byte_of "-" =? 43)%N with false.
    cbn [orb]. rewrite Hu.
    change (64 =? 0) with false. cbv iota beta.
    change (2 ^ (64 - 1)) with 9223372036854775808.
    cbn [negb andb].
    replace (9223372036854775808 <? decimal_value ds) with false
      by (symmetry; apply Z.ltb_ge; lia).
    f_equal; lia.
Qed.

(** Every error of [ParseInt] is a [*strconv.NumError]. *)
Lemma parse_digits_error (base0 : bool) (base maxVal : Z) (s0 s : gostring) :
  forall n us v us' e,
    parse_digits base0 base maxVal s0 n us s = (v, us', Some e) ->
    exists k, e = NumError (str "ParseUint") s0 k.
Proof.
  induction s as [|c r IH]; intros n us v us' e H; [discriminate|].
  cbn [parse_digits] in H.
  destruct ((byte_of c =? 95)%N && base0); [eauto|].
  destruct (if ((48 <=? byte_of c) && (byte_of c <=? 57))%N
            then Some (Z.of_N (byte_of c) - 48)
            else if ((97 <=? lower c) && (lower c <=? 122))%N
                 then Some (Z.of_N (lower c) - 97 + 10)
                 else None) as [d|].
  - destruct (base <=? d); [inversion H; eexists; reflexivity|].
    destruct (maxUint64 / base + 1 <=? n);
      [inversion H; eexists; reflexivity|].
    destruct (_ || _); [inversion H; eexists; reflexivity|eauto].
  - inversion H. eexists. reflexivity.
Qed.

Lemma ParseUint_error (s : gostring) (base bitSize v : Z) (e : error) :
  ParseUint s base bitSize = (v, Some e) ->
  exists k, e = NumError (str "ParseUint") s k.
Proof.
  unfold ParseUint. destruct s as [|c0 r0].
  - intros H. inversion H. eexists. reflexivity.
  - match goal with
    | |- context [match ?p with Some _ => _ | None => _ end] =>
        destruct p as [[b digits]|]
    end.
    + destruct (_ || _); [intros H; inversion H; eexists; reflexivity|].
      destruct (parse_digits _ _ _ _ _ _ _) as [[n us] [e'|]] eqn:E.
      * intros H. inversion H. subst.
        eapply parse_digits_error. exact E.
      * destruct (us && _); intros H; inversion H. eexists. reflexivity.
    + intros H. inversion H. eexists. reflexivity.
Qed.

Lemma ParseInt_error (s : gostring) (base bitSize v : Z) (e : error) :
  ParseInt s base bitSize = (v, Some e) -> exists fn num k, e = NumError fn num k.
Proof.
  unfold ParseInt. destruct s as [|c0 r0].
  - intros H. inversion H. do 3 eexists. reflexivity.
  - destruct (ParseUint _ base bitSize) as [un [e'|]] eqn:E.
    + destruct (ParseUint_error _ _ _ _ _ E) as [k Hk]. subst e'.
      destruct (negb _).
      * intros H. inversion H. simpl. do 3 eexists. reflexivity.
      * destruct (_ && _); [intros H; inversion H; do 3 eexists; reflexivity|].
        destruct (_ && _); intros H; inversion H. do 3 eexists. reflexivity.
    + destruct (_ && _); [intros H; inversion H; do 3 eexists; reflexivity|].
      destruct (_ && _); intros H; inversion H. do 3 eexists. reflexivity.
Qed.

(** ** The value after the last separator *)

Lemma spaces_no_byte (sep : ascii) (sp : gostring) :
  asciiSpace sep = false -> forallb asciiSpace sp = true ->
  no_byte sep sp = true.
Proof.
  intros Hs H. unfold no_byte. rewrite forallb_forall in *.
  intros c Hc. specialize (H c Hc).
  destruct (byte_eqb c sep) eqn:E; [|reflexivity].
  apply byte_eqb_eq in E. subst c. congruence.
Qed.

Lemma hd_app_one (Y : gostring) (sep : ascii) (r : gostring) :
  hd " "%char (Y ++ sep :: r) = hd " "%char (Y ++ [sep]).
Proof. destruct Y; reflexivity. Qed.

Lemma last_plain (tok : gostring) :
  forallb plain tok = true -> tok <> [] -> plain (last tok " "%char) = true.
Proof.
  intros H Hne. destruct (exists_last Hne) as [ini [tl Hini]]. subst tok.
  rewrite last_last. rewrite forallb_app in H.
  apply andb_true_iff in H. destruct H as [_ H]. simpl in H.
  rewrite andb_true_r in H. exact H.
Qed.

Lemma hd_plain (tok : gostring) :
  forallb plain tok = true -> tok <> [] -> plain (hd " "%char tok) = true.
Proof.
  intros H Hne. destruct tok as [|c r]; [congruence|].
  simpl in *. apply andb_true_iff in H. tauto.
Qed.

Lemma last_app_nonempty (a b : gostring) (d : ascii) :
  b <> [] -> last (a ++ b) d = last b d.
Proof.
  intros Hne. destruct (exists_last Hne) as [ini [tl Hini]]. subst b.
  rewrite app_assoc, !last_last. reflexivity.
Qed.

Section ValueToken.

Variable sep : ascii.
Hypothesis sep_plain : plain sep = true.

Variables Y sp tok trail : gostring.
Hypothesis Y_head : plain (hd " "%char (Y ++ [sep])) = true.
Hypothesis sp_spaces : forallb asciiSpace sp = true.


Hypothesis tok_plain : forallb plain tok = true.
Hypothesis tok_no_sep : no_byte sep tok = true.
Hypothesis tok_not_nil : tok <> [].
Hypothesis trail_text : trailing_text trail = true.
Hypothesis trail_no_sep : no_byte sep trail = true.

Lemma value_token :
  TrimSpace (last_elem (Split (TrimSpace (Y ++ sep :: sp ++ tok ++ trail))
                          sep))
  = tok ++ TrimRightSpace trail.
Proof.
  assert (H : TrimSpace (Y ++ sep :: sp ++ tok ++ trail)
              = Y ++ sep :: sp ++ tok ++ TrimRightSpace trail).
  { replace (Y ++ sep :: sp ++ tok ++ trail)
      with ([] ++ ((Y ++ sep :: sp) ++ tok) ++ trail)
      by (simpl; rewrite <- !app_assoc; reflexivity).
    replace (Y ++ sep :: sp ++ tok ++ TrimRightSpace trail)
      with (((Y ++ sep :: sp) ++ tok) ++ TrimRightSpace trail)
      by (rewrite <- !app_assoc; reflexivity).
    apply TrimSpace_core.
    - reflexivity.
    - rewrite <- app_assoc. simpl. rewrite hd_app_one. exact Y_head.
    - rewrite last_app_nonempty by exact tok_not_nil.
      apply last_plain; assumption. }
  rewrite H. clear H.
  rewrite last_Split_app.
  rewrite Split_no_sep.
  - unfold last_elem. simpl.
    pose proof (TrimSpace_core sp tok (TrimRightSpace trail) sp_spaces
                  (hd_plain tok tok_plain tok_not_nil)
                  (last_plain tok tok_plain tok_not_nil)) as H.
    rewrite TrimRightSpace_idem in H. exact H.
  - unfold no_byte. rewrite !forallb_app.
    assert (Hs : asciiSpace sep = false)
      by (apply plain_lo in sep_plain; tauto).
    pose proof (spaces_no_byte sep sp Hs sp_spaces) as H1.
    pose proof (TrimRightSpace_no_byte sep trail trail_no_sep) as H2.
    unfold no_byte in *. rewrite H1, tok_no_sep, H2. reflexivity.
Qed.

Lemma value_first_field :
  first_field
    (TrimSpace (last_elem (Split (TrimSpace (Y ++ sep :: sp ++ tok ++ trail))
                             sep)))
  = tok.
Proof.
  rewrite value_token. apply first_field_token;
    [exact tok_plain | exact tok_not_nil
    | apply TrimRightSpace_trailing; exact trail_text].
Qed.

Lemma value_not_empty :
  (length
     (TrimSpace (last_elem (Split (TrimSpace (Y ++ sep :: sp ++ tok ++ trail))
                              sep))) =? 0)%nat = false.
Proof.
  rewrite value_token. apply Nat.eqb_neq.
  rewrite length_app. destruct tok; [congruence | simpl; lia].
Qed.

End ValueToken.



Lemma extractMtUintVal_token (Y sp tok trail : gostring) (base : Z) :
  plain (hd " "%char (Y ++ ["="%char])) = true ->
  forallb asciiSpace sp = true ->
  forallb plain tok = true -> no_byte "=" tok = true -> tok <> [] ->
  trailing_text trail = true -> no_byte "=" trail = true ->
  extractMtUintVal (Y ++ "="%char :: sp ++ tok ++ trail) base
  = match ParseUint (ReplaceAll tok "," []) base 64 with
    | (_, Some e) => (0, Some e)
    | (v, None) => (v, None)
    end.
Proof.
  intros HY Hsp Htp Htc Htn Htt Htr. unfold extractMtUintVal.
  rewrite (value_not_empty "=" eq_refl Y sp tok trail) by assumption.
  rewrite (value_first_field "=" eq_refl Y sp tok trail) by assumption.
  destruct (ParseUint _ base 64) as [v [e|]]; reflexivity.
Qed.

(** ** The lines of the capacity report *)

Lemma capacity_line_field (f : CapField) (line : gostring)
  (st : LtoTapeCapacityLog * option error) :
  HasPrefix (TrimSpace line) (field_label f) = true ->
  capacity_line line st
  = (set_field f
       (fst (parseSgLogsCapacityLine (TrimSpace line) (field_error f)))
       (fst st),
     Join [snd st;
           snd (parseSgLogsCapacityLine (TrimSpace line) (field_error f))]).
Proof.
  intros H. destruct (HasPrefix_split _ _ H) as [r Hr].
  unfold capacity_line. destruct st as [capLog errs].
  rewrite Hr in *. clear Hr H.
  destruct f; cbn [field_label field_error set_field fst snd];
    rewrite ?HasPrefix_app;
    repeat match goal with
      | |- context [HasPrefix (str ?a ++ r) (str ?b)] =>
          let v := eval vm_compute in (HasPrefix (str a) (str b)) in
          change (HasPrefix (str a ++ r) (str b)) with v
      end;
    cbv iota;
    match goal with
    | |- context [parseSgLogsCapacityLine ?l ?e] =>
        destruct (parseSgLogsCapacityLine l e); reflexivity
    end.
Qed.

Lemma capacity_line_unmatched (line : gostring)
  (st : LtoTapeCapacityLog * option error) :
  (forall f, HasPrefix (TrimSpace line) (field_label f) = false) ->
  capacity_line line st = st.
Proof.
  intros H. unfold capacity_line. destruct st as [capLog errs].
  pose proof (H FMainRemaining) as H1. pose proof (H FAltRemaining) as H2.
  pose proof (H FMainMax) as H3. pose proof (H FAltMax) as H4.
  cbn [field_label] in *. rewrite H1, H2, H3, H4. reflexivity.
Qed.

Lemma capacity_line_cases (line : gostring)
  (st : LtoTapeCapacityLog * option error) :
  capacity_line line st = st
  \/ exists f,
       capacity_line line st
       = (set_field f
            (fst (parseSgLogsCapacityLine (TrimSpace line) (field_error f)))
            (fst st),
          Join [snd st;
                snd (parseSgLogsCapacityLine (TrimSpace line)
                       (field_error f))]).
Proof.
  destruct (HasPrefix (TrimSpace line) (field_label FMainRemaining)) eqn:H1;
    [right; exists FMainRemaining; apply capacity_line_field; exact H1|].
  destruct (HasPrefix (TrimSpace line) (field_label FAltRemaining)) eqn:H2;
    [right; exists FAltRemaining; apply capacity_line_field; exact H2|].
  destruct (HasPrefix (TrimSpace line) (field_label FMainMax)) eqn:H3;
    [right; exists FMainMax; apply capacity_line_field; exact H3|].
  destruct (HasPrefix (TrimSpace line) (field_label FAltMax)) eqn:H4;
    [right; exists FAltMax; apply capacity_line_field; exact H4|].
  left. apply capacity_line_unmatched. intros f. destruct f; assumption.
Qed.




Lemma digit_plain (c : ascii) : is_digit c = true -> plain c = true.
Proof.
  intros H. apply is_digit_range in H. unfold plain, asciiSpace.
  apply andb_true_iff. split.
  - apply N.ltb_lt. lia.
  - apply negb_true_iff. apply orb_false_iff. split.
    + apply andb_false_iff. right. apply N.leb_gt. lia.
    + apply N.eqb_neq. lia.
Qed.

Lemma digit_not_byte (sep c : ascii) :
  is_digit sep = false -> is_digit c = true -> negb (byte_eqb c sep) = true.
Proof.
  intros Hs Hc. apply negb_true_iff.
  destruct (byte_eqb c sep) eqn:E; [|reflexivity].
  apply byte_eqb_eq in E. subst. congruence.
Qed.


(** ** What the joined error includes *)

Lemma includes_Join2 (a b : option error) (t : error) :
  includes (Join [a; b]) t = includes a t || includes b t.
Proof.
  destruct a as [x|], b as [y|]; unfold Join; cbn [non_nil includes Is existsb];
    destruct t; cbn [same_sentinel orb];
    rewrite ?orb_false_r; reflexivity.
Qed.

Lemma extractSgIntVal_error (s : gostring) (base v : Z) (e : error) :
  extractSgIntVal s base = (v, Some e) ->
  e = ErrSomeSgRelatedFieldsMissing \/ exists fn num k, e = NumError fn num k.
Proof.
  unfold extractSgIntVal. destruct (_ =? _)%nat.
  - intros H. inversion H. auto.
  - destruct (ParseInt _ base 64) as [w [e'|]] eqn:E; intros H; inversion H.
    subst. right. eapply ParseInt_error. exact E.
Qed.

Lemma parse_line_no_missing (line : gostring) (f : CapField) :
  includes (snd (parseSgLogsCapacityLine line (field_error f)))
    ErrSomeCapacityLogFieldsMissing = false.
Proof.
  unfold parseSgLogsCapacityLine.
  destruct (extractSgIntVal line 0) as [v [e|]] eqn:E; [|reflexivity].
  cbn [snd includes].
  destruct (extractSgIntVal_error _ _ _ _ E) as [He|[fn [num [k He]]]];
    subst e; destruct f; reflexivity.
Qed.

Lemma capacity_line_no_missing (line : gostring)
  (st : LtoTapeCapacityLog * option error) :
  includes (snd st) ErrSomeCapacityLogFieldsMissing = false ->
  includes (snd (capacity_line line st)) ErrSomeCapacityLogFieldsMissing
  = false.
Proof.
  intros H. destruct (capacity_line_cases line st) as [E|[f E]]; rewrite E.
  - exact H.
  - cbn [snd]. rewrite includes_Join2, H, parse_line_no_missing. reflexivity.
Qed.

Lemma fold_capacity_no_missing (lines : list gostring) :
  forall st,
    includes (snd st) ErrSomeCapacityLogFieldsMissing = false ->
    includes (snd (fold_left (fun st line => capacity_line line st) lines st))
      ErrSomeCapacityLogFieldsMissing = false.
Proof.
  induction lines as [|line lines IH]; intros st H; [exact H|].
  simpl. apply IH. apply capacity_line_no_missing. exact H.
Qed.

Lemma has_unknown_fields (capLog : LtoTapeCapacityLog) :
  has_unknown capLog
  = existsb (fun f => get_field f capLog =? UnknownCapacity) all_fields.
Proof.
  unfold has_unknown. cbn [existsb all_fields get_field].
  destruct (AlternatePartitionMax capLog =? UnknownCapacity),
    (AlternatePartitionRemaining capLog =? UnknownCapacity),
    (MainPartitionMax capLog =? UnknownCapacity),
    (MainPartitionRemaining capLog =? UnknownCapacity); reflexivity.
Qed.

Lemma parse_capacity_report_missing (cmdOut : gostring) :
  fst (parse_capacity_report cmdOut)
  = fst (fold_left (fun st line => capacity_line line st)
           (Split cmdOut "010") no_fields)
  /\ includes (snd (parse_capacity_report cmdOut))
       ErrSomeCapacityLogFieldsMissing
     = has_unknown (fst (parse_capacity_report cmdOut)).
Proof.
  unfold parse_capacity_report.
  pose proof (fold_capacity_no_missing (Split cmdOut "010") no_fields eq_refl)
    as H.
  fold no_fields.
  destruct (fold_left _ (Split cmdOut "010") no_fields) as [capLog errs].
  cbn [fst snd] in *.
  destruct (has_unknown capLog) eqn:U; cbn [fst snd].
  - split; [reflexivity|]. rewrite U, includes_Join2, H. reflexivity.
  - split; [reflexivity|]. rewrite U. exact H.
Qed.

(** ** The lines of [mt status] *)

Lemma scan_file_number_skip (pre rest : list gostring) :
  forallb (fun l => negb (HasPrefix (first_sub_field l) (str "File number")))
    pre = true ->
  scan_file_number (pre ++ rest) = scan_file_number rest.
Proof.
  induction pre as [|l pre IH]; intros H; [reflexivity|].
  cbn [forallb] in H. apply andb_true_iff in H. destruct H as [Hl Hp].
  apply negb_true_iff in Hl. unfold first_sub_field in Hl.
  cbn [app scan_file_number]. rewrite Hl. apply IH. exact Hp.
Qed.

Lemma digits_plain (ds : gostring) :
  forallb is_digit ds = true -> forallb plain ds = true.
Proof.
  intros H. rewrite forallb_forall in *. intros c Hc.
  apply digit_plain, H, Hc.
Qed.

Lemma digits_no_byte (sep : ascii) (ds : gostring) :
  is_digit sep = false -> forallb is_digit ds = true -> no_byte sep ds = true.
Proof.
  intros Hs H. unfold no_byte. rewrite forallb_forall in *. intros c Hc.
  apply (digit_not_byte sep c Hs), H, Hc.
Qed.

(** The first sub-field of a line that begins with the file number. *)
Lemma first_sub_field_file_number (lead ds rest : gostring) :
  forallb asciiSpace lead = true ->
  forallb is_digit ds = true -> ds <> [] ->
  (rest = [] \/ exists r, rest = ","%char :: r) ->
  first_sub_field (lead ++ str "File number=" ++ ds ++ rest)
  = str "File number=" ++ ds.
Proof.
  intros Hl Hd Hne Hrest. unfold first_sub_field.
  assert (Hno : no_byte "," (lead ++ str "File number=" ++ ds) = true).
  { unfold no_byte. rewrite !forallb_app.
    pose proof (spaces_no_byte "," lead eq_refl Hl) as H1.
    pose proof (digits_no_byte "," ds eq_refl Hd) as H2.
    unfold no_byte in *. rewrite H1, H2. reflexivity. }
  assert (Hfirst : nth 0 (Split (lead ++ str "File number=" ++ ds ++ rest) ",")
                     [] = lead ++ str "File number=" ++ ds).
  { destruct Hrest as [E|[r E]]; subst rest.
    - rewrite app_nil_r, Split_no_sep by exact Hno. reflexivity.
    - replace (lead ++ str "File number=" ++ ds ++ ","%char :: r)
        with ((lead ++ str "File number=" ++ ds) ++ ","%char :: r)
        by (repeat (rewrite <- app_assoc; cbn [app]); reflexivity).
      rewrite Split_app_sep by exact Hno. reflexivity. }
  rewrite Hfirst.
  pose proof (TrimSpace_core lead (str "File number=" ++ ds) [] Hl eq_refl)
    as H.
  rewrite last_app_nonempty in H by exact Hne.
  specialize (H (last_plain ds (digits_plain ds Hd) Hne)).
  rewrite !app_nil_r in H. exact H.
Qed.

Lemma scan_file_number_found (lead ds rest : gostring)
  (post : list gostring) :
  forallb asciiSpace lead = true ->
  canonical_decimal ds = true -> decimal_value ds < 2 ^ 64 ->
  (rest = [] \/ exists r, rest = ","%char :: r) ->
  scan_file_number ((lead ++ str "File number=" ++ ds ++ rest) :: post)
  = (decimal_value ds, None).
Proof.
  intros Hl Hc Hv Hrest.
  destruct (canonical_digits ds Hc) as [Hd Hne].
  pose proof (first_sub_field_file_number lead ds rest Hl Hd Hne Hrest) as HF.
  unfold first_sub_field in HF.
  cbn [scan_file_number]. rewrite HF.
  change (str "File number=" ++ ds) with (str "File number" ++ "="%char :: ds).
  rewrite HasPrefix_app.
  pose proof (extractMtUintVal_token (str "File number") [] ds [] 0
                eq_refl eq_refl (digits_plain ds Hd)
                (digits_no_byte "=" ds eq_refl Hd) Hne eq_refl eq_refl) as HE.
  rewrite app_nil_r in HE. cbn [app] in HE. rewrite HE.
  rewrite ReplaceAll_none by (apply digits_no_byte; [reflexivity|exact Hd]).
  rewrite (ParseUint_decimal ds Hc Hv). reflexivity.
Qed.

(** ** The first field of a value is always there *)

Lemma fields_from_not_nil (fuel : nat) :
  forall cur s, cur <> [] -> fields_from fuel cur s <> [].
Proof.
  induction fuel as [|fuel IH]; intros cur s Hc.
  - simpl. destruct cur; [congruence|discriminate].
  - cbn [fields_from]. destruct s as [|c r].
    + destruct cur; [congruence|discriminate].
    + destruct (skip_space (c :: r)).
      * destruct cur; [congruence|discriminate].
      * apply IH. discriminate.
Qed.

(** [strings.Fields(valStr)[0]] is in range wherever the package
    evaluates it: [valStr] is a trimmed string that is not empty. *)
Lemma Fields_trimmed_not_nil (s : gostring) :
  TrimSpace s <> [] -> Fields (TrimSpace s) <> [].
Proof.
  intros Hne.
  assert (Hskip : skip_space (TrimSpace s) = None).
  { unfold TrimSpace in *.
    pose proof (strip_fixed skip_space eq_refl skip_space_suffix s) as Hl.
    fold (TrimLeftSpace s) in Hl.
    destruct (TrimRightSpace_prefix (TrimLeftSpace s)) as [q Hq].
    destruct (skip_space (TrimRightSpace (TrimLeftSpace s))) as [x|] eqn:E;
      [|reflexivity].
    apply (skip_space_app _ _ q) in E. rewrite <- Hq in E. congruence. }
  unfold Fields. destruct (TrimSpace s) as [|c r]; [congruence|].
  cbn [fields_from]. rewrite Hskip. apply fields_from_not_nil. discriminate.
Qed.

(** [Fields] has fuel to spare: the fields found do not depend on it. *)
Lemma fields_from_fuel (n : nat) :
  forall (m : nat) (cur s : gostring),
    (length s < n)%nat -> (length s < m)%nat ->
    fields_from n cur s = fields_from m cur s.
Proof.
  induction n as [|n IH]; intros m cur s Hn Hm; [lia|].
  destruct m as [|m]; [lia|].
  cbn [fields_from]. destruct s as [|c r]; [reflexivity|].
  destruct (skip_space (c :: r)) as [r'|] eqn:E.
  - destruct (skip_space_suffix _ _ E) as [p [Hp Hs]].
    apply (f_equal (@length ascii)) in Hs. rewrite length_app in Hs.
    assert (0 < length p)%nat by (destruct p; [congruence | simpl; lia]).
    f_equal. apply IH; lia.
  - simpl in Hn, Hm. apply IH; lia.
Qed.

(** * The drive handle and the invocations it makes *)

Section GateFacts.

Variable run : Runner.
Variable device : LtoNoRewindTapeDrive.

Lemma ExecSgReadAttr_world (id : gostring) (w : World) :
  snd (ExecSgReadAttr run device id w)
  = record_inv (mkInvocation None (SgReadAttr device)
                  [str "-f"; id; DeviceFile device]) w.
Proof.
  unfold ExecSgReadAttr, getCmdOutput, bind, ret.
  destruct (snd (run _ _)); reflexivity.
Qed.

Lemma HasDataCartridge_world (w : World) :
  snd (HasDataCartridge run device w) = record_inv (probe_inv device) w.
Proof.
  unfold HasDataCartridge, bind.
  pose proof (ExecSgReadAttr_world (str "0x0408") w) as H.
  destruct (ExecSgReadAttr run device (str "0x0408") w) as [r w1].
  simpl in H. subst w1. unfold ret.
  destruct (snd r); [reflexivity|].
  destruct (ParseInt (fst r) 0 64) as [v [e|]]; reflexivity.
Qed.

Lemma HasDataCartridge_error_false (w : World) (b : bool) (e : error) :
  fst (HasDataCartridge run device w) = (b, Some e) -> b = false.
Proof.
  unfold HasDataCartridge, bind, ret.
  destruct (ExecSgReadAttr run device (str "0x0408") w) as [r w1].
  destruct (snd r).
  - simpl. congruence.
  - destruct (ParseInt (fst r) 0 64) as [v [e'|]]; simpl; congruence.
Qed.

Lemma ExecMtCmdCtx_eq (ctx : Context) (cmd : gostring) (args : list N)
  (w : World) :
  ExecMtCmdCtx run device ctx cmd args w
  = let r := fst (HasDataCartridge run device w) in
    let w1 := record_inv (probe_inv device) w in
    if gate_open r
    then (run (trace w1) (mt_inv device ctx cmd args),
          record_inv (mt_inv device ctx cmd args) w1)
    else (([], Some (gate_error r)), w1).
Proof.
  unfold ExecMtCmdCtx, bind.
  pose proof (HasDataCartridge_world w) as Hw.
  pose proof (HasDataCartridge_error_false w) as He.
  destruct (HasDataCartridge run device w) as [[b oe] w1].
  simpl in *. subst w1.
  destruct oe as [e|].
  - rewrite (He b e eq_refl). reflexivity.
  - destruct b; reflexivity.
Qed.

End GateFacts.

Lemma issued_app (w w' : World) (l : list Invocation) :
  trace w' = trace w ++ l -> issued w w' = l.
Proof.
  intros H. unfold issued. rewrite H.
  rewrite skipn_app, skipn_all, Nat.sub_diag. reflexivity.
Qed.

Lemma issued_record (inv : Invocation) (w : World) :
  issued w (record_inv inv w) = [inv].
Proof. apply issued_app. reflexivity. Qed.

Lemma issued_record2 (a b : Invocation) (w : World) :
  issued w (record_inv b (record_inv a w)) = [a; b].
Proof. apply issued_app. simpl. rewrite <- app_assoc. reflexivity. Qed.

Lemma PrevFileCtx_cases (run : Runner) (device : LtoNoRewindTapeDrive)
  (ctx : Context) (w : World) :
  let q := GetCurFileNumber run device w in
  match snd (fst q) with
  | Some e =>
      PrevFileCtx run device ctx w
      = (Some (Errorf2 ErrCanNotGoToPrevFile e), snd q)
  | None =>
      if (fst (fst q) =? 0) || (fst (fst q) =? 1)
      then PrevFileCtx run device ctx w = RewindCtx run device ctx (snd q)
      else
        let b := BSFCtx run device ctx 1 (snd q) in
        match fst b with
        | Some e =>
            PrevFileCtx run device ctx w
            = (Some (Errorf2 ErrCanNotGoToPrevFile e), snd b)
        | None =>
            let m := BSFMCtx run device ctx 1 (snd b) in
            PrevFileCtx run device ctx w
            = (match fst m with
               | Some e => Some (Errorf2 ErrCanNotGoToPrevFile e)
               | None => None
               end, snd m)
        end
  end.
Proof.
  cbv zeta. unfold PrevFileCtx, bind, ret.
  destruct (GetCurFileNumber run device w) as [[n oe] w1]. simpl.
  destruct oe as [e|]; [reflexivity|].
  destruct ((n =? 0) || (n =? 1)); [reflexivity|].
  destruct (BSFCtx run device ctx 1 w1) as [[e|] w2]; simpl; [reflexivity|].
  destruct (BSFMCtx run device ctx 1 w2) as [[e|] w3]; reflexivity.
Qed.

(** ** Which invocations an operation makes *)

Lemma grows_refl (P : Invocation -> Prop) (w : World) : grows P w w.
Proof. exists []. rewrite app_nil_r. auto. Qed.

Lemma grows_trans (P : Invocation -> Prop) (w1 w2 w3 : World) :
  grows P w1 w2 -> grows P w2 w3 -> grows P w1 w3.
Proof.
  intros [l1 [H1 F1]] [l2 [H2 F2]]. exists (l1 ++ l2). split.
  - rewrite H2, H1, app_assoc. reflexivity.
  - apply Forall_app; auto.
Qed.

Lemma grows_same_trace (P : Invocation -> Prop) (w w' : World) :
  trace w' = trace w -> grows P w w'.
Proof. intros H. exists []. rewrite app_nil_r. auto. Qed.

Lemma grows_record (P : Invocation -> Prop) (inv : Invocation) (w : World) :
  P inv -> grows P w (record_inv inv w).
Proof. intros H. exists [inv]. split; [reflexivity | auto]. Qed.

Lemma grows_weaken (P Q : Invocation -> Prop) (w w' : World) :
  (forall inv, P inv -> Q inv) -> grows P w w' -> grows Q w w'.
Proof.
  intros H [l [Ht Hl]]. exists l. split; [exact Ht|].
  eapply Forall_impl; eauto.
Qed.

Lemma grows_issued (P : Invocation -> Prop) (w w' : World) :
  grows P w w' -> Forall P (issued w w').
Proof. intros [l [Ht Hl]]. rewrite (issued_app _ _ _ Ht). exact Hl. Qed.

Section Traces.

Variable run : Runner.
Variable device : LtoNoRewindTapeDrive.

Lemma ExecMtCmdCtx_grows (ctx : Context) (cmd : gostring) (args : list N)
  (w : World) :
  grows (fun inv => inv = probe_inv device
                    \/ inv = mt_inv device ctx cmd args)
    w (snd (ExecMtCmdCtx run device ctx cmd args w)).
Proof.
  rewrite ExecMtCmdCtx_eq. cbv zeta.
  destruct (gate_open _); simpl.
  - eapply grows_trans; apply grows_record; auto.
  - apply grows_record; auto.
Qed.

Lemma primitiveCtx_eq (p : Primitive) (ctx : Context) (w : World) :
  primitiveCtx run device p ctx w
  = (snd (fst (ExecMtCmdCtx run device ctx (primitive_cmd p)
                 (primitive_args p) w)),
     snd (ExecMtCmdCtx run device ctx (primitive_cmd p)
            (primitive_args p) w)).
Proof.
  destruct p;
    cbv [primitiveCtx primitive_cmd primitive_args RewindCtx FSFCtx
         BSFCtx BSFMCtx WEOFCtx EraseCtx EjectCtx bind ret];
    destruct (ExecMtCmdCtx _ _ _ _ _ _); reflexivity.
Qed.

Lemma primitiveCtx_grows (p : Primitive) (ctx : Context) (w : World) :
  grows (fun inv => inv = probe_inv device
                    \/ inv = mt_inv device ctx (primitive_cmd p)
                               (primitive_args p))
    w (snd (primitiveCtx run device p ctx w)).
Proof. rewrite primitiveCtx_eq. simpl. apply ExecMtCmdCtx_grows. Qed.

Lemma ExecMtCmd_zero (cmd : gostring) (args : list N) (w : World) :
  ExecMtCmd run device 0 cmd args w
  = ExecMtCmdCtx run device Background cmd args w.
Proof. reflexivity. Qed.

Lemma GetCurFileNumber_world (w : World) :
  snd (GetCurFileNumber run device w)
  = snd (ExecMtCmdCtx run device Background (str "status") [] w).
Proof.
  unfold GetCurFileNumber, bind, ret. rewrite ExecMtCmd_zero.
  destruct (ExecMtCmdCtx _ _ _ _ _ _) as [[out [e|]] w1]; reflexivity.
Qed.


Lemma count_loop_grows (ctx : Context) (fuel : nat) :
  forall (cnt : Z) (w : World),
    grows (fun inv => inv = probe_inv device
                      \/ inv = mt_inv device ctx (str "rewind") []
                      \/ inv = mt_inv device ctx (str "fsf") [1%N])
      w (snd (count_loop run device fuel ctx cnt w)).
Proof.
  induction fuel as [|fuel IH]; intros cnt w; simpl.
  - apply grows_refl.
  - unfold bind, ret.
    pose proof (primitiveCtx_grows (PFSF 1) ctx w) as G. simpl in G.
    unfold NextFileCtx.
    destruct (FSFCtx run device ctx 1 w) as [[e|] w1]; simpl in *.
    + eapply grows_weaken; [|exact G]. simpl. intuition.
    + eapply grows_trans; [|apply IH].
      eapply grows_weaken; [|exact G]. simpl. intuition.
Qed.

Lemma CountFiles_grows (fuel : nat) (timeout : Z) (w : World) :
  grows (fun inv =>
           inv = probe_inv device
           \/ inv = mt_inv device (WithTimeout (ctx_next w) timeout)
                      (str "rewind") []
           \/ inv = mt_inv device (WithTimeout (ctx_next w) timeout)
                      (str "fsf") [1%N])
    w (snd (CountFiles run device fuel timeout w)).
Proof.
  unfold CountFiles, bind, ret, withTimeout.
  set (ctx := WithTimeout (ctx_next w) timeout).
  set (w1 := mkWorld (trace w) (S (ctx_next w)) (cancelled w)).
  set (P := fun inv => inv = probe_inv device
                       \/ inv = mt_inv device ctx (str "rewind") []
                       \/ inv = mt_inv device ctx (str "fsf") [1%N]).
  assert (R : forall v, grows P v (snd (RewindCtx run device ctx v))).
  { intros v. eapply grows_weaken; [|apply (primitiveCtx_grows PRewind)].
    subst P. simpl. intuition. }
  assert (G1 : grows P w w1) by (apply grows_same_trace; reflexivity).
  pose proof (R w1) as G2.
  destruct (RewindCtx run device ctx w1) as [[e|] w2]; simpl in G2.
  - pose proof (R w2) as G3.
    destruct (RewindCtx run device ctx w2) as [e3 w3]; simpl in *.
    eapply grows_trans; [exact G1|]. eapply grows_trans; [exact G2|].
    eapply grows_trans; [exact G3|]. apply grows_same_trace. reflexivity.
  - pose proof (count_loop_grows ctx fuel 0 w2) as G3. fold P in G3.
    destruct (count_loop run device fuel ctx 0 w2) as [[[cnt err]|] w3];
      simpl in G3.
    + pose proof (R w3) as G4.
      destruct (RewindCtx run device ctx w3) as [e4 w4]; simpl in *.
      eapply grows_trans; [exact G1|]. eapply grows_trans; [exact G2|].
      eapply grows_trans; [exact G3|]. eapply grows_trans; [exact G4|].
      apply grows_same_trace. reflexivity.
    + simpl. eapply grows_trans; [exact G1|].
      eapply grows_trans; [exact G2|]. exact G3.
Qed.

End Traces.

Section MoreTraces.

Variable run : Runner.
Variable device : LtoNoRewindTapeDrive.

Lemma HasDataCartridge_same_trace (w w' : World) :
  trace w = trace w' ->
  fst (HasDataCartridge run device w) = fst (HasDataCartridge run device w').
Proof.
  intros H.
  unfold HasDataCartridge, ExecSgReadAttr, getCmdOutput, bind, ret.
  rewrite H.
  destruct (snd (run (trace w') _)); simpl; [reflexivity|].
  destruct (snd (extractSgStrVal _)); simpl; [reflexivity|].
  destruct (ParseInt _ 0 64) as [v [e|]]; reflexivity.
Qed.

Lemma ExecMtCmdCtx_trace (ctx : Context) (cmd : gostring) (args : list N)
  (w : World) :
  trace (snd (ExecMtCmdCtx run device ctx cmd args w))
  = trace w
    ++ probe_inv device
       :: (if gate_open (fst (HasDataCartridge run device w))
           then [mt_inv device ctx cmd args] else []).
Proof.
  rewrite ExecMtCmdCtx_eq. cbv zeta.
  destruct (gate_open _); simpl; [|reflexivity].
  rewrite <- app_assoc. reflexivity.
Qed.

Lemma ExecMtCmdCtx_issued (ctx : Context) (cmd : gostring) (args : list N)
  (w : World) :
  issued w (snd (ExecMtCmdCtx run device ctx cmd args w))
  = probe_inv device
    :: (if gate_open (fst (HasDataCartridge run device w))
        then [mt_inv device ctx cmd args] else []).
Proof. apply issued_app, ExecMtCmdCtx_trace. Qed.

Lemma ExecMtCmdCtx_result (ctx : Context) (cmd : gostring) (args : list N)
  (w : World) :
  fst (ExecMtCmdCtx run device ctx cmd args w)
  = if gate_open (fst (HasDataCartridge run device w))
    then run (trace w ++ [probe_inv device]) (mt_inv device ctx cmd args)
    else ([], Some (gate_error (fst (HasDataCartridge run device w)))).
Proof.
  rewrite ExecMtCmdCtx_eq. cbv zeta. destruct (gate_open _); reflexivity.
Qed.

Lemma ChkDevice_eq (w : World) :
  ChkDevice run device w
  = (match snd (fst (ExecMtCmdCtx run device Background (str "status")
                       [] w)) with
     | Some err => Some (Errorf2 ErrDeviceCheckFailed err)
     | None => None
     end,
     snd (ExecMtCmdCtx run device Background (str "status") [] w)).
Proof.
  unfold ChkDevice, bind, ret. rewrite ExecMtCmd_zero.
  destruct (ExecMtCmdCtx _ _ _ _ _ _) as [[out [e|]] w1]; reflexivity.
Qed.

Lemma GetMediumSN_first (w : World) :
  hd_error (issued w (snd (GetMediumSN run device w)))
  = Some (probe_inv device).
Proof.
  unfold GetMediumSN, TryReadAttr, bind, ret.
  pose proof (HasDataCartridge_world run device w) as Hw.
  destruct (HasDataCartridge run device w) as [[b oe] w1].
  cbn [fst snd] in *. subst w1.
  destruct oe as [e|].
  - cbn [fst snd]. rewrite issued_record. reflexivity.
  - pose proof (ExecSgReadAttr_world run device (str "0x0401")
                  (record_inv (probe_inv device) w)) as Ha.
    destruct (ExecSgReadAttr run device (str "0x0401") _) as [[sn oe] w2].
    cbn [fst snd] in *. subst w2.
    destruct oe; cbn [fst snd]; rewrite issued_record2; reflexivity.
Qed.

End MoreTraces.

Section Counting.

Variable run : Runner.
Variable device : LtoNoRewindTapeDrive.

Lemma RewindCtx_eq (ctx : Context) (w : World) :
  RewindCtx run device ctx w
  = (snd (fst (ExecMtCmdCtx run device ctx (str "rewind") [] w)),
     snd (ExecMtCmdCtx run device ctx (str "rewind") [] w)).
Proof. apply (primitiveCtx_eq run device PRewind). Qed.

Lemma CountFiles_first_two (fuel : nat) (timeout : Z) (w : World) :
  firstn 2 (issued w (snd (CountFiles run device fuel timeout w)))
  = probe_inv device
    :: (if gate_open (fst (HasDataCartridge run device w))
        then [mt_inv device (WithTimeout (ctx_next w) timeout)
                (str "rewind") []]
        else [probe_inv device]).
Proof.
  unfold CountFiles, bind, ret, withTimeout.
  set (ctx := WithTimeout (ctx_next w) timeout).
  set (w1 := mkWorld (trace w) (S (ctx_next w)) (cancelled w)).
  assert (Hg : fst (HasDataCartridge run device w1)
               = fst (HasDataCartridge run device w))
    by (apply HasDataCartridge_same_trace; reflexivity).
  pose proof (ExecMtCmdCtx_trace run device ctx (str "rewind") [] w1) as T1.
  pose proof (ExecMtCmdCtx_result run device ctx (str "rewind") [] w1) as R1.
  rewrite Hg in T1, R1.
  rewrite (RewindCtx_eq ctx w1).
  destruct (ExecMtCmdCtx run device ctx (str "rewind") [] w1)
    as [[out oe] w2].
  cbn [fst snd] in *.
  destruct (gate_open (fst (HasDataCartridge run device w))) eqn:G.
  - (* the gate is open: the first rewind is invoked *)
    assert (Hpre : forall v, grows (fun _ => True) w2 v ->
              firstn 2 (issued w v)
              = [probe_inv device; mt_inv device ctx (str "rewind") []]).
    { intros v [l [Hv _]]. unfold issued. rewrite Hv, T1.
      change (trace w1) with (trace w).
      rewrite <- app_assoc, skipn_app, skipn_all, Nat.sub_diag.
      reflexivity. }
    destruct oe as [e|].
    + pose proof (primitiveCtx_grows run device PRewind ctx w2) as G3.
      simpl primitiveCtx in G3.
      destruct (RewindCtx run device ctx w2) as [e3 w3].
      cbn [fst snd] in *. apply Hpre.
      eapply grows_trans;
        [eapply grows_weaken; [|exact G3]; auto
        | apply grows_same_trace; reflexivity].
    + pose proof (count_loop_grows run device ctx fuel 0 w2) as G3.
      destruct (count_loop run device fuel ctx 0 w2)
        as [[[cnt err]|] w3]; cbn [fst snd] in *.
      * pose proof (primitiveCtx_grows run device PRewind ctx w3) as G4.
        simpl primitiveCtx in G4.
        destruct (RewindCtx run device ctx w3) as [e4 w4].
        cbn [fst snd] in *. apply Hpre.
        eapply grows_trans; [eapply grows_weaken; [|exact G3]; auto|].
        eapply grows_trans;
          [eapply grows_weaken; [|exact G4]; auto
          | apply grows_same_trace; reflexivity].
      * apply Hpre. eapply grows_weaken; [|exact G3]. auto.
  - (* the gate is closed: the loop is skipped, the final rewind probes *)
    inversion R1; subst out oe.
    pose proof (ExecMtCmdCtx_trace run device ctx (str "rewind") [] w2)
      as T3.
    rewrite (RewindCtx_eq ctx w2).
    destruct (ExecMtCmdCtx run device ctx (str "rewind") [] w2)
      as [[out3 oe3] w3].
    cbn [fst snd] in *.
    unfold issued. subst ctx. cbn [cancel fst snd trace]. rewrite T3, T1.
    change (trace w1) with (trace w).
    rewrite <- app_assoc, skipn_app, skipn_all, Nat.sub_diag.
    reflexivity.
Qed.

Lemma NextFileCtx_eq (ctx : Context) (w : World) :
  NextFileCtx run device ctx w = FSFCtx run device ctx 1 w.
Proof. reflexivity. Qed.

(** The loop counts the steps that succeed before the first failure. *)
Lemma count_loop_counts (ctx : Context) (e : error) (K : nat) :
  forall (fuel : nat) (cnt : Z) (w : World),
    (K < fuel)%nat ->
    0 <= cnt -> cnt + Z.of_nat K < 2 ^ 64 ->
    (forall i, (i < K)%nat ->
       fst (NextFileCtx run device ctx (steps_forward run device ctx i w))
       = None) ->
    fst (NextFileCtx run device ctx (steps_forward run device ctx K w))
    = Some e ->
    count_loop run device fuel ctx cnt w
    = (Some (cnt + Z.of_nat K, Some e),
       snd (NextFileCtx run device ctx
              (steps_forward run device ctx K w))).
Proof.
  induction K as [|K IH]; intros fuel cnt w Hf Hc Hb Hok Hfail.
  - destruct fuel as [|fuel]; [lia|].
    simpl in *. unfold bind, ret.
    destruct (NextFileCtx run device ctx w) as [oe w1].
    simpl in Hfail. subst oe. simpl.
    rewrite Z.add_0_r. reflexivity.
  - destruct fuel as [|fuel]; [lia|].
    pose proof (Hok 0%nat ltac:(lia)) as H0. simpl in H0.
    cbn [count_loop steps_forward]. unfold bind.
    cbn [steps_forward] in Hfail.
    destruct (NextFileCtx run device ctx w) as [oe w1] eqn:E.
    simpl in H0. subst oe. cbn [snd] in *.
    rewrite (IH fuel ((cnt + 1) mod 2 ^ 64) w1).
    + rewrite Z.mod_small by lia.
      replace (cnt + 1 + Z.of_nat K) with (cnt + Z.of_nat (S K)) by lia.
      reflexivity.
    + lia.
    + apply Z.mod_pos_bound. lia.
    + rewrite Z.mod_small by lia. lia.
    + intros i Hi. specialize (Hok (S i) ltac:(lia)).
      cbn [steps_forward] in Hok. rewrite E in Hok. exact Hok.
    + exact Hfail.
Qed.

End Counting.

Section FirstRewind.

Variable run : Runner.
Variable device : LtoNoRewindTapeDrive.

(** When the first rewind fails the loop is not entered; the final
    rewind is attempted all the same and both errors are joined. *)
Lemma CountFiles_first_rewind_fails (fuel : nat) (timeout : Z) (w : World)
  (e : error) :
  let ctx := WithTimeout (ctx_next w) timeout in
  let first := RewindCtx run device ctx (snd (withTimeout timeout w)) in
  let final := RewindCtx run device ctx (snd first) in
  fst first = Some e ->
  CountFiles run device fuel timeout w
  = (Some (0, Join [Some e; fst final]), snd (cancel ctx (snd final))).
Proof.
  intros ctx first final He.
  unfold CountFiles at 1. unfold bind at 1.
  change (withTimeout timeout w) with (ctx, snd (withTimeout timeout w)).
  unfold bind at 1. subst final. revert He. subst first.
  destruct (RewindCtx run device ctx (snd (withTimeout timeout w)))
    as [oe w1].
  cbn [fst snd]. intros He. subst oe.
  unfold bind, ret.
  destruct (RewindCtx run device ctx w1) as [e2 w2]. cbn [fst snd].
  destruct (cancel ctx w2). reflexivity.
Qed.

End FirstRewind.

Section Discovery.

Variable run : Runner.

Lemma probe_loop_first (ctx : Context) (parm : gostring) (onFail : error)
  (l : list gostring) :
  forall (w : World) (n : nat),
    (n <= length l)%nat ->
    (forall k, (k < n)%nat ->
       resolves run
         (trace w ++ map (fun p => util_inv ctx p parm) (firstn k l))
         ctx (nth k l []) parm = false) ->
    ((n < length l)%nat ->
     resolves run
       (trace w ++ map (fun p => util_inv ctx p parm) (firstn n l))
       ctx (nth n l []) parm = true) ->
    fst (probe_loop run ctx l parm onFail w)
    = (if (n <? length l)%nat then (nth n l [], None)
       else ([], Some onFail))
    /\ trace (snd (probe_loop run ctx l parm onFail w))
       = trace w ++ map (fun p => util_inv ctx p parm) (firstn (S n) l).
Proof.
  induction l as [|p rest IH]; intros w n Hn Hno Hyes.
  - simpl in Hn. assert (n = 0)%nat by lia. subst n. simpl.
    rewrite app_nil_r. auto.
  - cbn [probe_loop]. unfold bind, getCmdOutputCtx.
    destruct n as [|n].
    + specialize (Hyes ltac:(simpl; lia)). simpl in Hyes.
      rewrite app_nil_r in Hyes. unfold resolves, util_inv in Hyes.
      cbn [snd fst] in *.
      destruct (snd (run (trace w) (mkInvocation (Some ctx) p [parm])))
        as [e|].
      * rewrite Hyes. simpl. auto.
      * simpl. auto.
    + pose proof (Hno 0%nat ltac:(lia)) as H0. simpl in H0.
      rewrite app_nil_r in H0. unfold resolves, util_inv in H0.
      cbn [snd fst] in *.
      destruct (snd (run (trace w) (mkInvocation (Some ctx) p [parm])))
        as [e|]; [|discriminate].
      rewrite H0.
      destruct (IH (record_inv (mkInvocation (Some ctx) p [parm]) w) n)
        as [Hr Ht].
      * simpl in Hn. lia.
      * intros k Hk. specialize (Hno (S k) ltac:(lia)).
        simpl in Hno. simpl. rewrite <- app_assoc. exact Hno.
      * intros Hlt. specialize (Hyes ltac:(simpl; lia)).
        simpl in Hyes. simpl. rewrite <- app_assoc. exact Hyes.
      * split.
        -- rewrite Hr. simpl length.
           change (S n <? S (length rest))%nat with (n <? length rest)%nat.
           reflexivity.
        -- rewrite Ht. simpl. rewrite <- app_assoc. reflexivity.
Qed.

End Discovery.

(** ** Contexts are made once and cancelled *)

Section ContextFacts.

Variable run : Runner.
Variable device : LtoNoRewindTapeDrive.

Lemma ExecMtCmdCtx_keeps (ctx : Context) (cmd : gostring) (args : list N)
  (w : World) :
  ctx_next (snd (ExecMtCmdCtx run device ctx cmd args w)) = ctx_next w
  /\ cancelled (snd (ExecMtCmdCtx run device ctx cmd args w)) = cancelled w.
Proof.
  rewrite ExecMtCmdCtx_eq. cbv zeta. destruct (gate_open _); split; reflexivity.
Qed.

Lemma primitiveCtx_keeps (p : Primitive) (ctx : Context) (w : World) :
  ctx_next (snd (primitiveCtx run device p ctx w)) = ctx_next w
  /\ cancelled (snd (primitiveCtx run device p ctx w)) = cancelled w.
Proof. rewrite primitiveCtx_eq. cbn [snd]. apply ExecMtCmdCtx_keeps. Qed.

Lemma GetCurFileNumber_keeps (w : World) :
  ctx_next (snd (GetCurFileNumber run device w)) = ctx_next w
  /\ cancelled (snd (GetCurFileNumber run device w)) = cancelled w.
Proof. rewrite GetCurFileNumber_world. apply ExecMtCmdCtx_keeps. Qed.

Lemma PrevFileCtx_keeps (ctx : Context) (w : World) :
  ctx_next (snd (PrevFileCtx run device ctx w)) = ctx_next w
  /\ cancelled (snd (PrevFileCtx run device ctx w)) = cancelled w.
Proof.
  pose proof (PrevFileCtx_cases run device ctx w) as H. cbv zeta in H.
  pose proof (GetCurFileNumber_keeps w) as [Q1 Q2].
  destruct (snd (fst (GetCurFileNumber run device w))) as [e|].
  { rewrite H. cbn [snd]. auto. }
  destruct ((fst (fst (GetCurFileNumber run device w)) =? 0)
            || (fst (fst (GetCurFileNumber run device w)) =? 1)).
  { rewrite H.
    destruct (primitiveCtx_keeps PRewind ctx
                (snd (GetCurFileNumber run device w))) as [R1 R2].
    cbn [primitiveCtx] in R1, R2. rewrite R1, R2. auto. }
  destruct (primitiveCtx_keeps (PBSF 1) ctx
              (snd (GetCurFileNumber run device w))) as [B1 B2].
  cbn [primitiveCtx] in B1, B2.
  destruct (fst (BSFCtx run device ctx 1
                   (snd (GetCurFileNumber run device w)))) as [e|].
  { rewrite H. cbn [snd]. rewrite B1, B2. auto. }
  rewrite H. cbn [snd].
  destruct (primitiveCtx_keeps (PBSFM 1) ctx
              (snd (BSFCtx run device ctx 1
                      (snd (GetCurFileNumber run device w))))) as [M1 M2].
  cbn [primitiveCtx] in M1, M2. rewrite M1, M2, B1, B2. auto.
Qed.

Lemma ExecMtCmd_eq (timeout : Z) (cmd : gostring) (args : list N)
  (w : World) :
  issued w (snd (ExecMtCmd run device timeout cmd args w))
  = probe_inv device
    :: (if gate_open (fst (HasDataCartridge run device w))
        then [mt_inv device (timeout_ctx timeout w) cmd args] else [])
  /\ ctx_next (snd (ExecMtCmd run device timeout cmd args w))
     = (if timeout =? 0 then ctx_next w else S (ctx_next w))
  /\ cancelled (snd (ExecMtCmd run device timeout cmd args w))
     = (if timeout =? 0 then cancelled w else ctx_next w :: cancelled w).
Proof.
  unfold ExecMtCmd, timeout_ctx. destruct (timeout =? 0).
  - split; [apply ExecMtCmdCtx_issued|apply ExecMtCmdCtx_keeps].
  - unfold bind, ret.
    change (withTimeout timeout w)
      with (WithTimeout (ctx_next w) timeout,
            mkWorld (trace w) (S (ctx_next w)) (cancelled w)).
    pose proof (ExecMtCmdCtx_trace run device (WithTimeout (ctx_next w) timeout)
                  cmd args (mkWorld (trace w) (S (ctx_next w)) (cancelled w)))
      as T.
    pose proof (ExecMtCmdCtx_keeps (WithTimeout (ctx_next w) timeout)
                  cmd args (mkWorld (trace w) (S (ctx_next w)) (cancelled w)))
      as [K1 K2].
    rewrite (HasDataCartridge_same_trace run device
               (mkWorld (trace w) (S (ctx_next w)) (cancelled w)) w eq_refl)
      in T.
    destruct (ExecMtCmdCtx run device _ cmd args _) as [r w1].
    cbn [fst snd cancel trace ctx_next cancelled] in *.
    split; [apply issued_app; exact T|]. rewrite K1, K2. auto.
Qed.

Lemma primitiveTimeout_eq (p : Primitive) (timeout : Z) (w : World) :
  primitiveTimeout run device p timeout w
  = (snd (fst (ExecMtCmd run device timeout (primitive_cmd p)
                 (primitive_args p) w)),
     snd (ExecMtCmd run device timeout (primitive_cmd p)
            (primitive_args p) w)).
Proof.
  destruct p;
    cbv [primitiveTimeout primitive_cmd primitive_args Rewind FSF BSF BSFM
         WEOF Erase Eject bind ret];
    destruct (ExecMtCmd _ _ _ _ _ _); reflexivity.
Qed.

Lemma NextFile_eq (timeout : Z) (w : World) :
  snd (NextFile run device timeout w)
  = snd (ExecMtCmd run device timeout (str "fsf") [1%N] w).
Proof.
  unfold NextFile, ExecMtCmd, NextFileCtx, FSFCtx.
  destruct (timeout =? 0).
  - unfold bind, ret. destruct (ExecMtCmdCtx _ _ _ _ _ _). reflexivity.
  - unfold bind, ret. destruct (withTimeout timeout w) as [ctx w1].
    destruct (ExecMtCmdCtx _ _ _ _ _ _) as [r w2]. cbn [fst snd].
    destruct (cancel ctx w2). reflexivity.
Qed.


End ContextFacts.

(** ** The invocations of the gated commands, one by one *)

Section GatedSteps.

Variable run : Runner.
Variable device : LtoNoRewindTapeDrive.

Lemma probe_after_trace (w : World) :
  fst (HasDataCartridge run device w) = probe_after run device (trace w).
Proof. apply HasDataCartridge_same_trace. reflexivity. Qed.

Lemma primitiveCtx_gated (p : Primitive) (ctx : Context) (w : World) :
  fst (primitiveCtx run device p ctx w)
  = gated_outcome run device ctx (primitive_cmd p) (primitive_args p)
      (trace w)
  /\ trace (snd (primitiveCtx run device p ctx w))
     = trace w
       ++ gated_invocations run device ctx (primitive_cmd p)
            (primitive_args p) (trace w).
Proof.
  rewrite primitiveCtx_eq. cbn [fst snd].
  rewrite ExecMtCmdCtx_result, ExecMtCmdCtx_trace, probe_after_trace.
  unfold gated_outcome, gated_invocations.
  destruct (gate_open (probe_after run device (trace w))); auto.
Qed.

Lemma gated_outcome_nil (ctx : Context) (cmd : gostring) (args : list N)
  (tr : list Invocation) :
  gated_outcome run device ctx cmd args tr = None ->
  gated_invocations run device ctx cmd args tr
  = [probe_inv device; mt_inv device ctx cmd args].
Proof.
  unfold gated_outcome, gated_invocations.
  destruct (gate_open (probe_after run device tr)); [reflexivity|discriminate].
Qed.

Lemma GetCurFileNumber_trace (w : World) :
  trace (snd (GetCurFileNumber run device w))
  = trace w
    ++ gated_invocations run device Background (str "status") [] (trace w).
Proof.
  rewrite GetCurFileNumber_world, ExecMtCmdCtx_trace, probe_after_trace.
  reflexivity.
Qed.

(** [PrevFileCtx], invocation by invocation. *)
Lemma PrevFileCtx_exact (ctx : Context) (w : World) :
  let q := fst (GetCurFileNumber run device w) in
  let query := gated_invocations run device Background (str "status") []
                 (trace w) in
  let t1 := trace w ++ query in
  let rewind := gated_invocations run device ctx (str "rewind") [] t1 in
  let bsf := gated_invocations run device ctx (str "bsf") [1%N] t1 in
  let bsfm := gated_invocations run device ctx (str "bsfm") [1%N]
                (t1 ++ bsf) in
  let r := PrevFileCtx run device ctx w in
  match snd q with
  | Some e =>
      fst r = Some (Errorf2 ErrCanNotGoToPrevFile e)
      /\ issued w (snd r) = query
  | None =>
      if (fst q =? 0) || (fst q =? 1)
      then fst r = gated_outcome run device ctx (str "rewind") [] t1
           /\ issued w (snd r) = query ++ rewind
      else
        match gated_outcome run device ctx (str "bsf") [1%N] t1 with
        | Some e =>
            fst r = Some (Errorf2 ErrCanNotGoToPrevFile e)
            /\ issued w (snd r) = query ++ bsf
        | None =>
            fst r
            = match gated_outcome run device ctx (str "bsfm") [1%N]
                      (t1 ++ bsf) with
              | Some e => Some (Errorf2 ErrCanNotGoToPrevFile e)
              | None => None
              end
            /\ issued w (snd r) = query ++ bsf ++ bsfm
        end
  end.
Proof.
  cbv zeta.
  pose proof (PrevFileCtx_cases run device ctx w) as H. cbv zeta in H.
  pose proof (GetCurFileNumber_trace w) as T1.
  destruct (snd (fst (GetCurFileNumber run device w))) as [e|].
  { rewrite H. cbn [fst snd]. split; [reflexivity|].
    apply issued_app. exact T1. }
  destruct ((fst (fst (GetCurFileNumber run device w)) =? 0)
            || (fst (fst (GetCurFileNumber run device w)) =? 1)).
  { rewrite H.
    destruct (primitiveCtx_gated PRewind ctx
                (snd (GetCurFileNumber run device w))) as [R T].
    cbn [primitiveCtx primitive_cmd primitive_args] in R, T.
    rewrite T1 in R, T. split; [exact R|].
    apply issued_app. rewrite T, app_assoc. reflexivity. }
  destruct (primitiveCtx_gated (PBSF 1) ctx
              (snd (GetCurFileNumber run device w))) as [R T].
  cbn [primitiveCtx primitive_cmd primitive_args] in R, T.
  rewrite T1 in R, T. rewrite <- R.
  destruct (fst (BSFCtx run device ctx 1
                   (snd (GetCurFileNumber run device w)))) as [e|].
  { rewrite H. cbn [fst snd]. split; [reflexivity|].
    apply issued_app. rewrite T, app_assoc. reflexivity. }
  rewrite H. cbn [fst snd].
  destruct (primitiveCtx_gated (PBSFM 1) ctx
              (snd (BSFCtx run device ctx 1
                      (snd (GetCurFileNumber run device w))))) as [R2 T2].
  cbn [primitiveCtx primitive_cmd primitive_args] in R2, T2.
  rewrite T in R2, T2. rewrite <- R2. split; [reflexivity|].
  apply issued_app. rewrite T2, <- !app_assoc. reflexivity.
Qed.

(** The invocations of [K] steps forward that all succeed. *)
Lemma steps_forward_trace (ctx : Context) (K : nat) :
  forall w : World,
    (forall i, (i < K)%nat ->
       fst (NextFileCtx run device ctx (steps_forward run device ctx i w))
       = None) ->
    trace (steps_forward run device ctx K w)
    = trace w
      ++ concat (repeat [probe_inv device;
                         mt_inv device ctx (str "fsf") [1%N]] K).
Proof.
  induction K as [|K IH]; intros w H.
  - cbn [steps_forward repeat concat]. rewrite app_nil_r. reflexivity.
  - cbn [steps_forward repeat concat].
    rewrite IH.
    + destruct (primitiveCtx_gated (PFSF 1) ctx w) as [R T].
      cbn [primitiveCtx primitive_cmd primitive_args] in R, T.
      change (FSFCtx run device ctx 1 w) with (NextFileCtx run device ctx w)
        in R, T.
      pose proof (H 0%nat ltac:(lia)) as H0. cbn [steps_forward] in H0.
      rewrite H0 in R. symmetry in R. apply gated_outcome_nil in R.
      rewrite T, R, <- app_assoc. reflexivity.
    + intros i Hi. apply (H (S i)). lia.
Qed.

(** [CountFiles], invocation by invocation. *)
Lemma CountFiles_exact (timeout : Z) (w : World) (K : nat) (e : error)
  (fuel : nat) :
  let ctx := WithTimeout (ctx_next w) timeout in
  let w1 := snd (RewindCtx run device ctx (snd (withTimeout timeout w))) in
  let wK := steps_forward run device ctx K w1 in
  let body := [probe_inv device; mt_inv device ctx (str "rewind") []]
              ++ concat (repeat [probe_inv device;
                                 mt_inv device ctx (str "fsf") [1%N]] K) in
  let last_step := gated_invocations run device ctx (str "fsf") [1%N]
                     (trace w ++ body) in
  fst (RewindCtx run device ctx (snd (withTimeout timeout w))) = None ->
  (forall i, (i < K)%nat ->
     fst (NextFileCtx run device ctx (steps_forward run device ctx i w1))
     = None) ->
  fst (NextFileCtx run device ctx wK) = Some e ->
  Z.of_nat K < 2 ^ 64 ->
  (K < fuel)%nat ->
  issued w (snd (CountFiles run device fuel timeout w))
  = body ++ last_step
    ++ gated_invocations run device ctx (str "rewind") []
         (trace w ++ body ++ last_step)
  /\ gated_outcome run device ctx (str "fsf") [1%N] (trace w ++ body)
     = Some e
  /\ fst (CountFiles run device fuel timeout w)
     = Some (Z.of_nat K,
             Join [Some e;
                   gated_outcome run device ctx (str "rewind") []
                     (trace w ++ body ++ last_step)])
  /\ cancelled (snd (CountFiles run device fuel timeout w))
     = ctx_next w :: cancelled w.
Proof.
  intros ctx w1 wK body last_step Hrew Hok Hfail HK Hfuel.
  assert (Heq : CountFiles run device fuel timeout w
                = (Some (Z.of_nat K,
                         Join [Some e;
                               fst (RewindCtx run device ctx
                                      (snd (NextFileCtx run device ctx wK)))]),
                   snd (cancel ctx
                          (snd (RewindCtx run device ctx
                                  (snd (NextFileCtx run device ctx wK))))))).
  { unfold CountFiles at 1. unfold bind at 1.
    change (withTimeout timeout w) with (ctx, snd (withTimeout timeout w)).
    unfold bind at 1.
    subst wK w1. revert Hrew Hok Hfail.
    destruct (RewindCtx run device ctx (snd (withTimeout timeout w)))
      as [oe w1].
    cbn [fst snd]. intros Hrew Hok Hfail. subst oe.
    unfold bind at 1.
    rewrite (count_loop_counts run device ctx e K fuel 0 w1 Hfuel
               (Z.le_refl 0) HK Hok Hfail).
    unfold bind, ret.
    destruct (RewindCtx run device ctx _) as [e4 w4]. cbn [fst snd].
    destruct (cancel ctx w4). reflexivity. }
  (* the first rewind *)
  destruct (primitiveCtx_gated PRewind ctx (snd (withTimeout timeout w)))
    as [R0 T0].
  cbn [primitiveCtx primitive_cmd primitive_args] in R0, T0.
  change (trace (snd (withTimeout timeout w))) with (trace w) in R0, T0.
  rewrite Hrew in R0. symmetry in R0. apply gated_outcome_nil in R0.
  rewrite R0 in T0. fold w1 in T0.
  (* the steps that succeed *)
  pose proof (steps_forward_trace ctx K w1 Hok) as TK. fold wK in TK.
  rewrite T0, <- app_assoc in TK. fold body in TK.
  (* the step that fails *)
  destruct (primitiveCtx_gated (PFSF 1) ctx wK) as [RF TF].
  cbn [primitiveCtx primitive_cmd primitive_args] in RF, TF.
  change (FSFCtx run device ctx 1 wK) with (NextFileCtx run device ctx wK)
    in RF, TF.
  rewrite TK in RF, TF. fold last_step in TF.
  (* the final rewind *)
  destruct (primitiveCtx_gated PRewind ctx
              (snd (NextFileCtx run device ctx wK))) as [RR TR].
  cbn [primitiveCtx primitive_cmd primitive_args] in RR, TR.
  rewrite TF in RR, TR. rewrite <- app_assoc in RR.
  assert (HcR : forall c v,
             cancelled (snd (RewindCtx run device c v)) = cancelled v)
    by (intros c v; apply (primitiveCtx_keeps run device PRewind)).
  assert (HcF : forall c v,
             cancelled (snd (NextFileCtx run device c v)) = cancelled v)
    by (intros c v; apply (primitiveCtx_keeps run device (PFSF 1))).
  assert (Hs : forall n v,
             cancelled (steps_forward run device ctx n v) = cancelled v).
  { intros n. induction n as [|n IH]; intros v; [reflexivity|].
    cbn [steps_forward]. rewrite IH. apply HcF. }
  split; [|split; [|split]].
  - rewrite Heq. cbn [snd]. apply issued_app.
    subst ctx. cbn [cancel snd trace]. rewrite TR, <- !app_assoc.
    reflexivity.
  - rewrite <- RF. exact Hfail.
  - rewrite Heq. cbn [fst]. rewrite RR. reflexivity.
  - rewrite Heq. subst ctx. cbn [snd cancel cancelled].
    rewrite HcR, HcF. subst wK. rewrite Hs.
    subst w1. rewrite HcR. reflexivity.
Qed.

(** The operations that start with the probe. *)
Lemma hd_firstn2 (A : Type) (l : list A) (a : A) (r : list A) :
  firstn 2 l = a :: r -> hd_error l = Some a.
Proof. destruct l as [|x [|y l]]; simpl; intros H; inversion H; auto. Qed.

Lemma probe_first :
  (forall w timeout cmd args,
      hd_error (issued w (snd (ExecMtCmd run device timeout cmd args w)))
      = Some (probe_inv device))
  /\ (forall w p timeout,
        hd_error (issued w (snd (primitiveTimeout run device p timeout w)))
        = Some (probe_inv device))
  /\ (forall w ctx,
        hd_error (issued w (snd (NextFileCtx run device ctx w)))
        = Some (probe_inv device))
  /\ (forall w timeout,
        hd_error (issued w (snd (NextFile run device timeout w)))
        = Some (probe_inv device))
  /\ (forall w,
        hd_error (issued w (snd (GetCurFileNumber run device w)))
        = Some (probe_inv device))
  /\ (forall w ctx,
        hd_error (issued w (snd (PrevFileCtx run device ctx w)))
        = Some (probe_inv device))
  /\ (forall w timeout,
        hd_error (issued w (snd (PrevFile run device timeout w)))
        = Some (probe_inv device))
  /\ (forall w fuel timeout,
        hd_error (issued w (snd (CountFiles run device fuel timeout w)))
        = Some (probe_inv device)).
Proof.
  assert (HE : forall w timeout cmd args,
             hd_error (issued w (snd (ExecMtCmd run device timeout cmd args w)))
             = Some (probe_inv device)).
  { intros w timeout cmd args.
    destruct (ExecMtCmd_eq run device timeout cmd args w) as [H _].
    rewrite H. reflexivity. }
  assert (HP : forall w ctx,
             hd_error (issued w (snd (PrevFileCtx run device ctx w)))
             = Some (probe_inv device)).
  { intros w ctx. pose proof (PrevFileCtx_exact ctx w) as H. cbv zeta in H.
    destruct (snd (fst (GetCurFileNumber run device w))).
    - destruct H as [_ H]. rewrite H. reflexivity.
    - destruct ((fst (fst (GetCurFileNumber run device w)) =? 0)
                || (fst (fst (GetCurFileNumber run device w)) =? 1)).
      + destruct H as [_ H]. rewrite H. reflexivity.
      + destruct (gated_outcome run device ctx (str "bsf") [1%N] _);
          destruct H as [_ H]; rewrite H; reflexivity. }
  repeat split.
  - exact HE.
  - intros w p timeout. rewrite primitiveTimeout_eq. cbn [snd]. apply HE.
  - intros w ctx.
    change (NextFileCtx run device ctx w)
      with (primitiveCtx run device (PFSF 1) ctx w).
    rewrite primitiveCtx_eq. cbn [snd]. rewrite ExecMtCmdCtx_issued.
    reflexivity.
  - intros w timeout. rewrite NextFile_eq. apply HE.
  - intros w. rewrite GetCurFileNumber_world, ExecMtCmdCtx_issued.
    reflexivity.
  - exact HP.
  - intros w timeout. unfold PrevFile. destruct (timeout =? 0); [apply HP|].
    unfold bind, ret.
    change (withTimeout timeout w)
      with (WithTimeout (ctx_next w) timeout,
            mkWorld (trace w) (S (ctx_next w)) (cancelled w)).
    cbv beta iota.
    pose proof (HP (mkWorld (trace w) (S (ctx_next w)) (cancelled w))
                  (WithTimeout (ctx_next w) timeout)) as H.
    destruct (PrevFileCtx run device _ _) as [r w1].
    unfold cancel, issued in *. cbn [fst snd trace] in *. exact H.
  - intros w fuel timeout.
    eapply hd_firstn2. apply CountFiles_first_two.
Qed.

End GatedSteps.

(** ** The line that decides the file number *)

Lemma first_sub_field_body (lead body sp rest : gostring) :
  forallb asciiSpace lead = true ->
  plain (hd " "%char body) = true -> plain (last body " "%char) = true ->
  no_byte "," body = true ->
  forallb asciiSpace sp = true ->
  (rest = [] \/ exists r, rest = ","%char :: r) ->
  first_sub_field (lead ++ body ++ sp ++ rest) = body.
Proof.
  intros Hl Hh Ht Hb Hs Hrest. unfold first_sub_field.
  assert (Hno : no_byte "," (lead ++ body ++ sp) = true).
  { unfold no_byte. rewrite !forallb_app.
    pose proof (spaces_no_byte "," lead eq_refl Hl) as H1.
    pose proof (spaces_no_byte "," sp eq_refl Hs) as H2.
    unfold no_byte in *. rewrite H1, H2, Hb. reflexivity. }
  assert (Hfirst : nth 0 (Split (lead ++ body ++ sp ++ rest) ",") []
                   = lead ++ body ++ sp).
  { destruct Hrest as [E|[r E]]; subst rest.
    - rewrite app_nil_r, Split_no_sep by exact Hno. reflexivity.
    - replace (lead ++ body ++ sp ++ ","%char :: r)
        with ((lead ++ body ++ sp) ++ ","%char :: r)
        by (rewrite <- !app_assoc; reflexivity).
      rewrite Split_app_sep by exact Hno. reflexivity. }
  rewrite Hfirst, (TrimSpace_core lead body sp Hl Hh Ht).
  rewrite TrimRightSpace_spaces by exact Hs. apply app_nil_r.
Qed.

Lemma scan_file_number_first (line : gostring) (post : list gostring) :
  HasPrefix (first_sub_field line) (str "File number") = true ->
  scan_file_number (line :: post)
  = match extractMtUintVal (first_sub_field line) 0 with
    | (v, None) => (v, None)
    | (_, Some e) => (0, Some (Errorf2 ErrMtOutputParseFailed e))
    end.
Proof.
  unfold first_sub_field. intros H. cbn [scan_file_number]. rewrite H.
  destruct (extractMtUintVal _ 0) as [v [e|]]; reflexivity.
Qed.

Lemma scan_file_number_token (lead sp0 tok sp rest : gostring)
  (post : list gostring) :
  forallb asciiSpace lead = true -> forallb asciiSpace sp0 = true ->
  forallb plain tok = true -> tok <> [] ->
  no_byte "=" tok = true -> no_byte "," tok = true ->
  forallb asciiSpace sp = true ->
  (rest = [] \/ exists r, rest = ","%char :: r) ->
  scan_file_number
    ((lead ++ str "File number=" ++ sp0 ++ tok ++ sp ++ rest) :: post)
  = match ParseUint tok 0 64 with
    | (v, None) => (v, None)
    | (_, Some e) => (0, Some (Errorf2 ErrMtOutputParseFailed e))
    end.
Proof.
  intros Hl H0 Hp Hne He Hc Hs Hrest.
  assert (HF : first_sub_field
                 (lead ++ str "File number=" ++ sp0 ++ tok ++ sp ++ rest)
               = str "File number=" ++ sp0 ++ tok).
  { replace (lead ++ str "File number=" ++ sp0 ++ tok ++ sp ++ rest)
      with (lead ++ (str "File number=" ++ sp0 ++ tok) ++ sp ++ rest)
      by (repeat (rewrite <- app_assoc; cbn [app]); reflexivity).
    apply first_sub_field_body; try assumption.
    - reflexivity.
    - rewrite app_assoc, last_app_nonempty by exact Hne.
      apply last_plain; assumption.
    - unfold no_byte. rewrite !forallb_app.
      pose proof (spaces_no_byte "," sp0 eq_refl H0) as H1.
      unfold no_byte in *. rewrite H1, Hc. reflexivity. }
  rewrite scan_file_number_first; rewrite HF.
  - change (str "File number=" ++ sp0 ++ tok)
      with (str "File number" ++ "="%char :: sp0 ++ tok).
    pose proof (extractMtUintVal_token (str "File number") sp0 tok [] 0
                  eq_refl H0 Hp He Hne eq_refl eq_refl) as HE.
    rewrite app_nil_r in HE. rewrite HE.
    rewrite ReplaceAll_none by exact Hc.
    destruct (ParseUint tok 0 64) as [v [e|]]; reflexivity.
  - change (str "File number=" ++ sp0 ++ tok)
      with (str "File number" ++ "="%char :: sp0 ++ tok).
    apply HasPrefix_app.
Qed.

Lemma scan_file_number_no_value (lead sp rest : gostring)
  (post : list gostring) :
  forallb asciiSpace lead = true -> forallb asciiSpace sp = true ->
  (rest = [] \/ exists r, rest = ","%char :: r) ->
  scan_file_number ((lead ++ str "File number=" ++ sp ++ rest) :: post)
  = (0, Some (Errorf2 ErrMtOutputParseFailed ErrSomeMtRelatedFieldsMissing)).
Proof.
  intros Hl Hs Hrest.
  assert (HF : first_sub_field (lead ++ str "File number=" ++ sp ++ rest)
               = str "File number=").
  { replace (lead ++ str "File number=" ++ sp ++ rest)
      with (lead ++ str "File number=" ++ sp ++ rest) by reflexivity.
    apply (first_sub_field_body lead (str "File number=") sp rest);
      try assumption; reflexivity. }
  rewrite scan_file_number_first; rewrite HF; reflexivity.
Qed.

Section StatusQuery.

Variable run : Runner.
Variable device : LtoNoRewindTapeDrive.

Lemma GetCurFileNumber_scan (w : World) (out : gostring) :
  gate_open (fst (HasDataCartridge run device w)) = true ->
  run (trace w ++ [probe_inv device])
    (mt_inv device Background (str "status") []) = (out, None) ->
  fst (GetCurFileNumber run device w) = scan_file_number (Split out "010").
Proof.
  intros Hg Hrun. unfold GetCurFileNumber, bind, ret. rewrite ExecMtCmd_zero.
  pose proof (ExecMtCmdCtx_result run device Background (str "status") [] w)
    as HR.
  rewrite Hg, Hrun in HR.
  destruct (ExecMtCmdCtx run device Background (str "status") [] w)
    as [r w1].
  cbn [fst snd] in *. subst r. reflexivity.
Qed.

Lemma GetCurFileNumber_answer (w : World) :
  fst (GetCurFileNumber run device w)
  = match (if gate_open (probe_after run device (trace w))
           then run (trace w ++ [probe_inv device])
                  (mt_inv device Background (str "status") [])
           else ([], Some (gate_error (probe_after run device (trace w)))))
    with
    | (_, Some err) => (0, Some (Errorf2 ErrMtExecFailed err))
    | (out, None) => scan_file_number (Split out "010")
    end.
Proof.
  unfold GetCurFileNumber, bind, ret. rewrite ExecMtCmd_zero.
  pose proof (ExecMtCmdCtx_result run device Background (str "status") [] w)
    as HR.
  rewrite (probe_after_trace run device) in HR.
  destruct (ExecMtCmdCtx run device Background (str "status") [] w)
    as [r w1].
  cbn [fst snd] in *. subst r.
  destruct (gate_open (probe_after run device (trace w))); [|reflexivity].
  destruct (run _ _) as [out [e|]]; reflexivity.
Qed.

End StatusQuery.

(** * The specified behaviour *)

(** C1. [PrevFileCtx] first queries the current file number: the probe
    and, when the gate is open, [mt status], whose output is scanned for
    the file number; a closed gate or a failing [mt status] makes the
    query fail with "failed to get mt cmd output".  A failed query is reported
    as "can not go to previous file" wrapping its error, and nothing more
    is run.  At file 0 or 1 exactly a rewind follows: the probe and, when
    the gate is open, [mt rewind] under the caller's context, whose error
    is the result.  Otherwise [bsf 1] is dispatched (the probe, then
    [mt bsf 1] when the gate is open); if it fails, at the gate or in mt,
    the result is "can not go to previous file" wrapping that error and
    nothing more is run; if it succeeds [bsfm 1] is dispatched in the
    same way, and its error, if any, is wrapped likewise.  No context is
    made or cancelled. *)
Theorem PrevFileCtx_steps (run : Runner) (device : LtoNoRewindTapeDrive)
  (ctx : Context) (w : World) :
  let q := fst (GetCurFileNumber run device w) in
  let query := gated_invocations run device Background (str "status") []
                 (trace w) in
  let t1 := trace w ++ query in
  let rewind := gated_invocations run device ctx (str "rewind") [] t1 in
  let bsf := gated_invocations run device ctx (str "bsf") [1%N] t1 in
  let bsfm := gated_invocations run device ctx (str "bsfm") [1%N]
                (t1 ++ bsf) in
  let r := PrevFileCtx run device ctx w in
  issued w (snd (GetCurFileNumber run device w)) = query
  /\ q = match (if gate_open (probe_after run device (trace w))
               then run (trace w ++ [probe_inv device])
                      (mt_inv device Background (str "status") [])
               else ([], Some (gate_error
                                 (probe_after run device (trace w)))))
        with
        | (_, Some err) => (0, Some (Errorf2 ErrMtExecFailed err))
        | (out, None) => scan_file_number (Split out "010")
        end
  /\ match snd q with
     | Some e =>
         fst r = Some (Errorf2 ErrCanNotGoToPrevFile e)
         /\ issued w (snd r) = query
     | None =>
         if (fst q =? 0) || (fst q =? 1)
         then fst r = gated_outcome run device ctx (str "rewind") [] t1
              /\ issued w (snd r) = query ++ rewind
         else
           match gated_outcome run device ctx (str "bsf") [1%N] t1 with
           | Some e =>
               fst r = Some (Errorf2 ErrCanNotGoToPrevFile e)
               /\ issued w (snd r) = query ++ bsf
           | None =>
               fst r
               = match gated_outcome run device ctx (str "bsfm") [1%N]
                         (t1 ++ bsf) with
                 | Some e => Some (Errorf2 ErrCanNotGoToPrevFile e)
                 | None => None
                 end
               /\ issued w (snd r) = query ++ bsf ++ bsfm
           end
     end
  /\ ctx_next (snd r) = ctx_next w
  /\ cancelled (snd r) = cancelled w.
Proof.
  cbv zeta. split; [|split; [|split]].
  - apply issued_app, GetCurFileNumber_trace.
  - apply GetCurFileNumber_answer.
  - apply PrevFileCtx_exact.
  - apply PrevFileCtx_keeps.
Qed.

(** C2, the claim fails: counting the two files of a tape makes ten
    invocations; the five mt commands run under the one context made
    from the timeout, and the five medium-type probes before them run
    under no context, so not under the deadline. *)
Lemma CountFiles_probes_without_deadline :
  fst (CountFiles (tape_runner loaded_tape) dev0 5 60000000000 w0)
  = Some (2, Some (JoinError [ExitError 2]))
  /\ map inv_ctx
       (issued w0 (snd (CountFiles (tape_runner loaded_tape) dev0 5
                          60000000000 w0)))
     = [None; Some (WithTimeout 0 60000000000);
        None; Some (WithTimeout 0 60000000000);
        None; Some (WithTimeout 0 60000000000);
        None; Some (WithTimeout 0 60000000000);
        None; Some (WithTimeout 0 60000000000)].
Proof. vm_compute. split; reflexivity. Qed.

(** C2, as the code has it. When the first rewind succeeds and stepping
    forward one file then succeeds exactly [K] times and fails,
    [CountFiles] returns [K]; the final rewind is attempted after the
    failing step, whatever it returns, and the error returned is the
    join of the error of the failing step and the error of the final
    rewind.  One context is made from the timeout and cancelled on
    return, and every mt command of the operation runs under it; the
    medium-type probe that precedes each mt command runs under no
    context.  The invocations are: the probe and [mt rewind]; [K] times
    the probe and [mt fsf 1]; the probe and, when the gate is open, the
    failing [mt fsf 1]; the probe and, when the gate is open, the final
    [mt rewind]. *)
Theorem CountFiles_counts (run : Runner) (device : LtoNoRewindTapeDrive)
  (timeout : Z) (w : World) (K : nat) (e : error) (fuel : nat) :
  let ctx := WithTimeout (ctx_next w) timeout in
  let w1 := snd (RewindCtx run device ctx (snd (withTimeout timeout w))) in
  let wK := steps_forward run device ctx K w1 in
  let final := RewindCtx run device ctx (snd (NextFileCtx run device ctx wK)) in
  let body := [probe_inv device; mt_inv device ctx (str "rewind") []]
              ++ concat (repeat [probe_inv device;
                                 mt_inv device ctx (str "fsf") [1%N]] K) in
  let last_step := gated_invocations run device ctx (str "fsf") [1%N]
                     (trace w ++ body) in
  fst (RewindCtx run device ctx (snd (withTimeout timeout w))) = None ->
  (forall i, (i < K)%nat ->
     fst (NextFileCtx run device ctx (steps_forward run device ctx i w1))
     = None) ->
  fst (NextFileCtx run device ctx wK) = Some e ->
  Z.of_nat K < 2 ^ 64 ->
  (K < fuel)%nat ->
  CountFiles run device fuel timeout w
  = (Some (Z.of_nat K, Join [Some e; fst final]),
     snd (cancel ctx (snd final)))
  /\ ctx_next (snd (CountFiles run device fuel timeout w)) = S (ctx_next w)
  /\ Forall (fun inv => inv = probe_inv device
                        \/ inv = mt_inv device ctx (str "rewind") []
                        \/ inv = mt_inv device ctx (str "fsf") [1%N])
       (issued w (snd (CountFiles run device fuel timeout w)))
  /\ inv_ctx (probe_inv device) = None
  /\ issued w (snd (CountFiles run device fuel timeout w))
     = body ++ last_step
       ++ gated_invocations run device ctx (str "rewind") []
            (trace w ++ body ++ last_step)
  /\ gated_outcome run device ctx (str "fsf") [1%N] (trace w ++ body)
     = Some e
  /\ fst (CountFiles run device fuel timeout w)
     = Some (Z.of_nat K,
             Join [Some e;
                   gated_outcome run device ctx (str "rewind") []
                     (trace w ++ body ++ last_step)])
  /\ cancelled (snd (CountFiles run device fuel timeout w))
     = ctx_next w :: cancelled w.
Proof.
  intros ctx w1 wK final body last_step Hrew Hok Hfail HK Hfuel.
  assert (Heq : CountFiles run device fuel timeout w
                = (Some (Z.of_nat K, Join [Some e; fst final]),
                   snd (cancel ctx (snd final)))).
  { unfold CountFiles at 1. unfold bind at 1.
    change (withTimeout timeout w) with (ctx, snd (withTimeout timeout w)).
    unfold bind at 1.
    subst final wK w1. revert Hrew Hok Hfail.
    destruct (RewindCtx run device ctx (snd (withTimeout timeout w)))
      as [oe w1].
    cbn [fst snd]. intros Hrew Hok Hfail. subst oe.
    unfold bind at 1.
    rewrite (count_loop_counts run device ctx e K fuel 0 w1 Hfuel
               (Z.le_refl 0) HK Hok Hfail).
    unfold bind, ret.
    destruct (RewindCtx run device ctx _) as [e4 w4]. cbn [fst snd].
    destruct (cancel ctx w4). reflexivity. }
  split; [exact Heq|]. split; [|split; [|split]].
  - rewrite Heq. subst final wK w1 ctx. cbn [snd cancel ctx_next].
    assert (Hc : forall c v,
               ctx_next (snd (RewindCtx run device c v)) = ctx_next v)
      by (intros c v; apply (primitiveCtx_keeps run device PRewind)).
    assert (Hf : forall c v,
               ctx_next (snd (NextFileCtx run device c v)) = ctx_next v)
      by (intros c v; apply (primitiveCtx_keeps run device (PFSF 1))).
    assert (Hs : forall c n v,
               ctx_next (steps_forward run device c n v) = ctx_next v).
    { intros c n. induction n as [|n IH]; intros v; [reflexivity|].
      cbn [steps_forward]. rewrite IH. apply Hf. }
    rewrite Hc, Hf, Hs, Hc. reflexivity.
  - apply grows_issued, CountFiles_grows.
  - reflexivity.
  - apply (CountFiles_exact run device timeout w K e fuel Hrew Hok Hfail
             HK Hfuel).
Qed.

(** A run of C2: two file marks, and a drive whose second rewind fails.
    The count is 2 and both errors are returned. *)
Lemma CountFiles_counts_witness :
  fst (CountFiles (tape_runner stuck_tape) dev0 5 60000000000 w0)
  = Some (2, Some (JoinError [ExitError 2; ExitError 2])).
Proof.
  destruct (CountFiles_counts (tape_runner stuck_tape) dev0 60000000000 w0
              2 (ExitError 2) 5) as [H _].
  - vm_compute. reflexivity.
  - intros i Hi. destruct i as [|[|i]].
    + vm_compute. reflexivity.
    + vm_compute. reflexivity.
    + lia.
  - vm_compute. reflexivity.
  - vm_compute. reflexivity.
  - lia.
  - rewrite H. vm_compute. reflexivity.
Defined.

(** C3. Every mt command issued through [ExecMtCmdCtx], and so every
    positioning primitive (rewind, fsf, bsf, bsfm, weof, erase, eject),
    runs the medium-type probe first; the mt command is invoked exactly
    when the probe answered and reported a data cartridge, and otherwise
    the result is the error "no data cartridge or not ready yet", wrapping
    the error of the probe when the probe failed, with no mt invocation. *)
Theorem ExecMtCmdCtx_gated (run : Runner) (device : LtoNoRewindTapeDrive)
  (ctx : Context) (w : World) :
  let r := fst (HasDataCartridge run device w) in
  issued w (snd (HasDataCartridge run device w)) = [probe_inv device]
  /\ (forall (cmd : gostring) (args : list N),
        let res := ExecMtCmdCtx run device ctx cmd args w in
        issued w (snd res)
        = probe_inv device
            :: (if gate_open r then [mt_inv device ctx cmd args] else [])
        /\ fst res
           = (if gate_open r
              then run (trace w ++ [probe_inv device])
                     (mt_inv device ctx cmd args)
              else ([], Some (gate_error r))))
  /\ (forall p : Primitive,
        let res := primitiveCtx run device p ctx w in
        let inv := mt_inv device ctx (primitive_cmd p) (primitive_args p) in
        issued w (snd res)
        = probe_inv device :: (if gate_open r then [inv] else [])
        /\ fst res
           = (if gate_open r
              then snd (run (trace w ++ [probe_inv device]) inv)
              else Some (gate_error r))).
Proof.
  intros r.
  assert (Hexec : forall cmd args,
    let res := ExecMtCmdCtx run device ctx cmd args w in
    issued w (snd res)
    = probe_inv device
        :: (if gate_open r then [mt_inv device ctx cmd args] else [])
    /\ fst res
       = (if gate_open r
          then run (trace w ++ [probe_inv device])
                 (mt_inv device ctx cmd args)
          else ([], Some (gate_error r)))).
  { intros cmd args. cbv zeta. rewrite ExecMtCmdCtx_eq. cbv zeta.
    subst r. destruct (gate_open _); simpl.
    - split; [apply issued_record2 | reflexivity].
    - split; [apply issued_record | reflexivity]. }
  split; [|split].
  - rewrite HasDataCartridge_world. apply issued_record.
  - exact Hexec.
  - intros p. cbv zeta.
    destruct (Hexec (primitive_cmd p) (primitive_args p)) as [Ht Hr].
    assert (Hp : primitiveCtx run device p ctx w
                 = (snd (fst (ExecMtCmdCtx run device ctx (primitive_cmd p)
                                (primitive_args p) w)),
                    snd (ExecMtCmdCtx run device ctx (primitive_cmd p)
                           (primitive_args p) w))).
    { destruct p;
        cbv [primitiveCtx primitive_cmd primitive_args RewindCtx FSFCtx
             BSFCtx BSFMCtx WEOFCtx EraseCtx EjectCtx bind ret];
        destruct (ExecMtCmdCtx _ _ _ _ _ _); reflexivity. }
    rewrite Hp. simpl. split; [exact Ht|].
    rewrite Hr. subst r. destruct (gate_open _); reflexivity.
Qed.

(** C4, the claim fails: for the status line of the specification the
    sub-field before the first comma is [ONLINE]; no line matches and the
    result is the error "some mt related fields missing". *)
Lemma GetCurFileNumber_spec_line :
  first_sub_field (str "ONLINE, File number=3, Block number=0") = str "ONLINE"
  /\ fst (GetCurFileNumber (tape_runner spec_status_tape) dev0 w0)
     = (0, Some ErrSomeMtRelatedFieldsMissing).
Proof. vm_compute. split; reflexivity. Qed.

(** C4, as the code has it. When the status query ran, the first line of
    its output whose sub-field before the first comma, trimmed, starts
    with [File number] decides the result, whatever the later lines
    hold: the value is read from that sub-field by the equals-delimited
    rule, and when no value can be read there the result is 0 with the
    error "can not parse output of mt" wrapping the cause.  So a line
    that begins (after white space) with [File number=<token>], alone or
    followed by a comma and more fields, gives what [ParseUint] makes of
    the token, a decimal numeral giving its value; and such a line with
    nothing after the equals sign gives the error wrapping "some mt
    related fields missing". *)
Theorem GetCurFileNumber_first_sub_field (run : Runner)
  (device : LtoNoRewindTapeDrive) (w : World) (out : gostring)
  (pre : list gostring) (line : gostring) (post : list gostring) :
  gate_open (fst (HasDataCartridge run device w)) = true ->
  run (trace w ++ [probe_inv device])
    (mt_inv device Background (str "status") []) = (out, None) ->
  Split out "010" = pre ++ line :: post ->
  forallb (fun l => negb (HasPrefix (first_sub_field l) (str "File number")))
    pre = true ->
  (HasPrefix (first_sub_field line) (str "File number") = true ->
   fst (GetCurFileNumber run device w)
   = match extractMtUintVal (first_sub_field line) 0 with
     | (v, None) => (v, None)
     | (_, Some e) => (0, Some (Errorf2 ErrMtOutputParseFailed e))
     end)
  /\ (forall lead sp0 tok sp rest,
        line = lead ++ str "File number=" ++ sp0 ++ tok ++ sp ++ rest ->
        forallb asciiSpace lead = true -> forallb asciiSpace sp0 = true ->
        forallb plain tok = true -> tok <> [] ->
        no_byte "=" tok = true -> no_byte "," tok = true ->
        forallb asciiSpace sp = true ->
        (rest = [] \/ exists r, rest = ","%char :: r) ->
        fst (GetCurFileNumber run device w)
        = match ParseUint tok 0 64 with
          | (v, None) => (v, None)
          | (_, Some e) => (0, Some (Errorf2 ErrMtOutputParseFailed e))
          end)
  /\ (forall lead ds rest,
        line = lead ++ str "File number=" ++ ds ++ rest ->
        forallb asciiSpace lead = true ->
        canonical_decimal ds = true -> decimal_value ds < 2 ^ 64 ->
        (rest = [] \/ exists r, rest = ","%char :: r) ->
        fst (GetCurFileNumber run device w) = (decimal_value ds, None))
  /\ (forall lead sp rest,
        line = lead ++ str "File number=" ++ sp ++ rest ->
        forallb asciiSpace lead = true -> forallb asciiSpace sp = true ->
        (rest = [] \/ exists r, rest = ","%char :: r) ->
        fst (GetCurFileNumber run device w)
        = (0, Some (Errorf2 ErrMtOutputParseFailed
                      ErrSomeMtRelatedFieldsMissing))).
Proof.
  intros Hg Hrun Hlines Hpre.
  rewrite (GetCurFileNumber_scan run device w out Hg Hrun), Hlines.
  rewrite scan_file_number_skip by exact Hpre.
  split; [|split; [|split]].
  - apply scan_file_number_first.
  - intros lead sp0 tok sp rest E. subst line.
    apply scan_file_number_token.
  - intros lead ds rest E. subst line. apply scan_file_number_found.
  - intros lead sp rest E. subst line. apply scan_file_number_no_value.
Qed.

(** A run of C4: the status line [File number=3, Block number=0]. *)
Lemma GetCurFileNumber_first_sub_field_witness :
  fst (GetCurFileNumber (tape_runner file3_tape) dev0 w0) = (3, None).
Proof.
  destruct (GetCurFileNumber_first_sub_field (tape_runner file3_tape) dev0
              w0 (str "File number=3, Block number=0") []
              (str "File number=3, Block number=0") []
              eq_refl eq_refl eq_refl eq_refl) as [_ [_ [H _]]].
  apply (H [] (str "3") (str ", Block number=0")); try reflexivity.
  right. exists (str " Block number=0"). reflexivity.
Defined.




(** C6, the claim fails: a drive that answers [mt status] without error
    but holds no cartridge, or a cleaning cartridge; [ChkDevice] fails at
    the gate and never runs [mt]. *)
Lemma ChkDevice_needs_data_cartridge :
  snd (empty_drive [probe_inv dev0]
         (mt_inv dev0 Background (str "status") [])) = None
  /\ fst (ChkDevice empty_drive dev0 w0)
     = Some (Errorf2 ErrDeviceCheckFailed
               (Errorf2 ErrNoDataCartridgeOrNotReady
                  (Errorf2 ErrSgReadAttrExecFailed (ExitError 2))))
  /\ issued w0 (snd (ChkDevice empty_drive dev0 w0)) = [probe_inv dev0]
  /\ snd (tape_runner cleaning_tape [probe_inv dev0]
            (mt_inv dev0 Background (str "status") [])) = None
  /\ fst (ChkDevice (tape_runner cleaning_tape) dev0 w0)
     = Some (Errorf2 ErrDeviceCheckFailed ErrNoDataCartridgeOrNotReady)
  /\ issued w0 (snd (ChkDevice (tape_runner cleaning_tape) dev0 w0))
     = [probe_inv dev0].
Proof. vm_compute. repeat split. Qed.

(** C6, as the code has it. [ChkDevice] succeeds exactly when the
    medium-type probe answered and reported a data cartridge and the
    [mt status] invocation that follows, under the background context,
    ran without error; when the probe does not open the gate, [mt] is
    not run at all. *)
Theorem ChkDevice_ok_iff (run : Runner) (device : LtoNoRewindTapeDrive)
  (w : World) :
  let status := mt_inv device Background (str "status") [] in
  let gate := gate_open (fst (HasDataCartridge run device w)) in
  is_nil (fst (ChkDevice run device w))
  = gate && is_nil (snd (run (trace w ++ [probe_inv device]) status))
  /\ issued w (snd (ChkDevice run device w))
     = probe_inv device :: (if gate then [status] else []).
Proof.
  cbv zeta. rewrite ChkDevice_eq. simpl fst. simpl snd.
  rewrite ExecMtCmdCtx_issued, ExecMtCmdCtx_result.
  destruct (gate_open _); simpl.
  - split; [|reflexivity].
    destruct (snd (run _ _)); reflexivity.
  - split; reflexivity.
Qed.

(** C7, the claim fails: with a cleaning cartridge in the drive (the
    probe would not open the gate) the capacity query runs [sg_logs] at
    once and returns its report, and an attribute read runs
    [sg_read_attr] at once; neither runs the probe. *)
Lemma GetCapacityLog_runs_unprobed :
  gate_open (fst (HasDataCartridge (tape_runner cleaning_tape) dev0 w0))
  = false
  /\ issued w0 (snd (GetCapacityLog (tape_runner cleaning_tape) dev0 w0))
     = [sg_logs_inv dev0]
  /\ fst (GetCapacityLog (tape_runner cleaning_tape) dev0 w0)
     = (mkCapacityLog 1409466 0 1425000 0, None)
  /\ issued w0 (snd (ExecSgReadAttr (tape_runner cleaning_tape) dev0
                       (str "0x0401") w0))
     = [attr_inv dev0 (str "0x0401")].
Proof. vm_compute. repeat split. Qed.

(** C7, as the code has it. Every mt command issued through
    [ExecMtCmdCtx] or [ExecMtCmd], every positioning primitive with a
    context or with a timeout, [NextFile], [PrevFile], their context
    forms, [GetCurFileNumber], [CountFiles], [ChkDevice] and
    [GetMediumSN] run the medium-type probe as their first invocation;
    [GetCapacityLog] runs [sg_logs] and [ExecSgReadAttr] runs
    [sg_read_attr] directly, as their only invocation. *)
Theorem medium_check_where_gated (run : Runner)
  (device : LtoNoRewindTapeDrive) (w : World) :
  (forall ctx cmd args,
     hd_error (issued w (snd (ExecMtCmdCtx run device ctx cmd args w)))
     = Some (probe_inv device))
  /\ (forall p ctx,
        hd_error (issued w (snd (primitiveCtx run device p ctx w)))
        = Some (probe_inv device))
  /\ hd_error (issued w (snd (ChkDevice run device w)))
     = Some (probe_inv device)
  /\ hd_error (issued w (snd (GetMediumSN run device w)))
     = Some (probe_inv device)
  /\ issued w (snd (GetCapacityLog run device w)) = [sg_logs_inv device]
  /\ (forall id,
        issued w (snd (ExecSgReadAttr run device id w))
        = [attr_inv device id])
  /\ (forall timeout cmd args,
        hd_error (issued w (snd (ExecMtCmd run device timeout cmd args w)))
        = Some (probe_inv device))
  /\ (forall p timeout,
        hd_error (issued w (snd (primitiveTimeout run device p timeout w)))
        = Some (probe_inv device))
  /\ (forall ctx,
        hd_error (issued w (snd (NextFileCtx run device ctx w)))
        = Some (probe_inv device))
  /\ (forall timeout,
        hd_error (issued w (snd (NextFile run device timeout w)))
        = Some (probe_inv device))
  /\ hd_error (issued w (snd (GetCurFileNumber run device w)))
     = Some (probe_inv device)
  /\ (forall ctx,
        hd_error (issued w (snd (PrevFileCtx run device ctx w)))
        = Some (probe_inv device))
  /\ (forall timeout,
        hd_error (issued w (snd (PrevFile run device timeout w)))
        = Some (probe_inv device))
  /\ (forall fuel timeout,
        hd_error (issued w (snd (CountFiles run device fuel timeout w)))
        = Some (probe_inv device))
  /\ issued w (snd (HasDataCartridge run device w)) = [probe_inv device]
  /\ issued w (snd (TryReadAttr run device w)) = [probe_inv device].
Proof.
  destruct (probe_first run device)
    as [P1 [P2 [P3 [P4 [P5 [P6 [P7 P8]]]]]]].
  repeat split; auto.
  - intros. rewrite ExecMtCmdCtx_issued. reflexivity.
  - intros. rewrite primitiveCtx_eq. simpl snd.
    rewrite ExecMtCmdCtx_issued. reflexivity.
  - rewrite ChkDevice_eq. simpl snd. rewrite ExecMtCmdCtx_issued.
    reflexivity.
  - apply GetMediumSN_first.
  - unfold GetCapacityLog, getCmdOutput, bind, ret.
    destruct (snd (run _ _)); simpl; apply issued_record.
  - intros id. rewrite ExecSgReadAttr_world. apply issued_record.
  - rewrite HasDataCartridge_world. apply issued_record.
  - unfold TryReadAttr, bind, ret.
    pose proof (HasDataCartridge_world run device w) as H.
    destruct (HasDataCartridge run device w) as [r w1].
    cbn [fst snd] in *. subst w1. apply issued_record.
Qed.



(** C9. [utilProbe] tries the candidates in order, all under one context
    with the discovery deadline, and returns the first one whose probe
    ran without error or failed with an [*exec.ExitError]; candidates
    whose probe failed otherwise (a launch failure) are passed over, and
    no candidate after the one returned is tried.  When no candidate
    resolves ([n] is the length of the list) the result is the error
    given by the caller. *)
Theorem utilProbe_first_resolvable (run : Runner) (l : list gostring)
  (parm : gostring) (onFail : error) (w : World) (n : nat) :
  let ctx := WithTimeout (ctx_next w) UtilsDiscoverTimeout in
  let hist k := trace w ++ map (fun p => util_inv ctx p parm) (firstn k l) in
  (n <= length l)%nat ->
  (forall k, (k < n)%nat ->
     resolves run (hist k) ctx (nth k l []) parm = false) ->
  ((n < length l)%nat -> resolves run (hist n) ctx (nth n l []) parm = true) ->
  fst (utilProbe run l parm onFail w)
  = (if (n <? length l)%nat then (nth n l [], None) else ([], Some onFail))
  /\ issued w (snd (utilProbe run l parm onFail w))
     = map (fun p => util_inv ctx p parm) (firstn (S n) l).
Proof.
  intros ctx hist Hn Hno Hyes.
  unfold utilProbe, bind, ret.
  change (withTimeout UtilsDiscoverTimeout w)
    with (ctx, mkWorld (trace w) (S (ctx_next w)) (cancelled w)).
  destruct (probe_loop_first run ctx parm onFail l
              (mkWorld (trace w) (S (ctx_next w)) (cancelled w)) n Hn Hno Hyes)
    as [Hr Ht].
  destruct (probe_loop run ctx l parm onFail _) as [r w1].
  cbn [fst snd] in *. split; [exact Hr|].
  apply issued_app. subst ctx. cbn [cancel snd trace]. exact Ht.
Qed.

(** A run of C9: [/usr/bin/mt] does not exist and [/usr/bin/mt-st]
    accepts [-h]; discovery returns [/usr/bin/mt-st] after two probes. *)
Lemma utilProbe_first_resolvable_witness :
  fst (discoverMt (host_runner [] [str "/usr/bin/mt-st"; str "/bin/mt-st"]) w0)
  = (str "/usr/bin/mt-st", None)
  /\ map inv_name
       (issued w0
          (snd (discoverMt
                  (host_runner [] [str "/usr/bin/mt-st"; str "/bin/mt-st"])
                  w0)))
     = [str "/usr/bin/mt"; str "/usr/bin/mt-st"].
Proof.
  destruct (utilProbe_first_resolvable
              (host_runner [] [str "/usr/bin/mt-st"; str "/bin/mt-st"])
              possibleMt (str "-h") ErrNoMtDiscovered w0 1) as [Hr Ht].
  - simpl. lia.
  - intros k Hk. destruct k as [|k]; [vm_compute; reflexivity | lia].
  - intros _. vm_compute. reflexivity.
  - unfold discoverMt. rewrite Hr, Ht. vm_compute. split; reflexivity.
Defined.

(** A program that starts and exits with a non-zero status is found all
    the same; when nothing is installed the caller's error comes back. *)
Example discoverMt_exit_status :
  fst (discoverMt (host_runner [str "/bin/mt"] []) w0) = (str "/bin/mt", None)
  /\ fst (discoverMt (host_runner [] []) w0) = ([], Some ErrNoMtDiscovered).
Proof. vm_compute. split; reflexivity. Qed.


(** ** Runs on the simulated drive *)


(** At file 0 and at file 1 [PrevFileCtx] asks for the file number and
    rewinds; at file 2 it runs [bsf 1] and [bsfm 1]; each mt command comes
    after a probe. *)
Example PrevFileCtx_runs :
  map inv_args
    (issued w0 (snd (PrevFileCtx (tape_runner (file_number_tape (str "0")))
                       dev0 Background w0)))
  = [[str "-f"; str "0x0408"; str "/dev/nst0"];
     [str "-f"; str "/dev/nst0"; str "status"];
     [str "-f"; str "0x0408"; str "/dev/nst0"];
     [str "-f"; str "/dev/nst0"; str "rewind"]]
  /\ map inv_args
       (issued w0 (snd (PrevFileCtx (tape_runner (file_number_tape (str "1")))
                          dev0 Background w0)))
     = [[str "-f"; str "0x0408"; str "/dev/nst0"];
        [str "-f"; str "/dev/nst0"; str "status"];
        [str "-f"; str "0x0408"; str "/dev/nst0"];
        [str "-f"; str "/dev/nst0"; str "rewind"]]
  /\ map inv_args
       (issued w0 (snd (PrevFileCtx (tape_runner (file_number_tape (str "2")))
                          dev0 Background w0)))
     = [[str "-f"; str "0x0408"; str "/dev/nst0"];
        [str "-f"; str "/dev/nst0"; str "status"];
        [str "-f"; str "0x0408"; str "/dev/nst0"];
        [str "-f"; str "/dev/nst0"; str "bsf"; str "1"];
        [str "-f"; str "0x0408"; str "/dev/nst0"];
        [str "-f"; str "/dev/nst0"; str "bsfm"; str "1"]].
Proof. vm_compute. repeat split. Qed.

(** With a cleaning cartridge no positioning command reaches [mt]. *)
Example FSFCtx_cleaning_cartridge :
  FSFCtx (tape_runner cleaning_tape) dev0 Background 3 w0
  = (Some ErrNoDataCartridgeOrNotReady, record_inv (probe_inv dev0) w0).
Proof. vm_compute. reflexivity. Qed.

(** Counting on a drive that rewinds every time: two files, and the error
    is the one that ended the loop. *)
Example CountFiles_two_marks :
  fst (CountFiles (tape_runner loaded_tape) dev0 10 60000000000 w0)
  = Some (2, Some (JoinError [ExitError 2])).
Proof. vm_compute. reflexivity. Qed.

(** Without enough fuel the model has no result to give. *)
Example CountFiles_out_of_fuel :
  fst (CountFiles (tape_runner loaded_tape) dev0 2 60000000000 w0) = None.
Proof. vm_compute. reflexivity. Qed.

Example newline_is_line_feed : byte_of "010" = 10%N.
Proof. reflexivity. Qed.

(** * More of the package *)

(** ** The naming check *)

(** X1. The naming check looks only at what follows the last slash of
    the device path: the directory part never matters. *)
Theorem chkIsNoRewind_last_component (GOOS dir name a b c a' b' c' : gostring) :
  chkIsNoRewind GOOS (mkDrive (dir ++ "/"%char :: name) a b c)
  = chkIsNoRewind GOOS (mkDrive name a' b' c').
Proof.
  unfold chkIsNoRewind. cbn [DeviceFile].
  rewrite last_Split_app. reflexivity.
Qed.

(** X2. A device path that is empty or ends with a slash has an empty
    last component and is refused on every platform. *)
Theorem chkIsNoRewind_trailing_slash (GOOS dir a b c : gostring) :
  is_nil (chkIsNoRewind GOOS (mkDrive (dir ++ ["/"%char]) a b c)) = false
  /\ is_nil (chkIsNoRewind GOOS (mkDrive [] a b c)) = false.
Proof.
  unfold chkIsNoRewind. cbn [DeviceFile].
  rewrite last_Split_app. cbn [Split last_elem last].
  change (HasPrefix [] (str "nst")) with false.
  change (HasPrefix [] (str "nsa")) with false.
  change (HasSuffix [] (str "n")) with false.
  change (HasSuffix [] (str ".1")) with false.
  cbn [negb].
  split;
    destruct (gostring_eqb GOOS (str "linux")); try reflexivity;
    destruct (gostring_eqb GOOS (str "freebsd") || gostring_eqb GOOS (str "netbsd")
              || gostring_eqb GOOS (str "openbsd")); try reflexivity;
    destruct (gostring_eqb GOOS (str "solaris")); try reflexivity;
    destruct (gostring_eqb GOOS (str "aix")); reflexivity.
Qed.

(** ** Discovery *)

Section DiscoveryOutcome.

Variable run : Runner.

Lemma probe_loop_outcome (ctx : Context) (parm : gostring) (onFail : error)
  (l : list gostring) :
  forall w : World,
    exists n : nat,
      (n <= length l)%nat
      /\ trace (snd (probe_loop run ctx l parm onFail w))
         = trace w ++ map (fun p => util_inv ctx p parm) (firstn n l)
      /\ ctx_next (snd (probe_loop run ctx l parm onFail w)) = ctx_next w
      /\ cancelled (snd (probe_loop run ctx l parm onFail w)) = cancelled w
      /\ ((fst (probe_loop run ctx l parm onFail w) = ([], Some onFail)
           /\ n = length l)
          \/ ((0 < n)%nat
              /\ fst (probe_loop run ctx l parm onFail w)
                 = (nth (n - 1) l [], None))).
Proof.
  induction l as [|p rest IH]; intros w.
  - exists 0%nat. simpl. rewrite app_nil_r. auto 10.
  - cbn [probe_loop]. unfold bind, getCmdOutputCtx. cbn [snd fst].
    destruct (snd (run (trace w) (mkInvocation (Some ctx) p [parm])))
      as [e|].
    + destruct (AsExitError e).
      * exists 1%nat. simpl. repeat split; try lia. right. split; [lia|reflexivity].
      * destruct (IH (record_inv (mkInvocation (Some ctx) p [parm]) w))
          as [n [Hn [Ht [Hc [Hk Hr]]]]].
        exists (S n). split; [simpl; lia|]. split.
        { rewrite Ht. simpl. rewrite <- app_assoc. reflexivity. }
        split; [exact Hc|]. split; [exact Hk|].
        destruct Hr as [[Hr Hl]|[Hp Hr]].
        -- left. split; [exact Hr | simpl; lia].
        -- right. split; [lia|]. rewrite Hr.
           destruct n as [|n]; [lia|]. simpl. rewrite Nat.sub_0_r.
           reflexivity.
    + exists 1%nat. simpl. repeat split; try lia. right. split; [lia|reflexivity].
Qed.

Lemma utilProbe_outcome_aux (l : list gostring) (parm : gostring)
  (onFail : error) (w : World) :
  exists n : nat,
    (n <= length l)%nat
    /\ issued w (snd (utilProbe run l parm onFail w))
       = map (fun p => util_inv (WithTimeout (ctx_next w) UtilsDiscoverTimeout)
                         p parm) (firstn n l)
    /\ ctx_next (snd (utilProbe run l parm onFail w)) = S (ctx_next w)
    /\ cancelled (snd (utilProbe run l parm onFail w))
       = ctx_next w :: cancelled w
    /\ ((fst (utilProbe run l parm onFail w) = ([], Some onFail)
         /\ n = length l)
        \/ ((0 < n)%nat
            /\ fst (utilProbe run l parm onFail w)
               = (nth (n - 1) l [], None))).
Proof.
  unfold utilProbe, bind, ret.
  change (withTimeout UtilsDiscoverTimeout w)
    with (WithTimeout (ctx_next w) UtilsDiscoverTimeout,
          mkWorld (trace w) (S (ctx_next w)) (cancelled w)).
  destruct (probe_loop_outcome (WithTimeout (ctx_next w) UtilsDiscoverTimeout)
              parm onFail l
              (mkWorld (trace w) (S (ctx_next w)) (cancelled w)))
    as [n [Hn [Ht [Hc [Hk Hr]]]]].
  destruct (probe_loop run _ l parm onFail _) as [r w1].
  cbn [fst snd cancel trace ctx_next cancelled] in *.
  exists n. split; [exact Hn|]. split; [apply issued_app; exact Ht|].
  split; [exact Hc|]. split; [rewrite Hk; reflexivity|]. exact Hr.
Qed.

End DiscoveryOutcome.

(** X3. Whatever the programs answer, [utilProbe] probes a prefix of the
    candidate list, in order and each candidate once, under one context
    that is cancelled on return; it returns either the last candidate it
    probed with no error, or no path and the caller's error after having
    probed them all. *)
Theorem utilProbe_outcome (run : Runner) (l : list gostring)
  (parm : gostring) (onFail : error) (w : World) :
  exists n : nat,
    (n <= length l)%nat
    /\ issued w (snd (utilProbe run l parm onFail w))
       = map (fun p => util_inv (WithTimeout (ctx_next w) UtilsDiscoverTimeout)
                         p parm) (firstn n l)
    /\ ctx_next (snd (utilProbe run l parm onFail w)) = S (ctx_next w)
    /\ cancelled (snd (utilProbe run l parm onFail w))
       = ctx_next w :: cancelled w
    /\ ((fst (utilProbe run l parm onFail w) = ([], Some onFail)
         /\ n = length l)
        \/ ((0 < n)%nat
            /\ fst (utilProbe run l parm onFail w)
               = (nth (n - 1) l [], None))).
Proof. apply utilProbe_outcome_aux. Qed.

Lemma utilProbe_discovered (run : Runner) (l : list gostring)
  (parm : gostring) (onFail : error) (w : World) :
  discovered l onFail (fst (utilProbe run l parm onFail w))
  /\ (length (issued w (snd (utilProbe run l parm onFail w))) <= length l)%nat
  /\ Forall (fun inv => inv_args inv = [parm]
                        /\ inv_ctx inv
                           = Some (WithTimeout (ctx_next w) UtilsDiscoverTimeout))
       (issued w (snd (utilProbe run l parm onFail w)))
  /\ trace (snd (utilProbe run l parm onFail w))
     = trace w ++ issued w (snd (utilProbe run l parm onFail w))
  /\ ctx_next (snd (utilProbe run l parm onFail w)) = S (ctx_next w)
  /\ cancelled (snd (utilProbe run l parm onFail w))
     = ctx_next w :: cancelled w.
Proof.
  destruct (utilProbe_outcome_aux run l parm onFail w)
    as [n [Hn [Hi [Hc [Hk Hr]]]]].
  split; [|split; [|split; [|split; [|split]]]].
  - unfold discovered. destruct Hr as [[Hr _]|[Hp Hr]].
    + right. exact Hr.
    + left. rewrite Hr. split; [|reflexivity].
      apply nth_In. lia.
  - rewrite Hi, length_map, length_firstn. lia.
  - rewrite Hi. apply Forall_forall. intros inv Hin.
    apply in_map_iff in Hin. destruct Hin as [p [Hp _]]. subst inv.
    split; reflexivity.
  - unfold issued.
    assert (Hex : exists x, trace (snd (utilProbe run l parm onFail w))
                            = trace w ++ x).
    { unfold utilProbe, bind, ret.
      change (withTimeout UtilsDiscoverTimeout w)
        with (WithTimeout (ctx_next w) UtilsDiscoverTimeout,
              mkWorld (trace w) (S (ctx_next w)) (cancelled w)).
      destruct (probe_loop_outcome run
                  (WithTimeout (ctx_next w) UtilsDiscoverTimeout)
                  parm onFail l
                  (mkWorld (trace w) (S (ctx_next w)) (cancelled w)))
        as [m [_ [Ht _]]].
      destruct (probe_loop run _ l parm onFail _) as [r w1].
      cbn [fst snd cancel trace] in *. eexists. exact Ht. }
    destruct Hex as [x Hx]. rewrite Hx.
    rewrite skipn_app, skipn_all, Nat.sub_diag. reflexivity.
  - exact Hc.
  - exact Hk.
Qed.

(** ** Construction *)

Lemma candidate_not_empty (p : gostring) :
  In p possibleMt \/ In p possibleSgLogs \/ In p possibleSgReadAttr ->
  is_empty p = false.
Proof.
  unfold possibleMt, possibleSgLogs, possibleSgReadAttr. simpl.
  intros H.
  repeat match goal with
    | H : _ \/ _ |- _ => destruct H as [H|H]
    | H : False |- _ => contradiction
    end; subst p; reflexivity.
Qed.

Section ConstructionFacts.

Variable GOOS : gostring.
Variable stat : gostring -> option error.
Variable run : Runner.

(** The three discoveries, one after the other. *)
Lemma discoveries (device : gostring) (w : World) :
  stat device = None ->
  chkIsNoRewind GOOS (mkDrive device [] [] []) = None ->
  exists mt sgLogs sgReadAttr i1 i2 i3,
    fst (NewLtoNoRewindTapeDrive GOOS stat run device w)
    = (mkDrive device (fst sgLogs) (fst sgReadAttr) (fst mt),
       join_if (join_if (join_if None (snd mt)) (snd sgLogs))
         (snd sgReadAttr))
    /\ discovered possibleMt ErrNoMtDiscovered mt
    /\ discovered possibleSgLogs ErrNoSgLogsDiscovered sgLogs
    /\ discovered possibleSgReadAttr ErrNoSgReadAttrDiscovered sgReadAttr
    /\ issued w (snd (NewLtoNoRewindTapeDrive GOOS stat run device w))
       = i1 ++ i2 ++ i3
    /\ (length i1 <= 6 /\ length i2 <= 3 /\ length i3 <= 3)%nat
    /\ Forall (fun inv => inv_args inv = [str "-h"]
                          /\ inv_ctx inv
                             = Some (WithTimeout (ctx_next w)
                                       UtilsDiscoverTimeout)) i1
    /\ Forall (fun inv => inv_args inv = [str "-h"]
                          /\ inv_ctx inv
                             = Some (WithTimeout (S (ctx_next w))
                                       UtilsDiscoverTimeout)) i2
    /\ Forall (fun inv => inv_args inv = [str "-h"]
                          /\ inv_ctx inv
                             = Some (WithTimeout (S (S (ctx_next w)))
                                       UtilsDiscoverTimeout)) i3
    /\ ctx_next (snd (NewLtoNoRewindTapeDrive GOOS stat run device w))
       = S (S (S (ctx_next w)))
    /\ cancelled (snd (NewLtoNoRewindTapeDrive GOOS stat run device w))
       = S (S (ctx_next w)) :: S (ctx_next w) :: ctx_next w :: cancelled w.
Proof.
  intros Hs Hc. unfold NewLtoNoRewindTapeDrive, tryStatDF.
  cbn [DeviceFile]. rewrite Hs, Hc. unfold bind, ret.
  unfold discoverMt, discoverSgLogs, discoverSgReadAttr.
  destruct (utilProbe_discovered run possibleMt (str "-h") ErrNoMtDiscovered w)
    as [D1 [L1 [F1 [T1 [C1 K1]]]]].
  destruct (utilProbe run possibleMt (str "-h") ErrNoMtDiscovered w)
    as [mt w1].
  cbn [fst snd] in *.
  destruct (utilProbe_discovered run possibleSgLogs (str "-h")
              ErrNoSgLogsDiscovered w1) as [D2 [L2 [F2 [T2 [C2 K2]]]]].
  destruct (utilProbe run possibleSgLogs (str "-h") ErrNoSgLogsDiscovered w1)
    as [sgLogs w2].
  cbn [fst snd] in *.
  destruct (utilProbe_discovered run possibleSgReadAttr (str "-h")
              ErrNoSgReadAttrDiscovered w2) as [D3 [L3 [F3 [T3 [C3 K3]]]]].
  destruct (utilProbe run possibleSgReadAttr (str "-h")
              ErrNoSgReadAttrDiscovered w2) as [sgReadAttr w3].
  cbn [fst snd] in *.
  exists mt, sgLogs, sgReadAttr, (issued w w1), (issued w1 w2), (issued w2 w3).
  rewrite C1 in *. rewrite C2 in *.
  repeat split; try assumption.
  - apply issued_app. rewrite T3, T2, T1, <- !app_assoc. reflexivity.
  - rewrite K3, K2, K1. reflexivity.
Qed.

Lemma discovered_error (l : list gostring) (onFail : error)
  (r : gostring * option error) :
  discovered l onFail r ->
  (In (fst r) l /\ snd r = None) \/ (fst r = [] /\ snd r = Some onFail).
Proof.
  intros [H|H]; [left; exact H|right]. subst r. split; reflexivity.
Qed.

End ConstructionFacts.

(** ** The order of the discoveries *)

Section ConstructionOrder.

Variable GOOS : gostring.
Variable stat : gostring -> option error.
Variable run : Runner.

Lemma utilProbe_probed_until (l : list gostring) (parm : gostring)
  (onFail : error) (w : World) :
  exists n : nat,
    trace (snd (utilProbe run l parm onFail w))
    = trace w
      ++ map (fun p => util_inv (WithTimeout (ctx_next w) UtilsDiscoverTimeout)
                         p parm) (firstn n l)
    /\ probed_until l n (fst (fst (utilProbe run l parm onFail w)))
    /\ ctx_next (snd (utilProbe run l parm onFail w)) = S (ctx_next w).
Proof.
  destruct (utilProbe_outcome_aux run l parm onFail w)
    as [n [Hn [Hi [Hc [_ Hr]]]]].
  destruct (utilProbe_discovered run l parm onFail w)
    as [_ [_ [_ [Ht _]]]].
  exists n. split; [rewrite Ht, Hi; reflexivity|]. split; [|exact Hc].
  destruct Hr as [[Hr Hl]|[Hp Hr]]; rewrite Hr; cbn [fst].
  - left. auto.
  - right. split; [lia | reflexivity].
Qed.

Lemma discoveries_order (device : gostring) (w : World) :
  stat device = None ->
  chkIsNoRewind GOOS (mkDrive device [] [] []) = None ->
  exists n1 n2 n3 : nat,
    issued w (snd (NewLtoNoRewindTapeDrive GOOS stat run device w))
    = map (fun p => util_inv (WithTimeout (ctx_next w) UtilsDiscoverTimeout)
                      p (str "-h")) (firstn n1 possibleMt)
      ++ map (fun p => util_inv (WithTimeout (S (ctx_next w))
                                   UtilsDiscoverTimeout) p (str "-h"))
           (firstn n2 possibleSgLogs)
      ++ map (fun p => util_inv (WithTimeout (S (S (ctx_next w)))
                                   UtilsDiscoverTimeout) p (str "-h"))
           (firstn n3 possibleSgReadAttr)
    /\ probed_until possibleMt n1
         (Mt (fst (fst (NewLtoNoRewindTapeDrive GOOS stat run device w))))
    /\ probed_until possibleSgLogs n2
         (SgLogs (fst (fst (NewLtoNoRewindTapeDrive GOOS stat run device w))))
    /\ probed_until possibleSgReadAttr n3
         (SgReadAttr
            (fst (fst (NewLtoNoRewindTapeDrive GOOS stat run device w)))).
Proof.
  intros Hs Hc. unfold NewLtoNoRewindTapeDrive, tryStatDF.
  cbn [DeviceFile]. rewrite Hs, Hc. unfold bind, ret.
  unfold discoverMt, discoverSgLogs, discoverSgReadAttr.
  destruct (utilProbe_probed_until possibleMt (str "-h") ErrNoMtDiscovered w)
    as [n1 [T1 [P1 C1]]].
  destruct (utilProbe run possibleMt (str "-h") ErrNoMtDiscovered w)
    as [mt w1].
  cbn [fst snd] in *.
  destruct (utilProbe_probed_until possibleSgLogs (str "-h")
              ErrNoSgLogsDiscovered w1) as [n2 [T2 [P2 C2]]].
  destruct (utilProbe run possibleSgLogs (str "-h") ErrNoSgLogsDiscovered w1)
    as [sgLogs w2].
  cbn [fst snd] in *.
  destruct (utilProbe_probed_until possibleSgReadAttr (str "-h")
              ErrNoSgReadAttrDiscovered w2) as [n3 [T3 [P3 C3]]].
  destruct (utilProbe run possibleSgReadAttr (str "-h")
              ErrNoSgReadAttrDiscovered w2) as [sgReadAttr w3].
  cbn [fst snd Mt SgLogs SgReadAttr] in *.
  rewrite C2, C1 in T3. rewrite C1 in T2.
  exists n1, n2, n3. split; [|auto].
  apply issued_app. rewrite T3, T2, T1, <- !app_assoc. reflexivity.
Qed.

End ConstructionOrder.

(** X4. The constructor refuses a device that cannot be stat'ed with
    [ErrCanNotStatTheDevice] and one that fails the naming check with
    [ErrNoRewindRequired]; in both cases no program is run and no utility
    path is set.  An unsupported platform is reported as
    [ErrNoRewindRequired] too: the error returned never includes
    [ErrUnsupportedPlatform]. *)
Theorem NewLtoNoRewindTapeDrive_refusals (GOOS : gostring)
  (stat : gostring -> option error) (run : Runner) (device : gostring)
  (w : World) :
  let r := NewLtoNoRewindTapeDrive GOOS stat run device w in
  includes (snd (fst r)) ErrUnsupportedPlatform = false
  /\ DeviceFile (fst (fst r)) = device
  /\ (if is_nil (stat device)
      then if is_nil (chkIsNoRewind GOOS (mkDrive device [] [] []))
           then True
           else r = ((mkDrive device [] [] [], Some ErrNoRewindRequired), w)
      else r = ((mkDrive device [] [] [], Some ErrCanNotStatTheDevice), w)).
Proof.
  cbv zeta.
  destruct (stat device) as [e|] eqn:Hs.
  - unfold NewLtoNoRewindTapeDrive, tryStatDF. cbn [DeviceFile].
    rewrite Hs. cbn. auto.
  - destruct (chkIsNoRewind GOOS (mkDrive device [] [] [])) as [e|] eqn:Hc.
    + unfold NewLtoNoRewindTapeDrive, tryStatDF. cbn [DeviceFile].
      rewrite Hs, Hc. cbn. auto.
    + destruct (discoveries GOOS stat run device w Hs Hc)
        as [mt [sl [sr [i1 [i2 [i3 [Hr [D1 [D2 [D3 _]]]]]]]]]].
      rewrite Hr. cbn [fst snd is_nil DeviceFile].
      split; [|auto].
      apply discovered_error in D1, D2, D3.
      destruct D1 as [[_ E1]|[_ E1]], D2 as [[_ E2]|[_ E2]],
        D3 as [[_ E3]|[_ E3]]; rewrite E1, E2, E3; reflexivity.
Qed.

(** X5. When the device exists and passes the naming check, the three
    utilities are looked for in the order mt, sg_logs, sg_read_attr, each
    under a context of its own that is cancelled when its discovery
    ends: the invocations are a prefix of the mt candidates, then a
    prefix of the sg_logs candidates, then a prefix of the sg_read_attr
    candidates, each candidate run with [-h] under the context of its
    discovery, and the path kept for a utility is the candidate probed
    last, or empty when all its candidates were probed in vain.  So
    there are at most 6, 3 and 3 probes; each path of the handle is a
    candidate of its list or empty, and it is empty exactly when the
    error returned includes the discovery error of that utility; the
    error is nil exactly when all three were found. *)
Theorem NewLtoNoRewindTapeDrive_discovers (GOOS : gostring)
  (stat : gostring -> option error) (run : Runner) (device : gostring)
  (w : World) :
  stat device = None ->
  chkIsNoRewind GOOS (mkDrive device [] [] []) = None ->
  let r := NewLtoNoRewindTapeDrive GOOS stat run device w in
  let d := fst (fst r) in
  let err := snd (fst r) in
  let probes k l n :=
    map (fun p => util_inv (WithTimeout (ctx_next w + k) UtilsDiscoverTimeout)
                    p (str "-h")) (firstn n l) in
  (In (Mt d) ([] :: possibleMt)
   /\ In (SgLogs d) ([] :: possibleSgLogs)
   /\ In (SgReadAttr d) ([] :: possibleSgReadAttr))
  /\ (includes err ErrNoMtDiscovered = is_empty (Mt d)
      /\ includes err ErrNoSgLogsDiscovered = is_empty (SgLogs d)
      /\ includes err ErrNoSgReadAttrDiscovered = is_empty (SgReadAttr d))
  /\ is_nil err
     = negb (is_empty (Mt d) || is_empty (SgLogs d) || is_empty (SgReadAttr d))
  /\ (length (issued w (snd r)) <= 12)%nat
  /\ Forall (fun inv =>
               inv_args inv = [str "-h"]
               /\ exists k, (k < 3)%nat
                            /\ inv_ctx inv
                               = Some (WithTimeout (ctx_next w + k)
                                         UtilsDiscoverTimeout))
       (issued w (snd r))
  /\ ctx_next (snd r) = (ctx_next w + 3)%nat
  /\ cancelled (snd r)
     = S (S (ctx_next w)) :: S (ctx_next w) :: ctx_next w :: cancelled w
  /\ exists n1 n2 n3 : nat,
       issued w (snd r)
       = probes 0%nat possibleMt n1 ++ probes 1%nat possibleSgLogs n2
         ++ probes 2%nat possibleSgReadAttr n3
       /\ probed_until possibleMt n1 (Mt d)
       /\ probed_until possibleSgLogs n2 (SgLogs d)
       /\ probed_until possibleSgReadAttr n3 (SgReadAttr d).
Proof.
  intros Hs Hc. cbv zeta.
  destruct (discoveries_order GOOS stat run device w Hs Hc)
    as [n1 [n2 [n3 [Ho [O1 [O2 O3]]]]]].
  destruct (discoveries GOOS stat run device w Hs Hc)
    as [mt [sl [sr [i1 [i2 [i3 [Hr [D1 [D2 [D3 [Hi [[L1 [L2 L3]]
         [F1 [F2 [F3 [Hn Hk]]]]]]]]]]]]]]]].
  assert (Hlast : exists n1 n2 n3 : nat,
    issued w (snd (NewLtoNoRewindTapeDrive GOOS stat run device w))
    = map (fun p => util_inv (WithTimeout (ctx_next w + 0)
                                UtilsDiscoverTimeout) p (str "-h"))
        (firstn n1 possibleMt)
      ++ map (fun p => util_inv (WithTimeout (ctx_next w + 1)
                                   UtilsDiscoverTimeout) p (str "-h"))
           (firstn n2 possibleSgLogs)
      ++ map (fun p => util_inv (WithTimeout (ctx_next w + 2)
                                   UtilsDiscoverTimeout) p (str "-h"))
           (firstn n3 possibleSgReadAttr)
    /\ probed_until possibleMt n1
         (Mt (fst (fst (NewLtoNoRewindTapeDrive GOOS stat run device w))))
    /\ probed_until possibleSgLogs n2
         (SgLogs (fst (fst (NewLtoNoRewindTapeDrive GOOS stat run device w))))
    /\ probed_until possibleSgReadAttr n3
         (SgReadAttr
            (fst (fst (NewLtoNoRewindTapeDrive GOOS stat run device w))))).
  { exists n1, n2, n3.
    rewrite Nat.add_0_r, Nat.add_1_r.
    replace (ctx_next w + 2)%nat with (S (S (ctx_next w))) by lia.
    auto. }
  clear Ho O1 O2 O3.
  revert Hlast.
  rewrite Hr, Hi, Hn, Hk. cbn [fst snd Mt SgLogs SgReadAttr]. intros Hlast.
  apply discovered_error in D1, D2, D3.
  assert (N1 : forall p, In p possibleMt -> is_empty p = false)
    by (intros p Hp; apply candidate_not_empty; auto).
  assert (N2 : forall p, In p possibleSgLogs -> is_empty p = false)
    by (intros p Hp; apply candidate_not_empty; auto).
  assert (N3 : forall p, In p possibleSgReadAttr -> is_empty p = false)
    by (intros p Hp; apply candidate_not_empty; auto).
  split; [|split; [|split; [|split; [|split; [|split; [|split]]]]]].
  - destruct D1 as [[I1 _]|[I1 _]], D2 as [[I2 _]|[I2 _]],
      D3 as [[I3 _]|[I3 _]]; rewrite ?I1, ?I2, ?I3;
      repeat split; first [left; reflexivity | right; assumption].
  - destruct D1 as [[I1 E1]|[I1 E1]], D2 as [[I2 E2]|[I2 E2]],
      D3 as [[I3 E3]|[I3 E3]]; rewrite E1, E2, E3;
      rewrite ?(N1 _ I1), ?(N2 _ I2), ?(N3 _ I3);
      try rewrite I1; try rewrite I2; try rewrite I3;
      repeat split; reflexivity.
  - destruct D1 as [[I1 E1]|[I1 E1]], D2 as [[I2 E2]|[I2 E2]],
      D3 as [[I3 E3]|[I3 E3]]; rewrite E1, E2, E3;
      rewrite ?(N1 _ I1), ?(N2 _ I2), ?(N3 _ I3);
      try rewrite I1; try rewrite I2; try rewrite I3; reflexivity.
  - rewrite !length_app. lia.
  - apply Forall_app. split; [|apply Forall_app; split].
    + eapply Forall_impl; [|exact F1]. intros inv [Ha Hx]. split; [exact Ha|].
      exists 0%nat. split; [lia|]. rewrite Nat.add_0_r. exact Hx.
    + eapply Forall_impl; [|exact F2]. intros inv [Ha Hx]. split; [exact Ha|].
      exists 1%nat. split; [lia|]. rewrite Nat.add_1_r. exact Hx.
    + eapply Forall_impl; [|exact F3]. intros inv [Ha Hx]. split; [exact Ha|].
      exists 2%nat. split; [lia|].
      replace (ctx_next w + 2)%nat with (S (S (ctx_next w))) by lia. exact Hx.
  - lia.
  - reflexivity.
  - exact Hlast.
Qed.

(** A run of X5: on Linux, with [/dev/nst0] present, mt found as
    [/usr/bin/mt-st] after two probes and neither sg utility installed:
    the handle has the mt path only and the error includes the discovery
    errors of the two sg utilities, not that of mt; eight probes were
    made, mt first. *)
Lemma NewLtoNoRewindTapeDrive_discovers_witness :
  fst (fst (NewLtoNoRewindTapeDrive (str "linux") only_nst0
              (host_runner [str "/usr/bin/mt-st"] []) (str "/dev/nst0") w0))
  = mkDrive (str "/dev/nst0") [] [] (str "/usr/bin/mt-st")
  /\ includes
       (snd (fst (NewLtoNoRewindTapeDrive (str "linux") only_nst0
                    (host_runner [str "/usr/bin/mt-st"] [])
                    (str "/dev/nst0") w0)))
       ErrNoMtDiscovered = false
  /\ includes
       (snd (fst (NewLtoNoRewindTapeDrive (str "linux") only_nst0
                    (host_runner [str "/usr/bin/mt-st"] [])
                    (str "/dev/nst0") w0)))
       ErrNoSgLogsDiscovered = true
  /\ includes
       (snd (fst (NewLtoNoRewindTapeDrive (str "linux") only_nst0
                    (host_runner [str "/usr/bin/mt-st"] [])
                    (str "/dev/nst0") w0)))
       ErrNoSgReadAttrDiscovered = true
  /\ map inv_name
       (issued w0
          (snd (NewLtoNoRewindTapeDrive (str "linux") only_nst0
                  (host_runner [str "/usr/bin/mt-st"] [])
                  (str "/dev/nst0") w0)))
     = [str "/usr/bin/mt"; str "/usr/bin/mt-st";
        str "/usr/bin/sg_logs"; str "/bin/sg_logs"; str "sg_logs";
        str "/usr/bin/sg_read_attr"; str "/bin/sg_read_attr";
        str "sg_read_attr"]
  /\ cancelled
       (snd (NewLtoNoRewindTapeDrive (str "linux") only_nst0
               (host_runner [str "/usr/bin/mt-st"] []) (str "/dev/nst0")
               w0))
     = [2%nat; 1%nat; 0%nat].
Proof.
  destruct (NewLtoNoRewindTapeDrive_discovers (str "linux") only_nst0
              (host_runner [str "/usr/bin/mt-st"] []) (str "/dev/nst0") w0
              eq_refl eq_refl)
    as [_ [[H1 [H2 H3]] [_ [_ [_ [_ [K _]]]]]]].
  split; [vm_compute; reflexivity|].
  split; [rewrite H1; vm_compute; reflexivity|].
  split; [rewrite H2; vm_compute; reflexivity|].
  split; [rewrite H3; vm_compute; reflexivity|].
  split; [vm_compute; reflexivity | exact K].
Defined.

(** ** The attribute value *)

Lemma forallb_app_l {A : Type} (f : A -> bool) (a b : list A) :
  forallb f (a ++ b) = true -> forallb f a = true.
Proof. rewrite forallb_app. intros H. apply andb_true_iff in H. tauto. Qed.

Lemma forallb_app_r {A : Type} (f : A -> bool) (a b : list A) :
  forallb f (a ++ b) = true -> forallb f b = true.
Proof. rewrite forallb_app. intros H. apply andb_true_iff in H. tauto. Qed.

(** Trimming keeps a piece of the string, so what holds of every byte
    of the string holds of every byte that is left. *)
Lemma TrimSpace_forallb (Q : ascii -> bool) (s : gostring) :
  forallb Q s = true -> forallb Q (TrimSpace s) = true.
Proof.
  intros H. unfold TrimSpace.
  destruct (strip_is_suffix skip_space eq_refl skip_space_suffix s) as [p Hp].
  fold (TrimLeftSpace s) in Hp.
  destruct (TrimRightSpace_prefix (TrimLeftSpace s)) as [q Hq].
  rewrite Hp in H. apply forallb_app_r in H.
  rewrite Hq in H. apply forallb_app_l in H. exact H.
Qed.

Lemma TrimSpace_lead (lead s : gostring) :
  forallb asciiSpace lead = true -> TrimSpace (lead ++ s) = TrimSpace s.
Proof.
  intros H. unfold TrimSpace. rewrite TrimLeftSpace_spaces by exact H.
  reflexivity.
Qed.

Lemma Split_parts (Q : ascii -> bool) (sep : ascii) (s : gostring) :
  forallb Q s = true ->
  Forall (fun x => forallb Q x = true /\ no_byte sep x = true) (Split s sep).
Proof.
  induction s as [|c r IH]; intros H.
  - simpl. constructor; [split; reflexivity|constructor].
  - simpl in H. apply andb_true_iff in H. destruct H as [Hc Hr].
    specialize (IH Hr). simpl. destruct (byte_eqb c sep) eqn:E.
    + constructor; [split; reflexivity|exact IH].
    + destruct (Split r sep) as [|x xs]; [constructor; [|constructor]|].
      * simpl. rewrite Hc, E. split; reflexivity.
      * inversion IH as [|? ? [Hx1 Hx2] Hxs]; subst.
        constructor; [|exact Hxs]. simpl. unfold no_byte in *. simpl.
        rewrite Hc, E, Hx1, Hx2. split; reflexivity.
Qed.

Lemma last_elem_Forall (P : gostring -> Prop) (l : list gostring) :
  l <> [] -> Forall P l -> P (last_elem l).
Proof.
  intros Hne H. unfold last_elem.
  destruct (exists_last Hne) as [ini [x Hx]]. subst l.
  rewrite last_last. apply Forall_app in H. destruct H as [_ H].
  inversion H. assumption.
Qed.

Lemma skip_space_none_head (c : ascii) (r : gostring) :
  skip_space (c :: r) = None -> asciiSpace c = false.
Proof.
  simpl. destruct (asciiSpace c); [discriminate|reflexivity].
Qed.

(** Every field is a run of bytes of the text, is not empty and holds no
    ASCII white space. *)
Lemma fields_from_parts (Q : ascii -> bool) (fuel : nat) :
  forall cur s,
    forallb Q cur = true -> no_space cur = true -> forallb Q s = true ->
    Forall (fun f => forallb Q f = true /\ no_space f = true /\ f <> [])
      (fields_from fuel cur s).
Proof.
  assert (Hflush : forall cur,
    forallb Q cur = true -> no_space cur = true ->
    Forall (fun f => forallb Q f = true /\ no_space f = true /\ f <> [])
      (flush_field cur)).
  { intros cur H1 H2. destruct cur as [|c cur]; [constructor|].
    cbn [flush_field]. constructor; [|constructor].
    unfold no_space in *. rewrite !forallb_rev. split; [exact H1|].
    split; [exact H2|].
    intros E. apply (f_equal (@rev ascii)) in E.
    rewrite rev_involutive in E. discriminate. }
  induction fuel as [|fuel IH]; intros cur s H1 H2 H3.
  - simpl. apply Hflush; assumption.
  - cbn [fields_from]. destruct s as [|c r]; [apply Hflush; assumption|].
    destruct (skip_space (c :: r)) as [r'|] eqn:E.
    + apply Forall_app. split; [apply Hflush; assumption|].
      apply IH; [reflexivity|reflexivity|].
      destruct (skip_space_suffix _ _ E) as [p [_ Hp]].
      rewrite Hp in H3. apply forallb_app_r in H3. exact H3.
    + apply skip_space_none_head in E.
      simpl in H3. apply andb_true_iff in H3. destruct H3 as [Hc Hr].
      apply IH; [simpl; rewrite Hc; exact H1| |exact Hr].
      unfold no_space in *. simpl. rewrite E. exact H2.
Qed.

Lemma first_field_parts (Q : ascii -> bool) (v : gostring) :
  forallb Q v = true -> first_field v <> [] ->
  forallb Q (first_field v) = true /\ no_space (first_field v) = true.
Proof.
  intros H Hne. unfold first_field in *.
  pose proof (fields_from_parts Q (S (length v)) [] v eq_refl eq_refl H) as F.
  fold (Fields v) in F.
  destruct (Fields v) as [|x xs]; [simpl in Hne; congruence|].
  inversion F as [|? ? [Hx1 [Hx2 _]] _]; subst. simpl. auto.
Qed.

Lemma length_zero_false (s : gostring) :
  (length s =? 0)%nat = false -> s <> [].
Proof. destruct s; [simpl; discriminate|discriminate]. Qed.

Lemma extractSgStrVal_cases (s : gostring) :
  match extractSgStrVal s with
  | (v, None) => v <> [] /\ no_byte ":" v = true /\ no_space v = true
  | (v, Some e) => v = [] /\ e = ErrSomeSgRelatedFieldsMissing
  end.
Proof.
  unfold extractSgStrVal.
  destruct (length (Split (TrimSpace s) ":") <? 2)%nat; [auto|].
  destruct (length (TrimSpace (last_elem (Split (TrimSpace s) ":"))) =? 0)%nat;
    [cbn [orb]; auto|].
  cbn [orb].
  destruct (length (first_field
                      (TrimSpace (last_elem (Split (TrimSpace s) ":"))))
            =? 0)%nat eqn:E; [auto|].
  apply length_zero_false in E. split; [exact E|].
  apply first_field_parts; [|exact E].
  apply TrimSpace_forallb.
  pose proof (Split_parts (fun _ => true) ":" (TrimSpace s)
                ltac:(apply forallb_forall; reflexivity)) as F.
  apply (last_elem_Forall _ _ (Split_not_nil _ _)) in F.
  destruct F as [_ F]. exact F.
Qed.

(** X6. Whatever the text, [extractSgStrVal] either fails with "some
    sg_* related fields missing" and an empty value, or returns a value
    that is not empty and holds neither a colon nor ASCII white space. *)
Theorem extractSgStrVal_value (s : gostring) :
  match extractSgStrVal s with
  | (v, None) => v <> [] /\ no_byte ":" v = true /\ no_space v = true
  | (v, Some e) => v = [] /\ e = ErrSomeSgRelatedFieldsMissing
  end.
Proof. apply extractSgStrVal_cases. Qed.

Lemma value_trimmed (sep : ascii) (Y sp tok trail : gostring) :
  plain (hd " "%char (Y ++ [sep])) = true ->
  forallb plain tok = true -> tok <> [] ->
  TrimSpace (Y ++ sep :: sp ++ tok ++ trail)
  = Y ++ sep :: sp ++ tok ++ TrimRightSpace trail.
Proof.
  intros HY Hp Hne.
  replace (Y ++ sep :: sp ++ tok ++ trail)
    with ([] ++ ((Y ++ sep :: sp) ++ tok) ++ trail)
    by (simpl; repeat (rewrite <- app_assoc; cbn [app]); reflexivity).
  replace (Y ++ sep :: sp ++ tok ++ TrimRightSpace trail)
    with (((Y ++ sep :: sp) ++ tok) ++ TrimRightSpace trail)
    by (repeat (rewrite <- app_assoc; cbn [app]); reflexivity).
  apply TrimSpace_core.
  - reflexivity.
  - rewrite <- app_assoc. cbn [app]. rewrite hd_app_one. exact HY.
  - rewrite last_app_nonempty by exact Hne. apply last_plain; assumption.
Qed.

(** The value of a line [label: value ...] is its first token after the
    last colon, as it stands. *)
Lemma extractSgStrVal_token (lead Y sp tok trail : gostring) :
  forallb asciiSpace lead = true ->
  plain (hd " "%char (Y ++ [":"%char])) = true ->
  forallb asciiSpace sp = true ->
  forallb plain tok = true -> no_byte ":" tok = true -> tok <> [] ->
  trailing_text trail = true -> no_byte ":" trail = true ->
  extractSgStrVal (lead ++ Y ++ ":"%char :: sp ++ tok ++ trail) = (tok, None).
Proof.
  intros Hl HY Hsp Hp Hc Hne Ht Hn. unfold extractSgStrVal.
  rewrite TrimSpace_lead by exact Hl.
  assert (Hlen : (length (Split (TrimSpace (Y ++ ":"%char :: sp ++ tok ++ trail))
                            ":") <? 2)%nat = false).
  { rewrite value_trimmed by assumption. apply Nat.ltb_ge. apply Split_two. }
  rewrite Hlen.
  rewrite (value_not_empty ":" eq_refl Y sp tok trail) by assumption.
  rewrite (value_first_field ":" eq_refl Y sp tok trail) by assumption.
  cbn [orb]. destruct tok; [congruence|reflexivity].
Qed.

Lemma extractSgStrVal_no_colon (s : gostring) :
  no_byte ":" s = true ->
  extractSgStrVal s = ([], Some ErrSomeSgRelatedFieldsMissing).
Proof.
  intros H. unfold extractSgStrVal.
  rewrite Split_no_sep by (apply TrimSpace_forallb; exact H). reflexivity.
Qed.

Section MediumFacts.

Variable run : Runner.
Variable device : LtoNoRewindTapeDrive.

Lemma HasDataCartridge_eq (w : World) :
  fst (HasDataCartridge run device w)
  = match run (trace w) (probe_inv device) with
    | (_, Some err) => (false, Some (Errorf2 ErrSgReadAttrExecFailed err))
    | (out, None) =>
        match extractSgStrVal out with
        | (_, Some err) => (false, Some err)
        | (attrStr, None) =>
            match ParseInt attrStr 0 64 with
            | (_, Some e) =>
                (false, Some (Errorf2 ErrCanNotParseSgReadAttrOutput e))
            | (val, None) => (val =? 0, None)
            end
        end
    end.
Proof.
  unfold HasDataCartridge, ExecSgReadAttr, getCmdOutput, bind, ret.
  fold (probe_inv device).
  destruct (run (trace w) (probe_inv device)) as [out [e|]]; cbn [fst snd].
  - reflexivity.
  - destruct (extractSgStrVal out) as [v [e|]]; cbn [fst snd]; [reflexivity|].
    destruct (ParseInt v 0 64) as [val [e|]]; reflexivity.
Qed.

End MediumFacts.

(** X7. When [sg_read_attr] ran and printed a line [label: n ...] with
    [n] a decimal numeral (white space before the label and after the
    colon allowed, further text after white space allowed when it holds
    no colon), [HasDataCartridge] answers whether [n] is 0, with no
    error: 0 is a data cartridge and every other value is not. *)
Theorem HasDataCartridge_reads_medium_type (run : Runner)
  (device : LtoNoRewindTapeDrive) (w : World)
  (lead Y sp ds trail : gostring) :
  run (trace w) (probe_inv device)
  = (lead ++ Y ++ ":"%char :: sp ++ ds ++ trail, None) ->
  forallb asciiSpace lead = true ->
  plain (hd " "%char (Y ++ [":"%char])) = true ->
  forallb asciiSpace sp = true ->
  canonical_decimal ds = true -> decimal_value ds < 2 ^ 63 ->
  trailing_text trail = true -> no_byte ":" trail = true ->
  fst (HasDataCartridge run device w) = (decimal_value ds =? 0, None).
Proof.
  intros Hrun Hl HY Hsp Hc Hv Ht Hn.
  destruct (canonical_digits ds Hc) as [Hd Hne].
  rewrite HasDataCartridge_eq, Hrun.
  rewrite extractSgStrVal_token;
    [ | exact Hl | exact HY | exact Hsp | apply digits_plain; exact Hd
      | apply digits_no_byte; [reflexivity|exact Hd] | exact Hne
      | exact Ht | exact Hn ].
  pose proof (decimal_value_nonneg ds Hd) as H0.
  pose proof (ParseInt_decimal NoSign ds Hc) as HP.
  cbn [sign_text sign_factor app] in HP.
  rewrite HP by (change (2 ^ 63) with 9223372036854775808 in *; lia).
  replace (1 * decimal_value ds) with (decimal_value ds) by lia.
  reflexivity.
Qed.

(** A run of X7: the attribute line of a cleaning cartridge. *)
Lemma HasDataCartridge_reads_medium_type_witness :
  fst (HasDataCartridge (tape_runner cleaning_tape) dev0 w0) = (false, None).
Proof.
  apply (HasDataCartridge_reads_medium_type (tape_runner cleaning_tape) dev0
           w0 (str "  ") (str "Medium type") (str " ") (str "1") []);
    try reflexivity.
Defined.

(** X8. When [sg_read_attr] ran but printed no colon at all, the answer
    of [HasDataCartridge] is the error "some sg_* related fields
    missing", not a plain "no". *)
Theorem HasDataCartridge_field_missing (run : Runner)
  (device : LtoNoRewindTapeDrive) (w : World) (out : gostring) :
  run (trace w) (probe_inv device) = (out, None) ->
  no_byte ":" out = true ->
  fst (HasDataCartridge run device w)
  = (false, Some ErrSomeSgRelatedFieldsMissing).
Proof.
  intros Hrun Hn. rewrite HasDataCartridge_eq, Hrun.
  rewrite extractSgStrVal_no_colon by exact Hn. reflexivity.
Qed.

Lemma HasDataCartridge_field_missing_witness :
  fst (HasDataCartridge (tape_runner mute_tape) dev0 w0)
  = (false, Some ErrSomeSgRelatedFieldsMissing).
Proof.
  apply (HasDataCartridge_field_missing (tape_runner mute_tape) dev0 w0
           (str "medium type unknown")); reflexivity.
Defined.

(** X9. [HasDataCartridge] runs [sg_read_attr] once and nothing else.
    It answers [true] only with a nil error; an error says what went
    wrong: it wraps "failed to get sg_read_attr cmd output" around the
    cause when the program failed, is "some sg_* related fields missing"
    when no value was found, and wraps "can not parse output of
    sg_read_attr" when the value is not a number. *)
Theorem HasDataCartridge_answers (run : Runner)
  (device : LtoNoRewindTapeDrive) (w : World) :
  issued w (snd (HasDataCartridge run device w)) = [probe_inv device]
  /\ match fst (HasDataCartridge run device w) with
     | (_, None) => True
     | (b, Some e) =>
         b = false
         /\ match snd (run (trace w) (probe_inv device)) with
            | Some cause => e = Errorf2 ErrSgReadAttrExecFailed cause
            | None =>
                e = ErrSomeSgRelatedFieldsMissing
                \/ exists fn num k,
                     e = Errorf2 ErrCanNotParseSgReadAttrOutput
                           (NumError fn num k)
            end
     end.
Proof.
  split.
  - rewrite HasDataCartridge_world. apply issued_record.
  - rewrite HasDataCartridge_eq.
    destruct (run (trace w) (probe_inv device)) as [out [cause|]];
      cbn [snd]; [auto|].
    pose proof (extractSgStrVal_cases out) as HE.
    destruct (extractSgStrVal out) as [v [e|]].
    + destruct HE as [_ HE]. subst e. auto.
    + destruct (ParseInt v 0 64) as [val [e|]] eqn:EP; [|exact I].
      split; [reflexivity|]. right.
      destruct (ParseInt_error _ _ _ _ _ EP) as [fn [num [k Hk]]].
      subst e. eauto.
Qed.

Section SerialNumber.

Variable run : Runner.
Variable device : LtoNoRewindTapeDrive.

Lemma ExecSgReadAttr_eq (id : gostring) (w : World) :
  fst (ExecSgReadAttr run device id w)
  = match run (trace w) (attr_inv device id) with
    | (_, Some err) => ([], Some (Errorf2 ErrSgReadAttrExecFailed err))
    | (out, None) => extractSgStrVal out
    end.
Proof.
  unfold ExecSgReadAttr, getCmdOutput, bind, ret. fold (attr_inv device id).
  destruct (run (trace w) (attr_inv device id)) as [out [e|]]; reflexivity.
Qed.

Lemma GetMediumSN_eq (w : World) :
  GetMediumSN run device w
  = match snd (fst (HasDataCartridge run device w)) with
    | Some e =>
        (([], Some (Errorf2 ErrCanNotGetMediumSN e)),
         record_inv (probe_inv device) w)
    | None =>
        (match fst (ExecSgReadAttr run device (str "0x0401")
                      (record_inv (probe_inv device) w)) with
         | (_, Some e) => ([], Some (Errorf2 ErrCanNotGetMediumSN e))
         | (sn, None) => (sn, None)
         end,
         record_inv (attr_inv device (str "0x0401"))
           (record_inv (probe_inv device) w))
    end.
Proof.
  unfold GetMediumSN, TryReadAttr, bind, ret.
  pose proof (HasDataCartridge_world run device w) as Hw.
  destruct (HasDataCartridge run device w) as [[b oe] w1].
  cbn [fst snd] in *. subst w1.
  destruct oe as [e|]; [reflexivity|].
  pose proof (ExecSgReadAttr_world run device (str "0x0401")
                (record_inv (probe_inv device) w)) as Ha.
  fold (attr_inv device (str "0x0401")) in Ha.
  destruct (ExecSgReadAttr run device (str "0x0401") _) as [[sn oe] w2].
  cbn [fst snd] in *. subst w2. destruct oe; reflexivity.
Qed.

End SerialNumber.

(** X10. [GetMediumSN] runs the medium-type probe and then, exactly when
    the probe returned no error (whatever the medium type it read: the
    data-cartridge answer is not looked at), reads attribute [0x0401].
    Every error it returns wraps "can not get medium serial number" and
    comes with an empty serial number; a serial number returned without
    error is not empty and holds neither a colon nor ASCII white
    space. *)
Theorem GetMediumSN_serial (run : Runner) (device : LtoNoRewindTapeDrive)
  (w : World) :
  issued w (snd (GetMediumSN run device w))
  = probe_inv device
    :: (if is_nil (snd (fst (HasDataCartridge run device w)))
        then [attr_inv device (str "0x0401")] else [])
  /\ match fst (GetMediumSN run device w) with
     | (sn, None) =>
         sn <> [] /\ no_byte ":" sn = true /\ no_space sn = true
     | (sn, Some e) =>
         sn = [] /\ exists cause, e = Errorf2 ErrCanNotGetMediumSN cause
     end.
Proof.
  rewrite GetMediumSN_eq.
  destruct (snd (fst (HasDataCartridge run device w))) as [e|].
  - cbn [fst snd is_nil]. split; [apply issued_record|]. eauto.
  - cbn [fst snd is_nil]. split; [apply issued_record2|].
    rewrite ExecSgReadAttr_eq.
    destruct (run _ (attr_inv device (str "0x0401"))) as [out [e|]];
      [eauto|].
    pose proof (extractSgStrVal_cases out) as HE.
    destruct (extractSgStrVal out) as [v [e|]]; [eauto|exact HE].
Qed.

(** With a cleaning cartridge the serial number is read all the same. *)
Example GetMediumSN_cleaning_cartridge :
  map inv_args
    (issued w0 (snd (GetMediumSN (tape_runner cleaning_tape) dev0 w0)))
  = [[str "-f"; str "0x0408"; str "/dev/nst0"];
     [str "-f"; str "0x0401"; str "/dev/nst0"]]
  /\ fst (GetMediumSN (tape_runner cleaning_tape) dev0 w0) = (str "1", None).
Proof. vm_compute. split; reflexivity. Qed.

(** ** The values fit their types *)

Lemma parse_digits_bounds (base0 : bool) (base maxVal : Z) (s0 s : gostring) :
  0 <= maxVal ->
  forall n us,
    0 <= n <= maxVal ->
    0 <= fst (fst (parse_digits base0 base maxVal s0 n us s)) <= maxVal.
Proof.
  intros Hm. induction s as [|c r IH]; intros n us Hn; [exact Hn|].
  cbn [parse_digits].
  destruct ((byte_of c =? 95)%N && base0); [apply IH; exact Hn|].
  destruct (if ((48 <=? byte_of c) && (byte_of c <=? 57))%N
            then Some (Z.of_N (byte_of c) - 48)
            else if ((97 <=? lower c) && (lower c <=? 122))%N
                 then Some (Z.of_N (lower c) - 97 + 10)
                 else None) as [d|]; [|simpl; lia].
  destruct (base <=? d); [simpl; lia|].
  destruct (maxUint64 / base + 1 <=? n); [simpl; lia|].
  destruct (((n * base) mod 2 ^ 64 + d) mod 2 ^ 64 <? (n * base) mod 2 ^ 64)
    eqn:E1; [simpl; lia|].
  destruct (maxVal <? ((n * base) mod 2 ^ 64 + d) mod 2 ^ 64) eqn:E2;
    [simpl; lia|].
  cbn [orb]. apply IH. apply Z.ltb_ge in E2. split; [|exact E2].
  apply Z.mod_pos_bound. reflexivity.
Qed.

Lemma ParseUint_bounds (s : gostring) (base : Z) :
  0 <= fst (ParseUint s base 64) < 2 ^ 64.
Proof.
  unfold ParseUint. destruct s as [|c0 r0]; [simpl; lia|].
  match goal with
  | |- context [match ?p with Some _ => _ | None => _ end] =>
      destruct p as [[b digits]|]
  end; [|simpl; lia].
  change ((64 <? 0) || (64 <? 64)) with false.
  change (64 =? 0) with false. cbv iota beta.
  pose proof (parse_digits_bounds (base =? 0) b (2 ^ 64 - 1) (c0 :: r0) digits
                ltac:(lia) 0 false ltac:(lia)) as H.
  destruct (parse_digits _ b _ _ 0 false digits) as [[n us] [e|]];
    cbn [fst] in *; [lia|].
  destruct (us && _); cbn [fst]; lia.
Qed.

Lemma ParseInt_bounds (s : gostring) (base : Z) :
  - 2 ^ 63 <= fst (ParseInt s base 64) < 2 ^ 63.
Proof.
  unfold ParseInt. destruct s as [|c0 r0]; [simpl; lia|].
  match goal with
  | |- context [ParseUint ?x base 64] =>
      pose proof (ParseUint_bounds x base) as H;
      destruct (ParseUint x base 64) as [un err]
  end.
  cbn [fst] in H.
  change (64 =? 0) with false. cbv iota beta.
  change (2 ^ (64 - 1)) with (2 ^ 63).
  assert (Hconv :
    - 2 ^ 63
    <= fst (if negb (byte_of c0 =? 45)%N && (2 ^ 63 <=? un)
            then (2 ^ 63 - 1, Some (rangeError (str "ParseInt") (c0 :: r0)))
            else if (byte_of c0 =? 45)%N && (2 ^ 63 <? un)
                 then (- 2 ^ 63, Some (rangeError (str "ParseInt") (c0 :: r0)))
                 else (if (byte_of c0 =? 45)%N then - un else un, None))
    < 2 ^ 63).
  { destruct (byte_of c0 =? 45)%N; cbn [negb andb].
    - destruct (2 ^ 63 <? un) eqn:E; cbn [fst]; [lia|].
      apply Z.ltb_ge in E. lia.
    - destruct (2 ^ 63 <=? un) eqn:E; cbn [fst]; [lia|].
      apply Z.leb_gt in E. lia. }
  destruct err as [e|]; [|exact Hconv].
  destruct (negb (is_range_error e)); [simpl; lia|exact Hconv].
Qed.

Lemma extractSgIntVal_bounds (s : gostring) :
  - 2 ^ 63 <= fst (extractSgIntVal s 0) < 2 ^ 63.
Proof.
  unfold extractSgIntVal. destruct (_ =? _)%nat; [simpl; lia|].
  match goal with
  | |- context [ParseInt ?x 0 64] =>
      pose proof (ParseInt_bounds x 0) as H;
      destruct (ParseInt x 0 64) as [v [e|]]
  end; cbn [fst] in *; lia.
Qed.

Lemma extractMtUintVal_cases (s : gostring) :
  match extractMtUintVal s 0 with
  | (v, None) => 0 <= v < 2 ^ 64
  | (v, Some e) =>
      v = 0 /\ (e = ErrSomeMtRelatedFieldsMissing
                \/ exists num k, e = NumError (str "ParseUint") num k)
  end.
Proof.
  unfold extractMtUintVal. destruct (_ =? _)%nat; [auto|].
  match goal with
  | |- context [ParseUint ?x 0 64] =>
      pose proof (ParseUint_bounds x 0) as H;
      destruct (ParseUint x 0 64) as [v [e|]] eqn:E
  end; cbn [fst] in *; [|exact H].
  split; [reflexivity|]. right.
  destruct (ParseUint_error _ _ _ _ _ E) as [k Hk]. eauto.
Qed.

Lemma set_field_bounds (f g : CapField) (v : Z) (capLog : LtoTapeCapacityLog) :
  - 2 ^ 63 <= v < 2 ^ 63 ->
  (forall h, - 2 ^ 63 <= get_field h capLog < 2 ^ 63) ->
  - 2 ^ 63 <= get_field g (set_field f v capLog) < 2 ^ 63.
Proof.
  intros Hv H.
  pose proof (H FMainRemaining). pose proof (H FAltRemaining).
  pose proof (H FMainMax). pose proof (H FAltMax).
  destruct f, g; cbn [get_field set_field MainPartitionRemaining
                        AlternatePartitionRemaining MainPartitionMax
                        AlternatePartitionMax] in *; assumption.
Qed.

Lemma capacity_line_bounds (line : gostring)
  (st : LtoTapeCapacityLog * option error) :
  (forall h, - 2 ^ 63 <= get_field h (fst st) < 2 ^ 63) ->
  forall g, - 2 ^ 63 <= get_field g (fst (capacity_line line st)) < 2 ^ 63.
Proof.
  intros H g. destruct (capacity_line_cases line st) as [E|[f E]]; rewrite E.
  - apply H.
  - cbn [fst]. apply set_field_bounds; [|exact H].
    unfold parseSgLogsCapacityLine.
    pose proof (extractSgIntVal_bounds (TrimSpace line)) as HB.
    destruct (extractSgIntVal (TrimSpace line) 0) as [v [e|]]; cbn [fst] in *.
    + unfold UnknownCapacity. lia.
    + exact HB.
Qed.

Lemma fold_capacity_bounds (lines : list gostring) :
  forall st,
    (forall h, - 2 ^ 63 <= get_field h (fst st) < 2 ^ 63) ->
    forall g,
      - 2 ^ 63
      <= get_field g
           (fst (fold_left (fun st line => capacity_line line st) lines st))
      < 2 ^ 63.
Proof.
  induction lines as [|line lines IH]; intros st H; [exact H|].
  simpl. apply IH. apply capacity_line_bounds. exact H.
Qed.

(** X11. Whatever [sg_logs] prints, every field of the log returned by
    [GetCapacityLog] is an int64: the sentinel or a value that
    [ParseInt] accepted for 64 bits. *)
Theorem GetCapacityLog_fields_int64 (run : Runner)
  (device : LtoNoRewindTapeDrive) (w : World) (f : CapField) :
  - 2 ^ 63 <= get_field f (fst (fst (GetCapacityLog run device w))) < 2 ^ 63.
Proof.
  unfold GetCapacityLog, getCmdOutput, bind, ret.
  destruct (snd (run _ _)); cbn [fst snd].
  - destruct f; cbn; lia.
  - unfold parse_capacity_report.
    pose proof (fold_capacity_bounds
                  (Split (fst (run (trace w)
                                 (mkInvocation None (SgLogs device)
                                    [str "-p"; str "0x31"; DeviceFile device])))
                     "010") no_fields
                  ltac:(intros h; destruct h; cbn; lia) f) as H.
    fold no_fields.
    destruct (fold_left _ _ no_fields) as [capLog errs].
    cbn [fst] in H. destruct (has_unknown capLog); exact H.
Qed.

(** ** Lines that are missing, lines that fail *)

Lemma get_set_other (f g : CapField) (v : Z) (capLog : LtoTapeCapacityLog) :
  f <> g -> get_field f (set_field g v capLog) = get_field f capLog.
Proof. intros H. destruct f, g; try reflexivity; congruence. Qed.

Lemma capacity_line_frame (f : CapField) (line : gostring)
  (st : LtoTapeCapacityLog * option error) :
  HasPrefix (TrimSpace line) (field_label f) = false ->
  get_field f (fst (capacity_line line st)) = get_field f (fst st).
Proof.
  intros H.
  assert (Hg : forall g, HasPrefix (TrimSpace line) (field_label g) = true ->
                         get_field f (fst (capacity_line line st))
                         = get_field f (fst st)).
  { intros g Hg. rewrite (capacity_line_field g) by exact Hg. cbn [fst].
    apply get_set_other. intros E. subst g. congruence. }
  destruct (HasPrefix (TrimSpace line) (field_label FMainRemaining)) eqn:H1;
    [apply (Hg _ H1)|].
  destruct (HasPrefix (TrimSpace line) (field_label FAltRemaining)) eqn:H2;
    [apply (Hg _ H2)|].
  destruct (HasPrefix (TrimSpace line) (field_label FMainMax)) eqn:H3;
    [apply (Hg _ H3)|].
  destruct (HasPrefix (TrimSpace line) (field_label FAltMax)) eqn:H4;
    [apply (Hg _ H4)|].
  rewrite capacity_line_unmatched; [reflexivity|].
  intros g. destruct g; assumption.
Qed.

Lemma fold_capacity_frame (f : CapField) (lines : list gostring) :
  forall st,
    forallb (fun line => negb (HasPrefix (TrimSpace line) (field_label f)))
      lines = true ->
    get_field f
      (fst (fold_left (fun st line => capacity_line line st) lines st))
    = get_field f (fst st).
Proof.
  induction lines as [|line lines IH]; intros st H; [reflexivity|].
  cbn [forallb] in H. apply andb_true_iff in H. destruct H as [Hl Hr].
  apply negb_true_iff in Hl. cbn [fold_left].
  rewrite IH by exact Hr. apply capacity_line_frame. exact Hl.
Qed.

Lemma has_unknown_field (f : CapField) (capLog : LtoTapeCapacityLog) :
  get_field f capLog = UnknownCapacity -> has_unknown capLog = true.
Proof.
  intros H. rewrite has_unknown_fields. apply existsb_exists.
  exists f. split; [destruct f; simpl; auto|]. rewrite H. reflexivity.
Qed.

(** X12. When the report of [sg_logs] has no line that starts with the
    label of a field, that field is returned as -1 and the error
    includes "some capacity log fields missing", whatever the other
    lines hold. *)
Theorem GetCapacityLog_missing_line (run : Runner)
  (device : LtoNoRewindTapeDrive) (w : World) (out : gostring)
  (f : CapField) :
  run (trace w) (sg_logs_inv device) = (out, None) ->
  forallb (fun line => negb (HasPrefix (TrimSpace line) (field_label f)))
    (Split out "010") = true ->
  get_field f (fst (fst (GetCapacityLog run device w))) = UnknownCapacity
  /\ includes (snd (fst (GetCapacityLog run device w)))
       ErrSomeCapacityLogFieldsMissing = true.
Proof.
  intros Hrun Hno.
  unfold GetCapacityLog, getCmdOutput, bind, ret.
  fold (sg_logs_inv device). rewrite Hrun. cbn [fst snd].
  destruct (parse_capacity_report_missing out) as [H1 H2].
  assert (Hf : get_field f (fst (parse_capacity_report out))
               = UnknownCapacity).
  { rewrite H1, fold_capacity_frame by exact Hno. destruct f; reflexivity. }
  split; [exact Hf|]. rewrite H2. apply (has_unknown_field f). exact Hf.
Qed.

(** A run of X12: a report without the lines of the alternate
    partition. *)
Lemma GetCapacityLog_missing_line_witness :
  get_field FAltMax
    (fst (fst (GetCapacityLog (tape_runner single_partition_tape) dev0 w0)))
  = -1
  /\ includes
       (snd (fst (GetCapacityLog (tape_runner single_partition_tape) dev0 w0)))
       ErrSomeCapacityLogFieldsMissing = true.
Proof.
  apply (GetCapacityLog_missing_line (tape_runner single_partition_tape) dev0
           w0 single_partition_report FAltMax); reflexivity.
Defined.

Lemma is_nil_Join2 (a b : option error) :
  is_nil (Join [a; b]) = is_nil a && is_nil b.
Proof. destruct a, b; reflexivity. Qed.

Lemma capacity_line_clean (line : gostring)
  (st : LtoTapeCapacityLog * option error) :
  is_nil (snd (capacity_line line st))
  = is_nil (snd st) && negb (line_fails line).
Proof.
  unfold line_fails.
  assert (Hf : forall f,
    HasPrefix (TrimSpace line) (field_label f) = true ->
    is_nil (snd (capacity_line line st))
    = is_nil (snd st)
      && negb (true && negb (is_nil (snd (extractSgIntVal (TrimSpace line) 0))))).
  { intros f Hf. rewrite (capacity_line_field f) by exact Hf. cbn [snd].
    rewrite is_nil_Join2. f_equal. unfold parseSgLogsCapacityLine.
    destruct (extractSgIntVal (TrimSpace line) 0) as [v [e|]]; reflexivity. }
  cbn [existsb all_fields].
  destruct (HasPrefix (TrimSpace line) (field_label FMainRemaining)) eqn:H1;
    [apply (Hf _ H1)|].
  destruct (HasPrefix (TrimSpace line) (field_label FAltRemaining)) eqn:H2;
    [apply (Hf _ H2)|].
  destruct (HasPrefix (TrimSpace line) (field_label FMainMax)) eqn:H3;
    [apply (Hf _ H3)|].
  destruct (HasPrefix (TrimSpace line) (field_label FAltMax)) eqn:H4;
    [apply (Hf _ H4)|].
  rewrite capacity_line_unmatched by (intros g; destruct g; assumption).
  cbn. rewrite andb_true_r. reflexivity.
Qed.

Lemma fold_capacity_clean (lines : list gostring) :
  forall st,
    is_nil (snd (fold_left (fun st line => capacity_line line st) lines st))
    = is_nil (snd st) && negb (existsb line_fails lines).
Proof.
  induction lines as [|line lines IH]; intros st.
  - simpl. rewrite andb_true_r. reflexivity.
  - cbn [fold_left existsb]. rewrite IH, capacity_line_clean.
    rewrite negb_orb, andb_assoc. reflexivity.
Qed.

(** X13. The error of [GetCapacityLog] is nil exactly when [sg_logs]
    ran, no line carrying one of the four labels failed to parse, and
    none of the four fields is -1: a nil error means a complete log, and
    a labelled line that failed is reported even when a later line gave
    the field a value. *)
Theorem GetCapacityLog_nil_error (run : Runner)
  (device : LtoNoRewindTapeDrive) (w : World) :
  is_nil (snd (fst (GetCapacityLog run device w)))
  = is_nil (snd (run (trace w) (sg_logs_inv device)))
    && negb (existsb line_fails
               (Split (fst (run (trace w) (sg_logs_inv device))) "010"))
    && negb (has_unknown (fst (fst (GetCapacityLog run device w)))).
Proof.
  unfold GetCapacityLog, getCmdOutput, bind, ret.
  fold (sg_logs_inv device).
  destruct (run (trace w) (sg_logs_inv device)) as [out [e|]];
    cbn [fst snd]; [reflexivity|].
  unfold parse_capacity_report.
  pose proof (fold_capacity_clean (Split out "010") no_fields) as H.
  fold no_fields.
  destruct (fold_left _ (Split out "010") no_fields) as [capLog errs].
  cbn [fst snd is_nil andb] in *.
  destruct (has_unknown capLog) eqn:U; cbn [fst snd].
  - rewrite U, is_nil_Join2. cbn. rewrite !andb_false_r. reflexivity.
  - rewrite U, H. cbn. rewrite andb_true_r. reflexivity.
Qed.

(** ** The capacity query without a report *)

Lemma GetCapacityLog_failed (run : Runner) (device : LtoNoRewindTapeDrive)
  (w : World) (out : gostring) (e : error) :
  run (trace w) (sg_logs_inv device) = (out, Some e) ->
  fst (GetCapacityLog run device w)
  = (mkCapacityLog (-1) (-1) (-1) (-1),
     Some (JoinError [Errorf2 ErrSgLogsExecFailed e])).
Proof.
  intros H. unfold GetCapacityLog, bind, ret, getCmdOutput.
  change (mkInvocation None (SgLogs device)
            [str "-p"; str "0x31"; DeviceFile device])
    with (sg_logs_inv device).
  rewrite H. reflexivity.
Qed.

(** X14. When [sg_logs] cannot be run or fails, [GetCapacityLog] returns
    at once: all four fields are unknown, and the error is the join of
    "failed to get sg_logs cmd output" wrapping the cause alone, so it
    includes the missing-fields errors only if the cause itself does. *)
Theorem GetCapacityLog_exec_failure (run : Runner)
  (device : LtoNoRewindTapeDrive) (w : World) (out : gostring) (e : error) :
  run (trace w) (sg_logs_inv device) = (out, Some e) ->
  let r := fst (GetCapacityLog run device w) in
  (forall f, get_field f (fst r) = UnknownCapacity)
  /\ snd r = Some (JoinError [Errorf2 ErrSgLogsExecFailed e])
  /\ includes (snd r) ErrSgLogsExecFailed = true
  /\ includes (snd r) ErrSomeCapacityLogFieldsMissing
     = Is e ErrSomeCapacityLogFieldsMissing
  /\ includes (snd r) ErrSomeSgRelatedFieldsMissing
     = Is e ErrSomeSgRelatedFieldsMissing.
Proof.
  intros H. cbv zeta. rewrite (GetCapacityLog_failed run device w out e H).
  cbn [fst snd includes].
  split; [intros f; destruct f; reflexivity|].
  split; [reflexivity|].
  split; [reflexivity|].
  split; cbn [Is existsb]; rewrite orb_false_r;
    change (same_sentinel (JoinError [Errorf2 ErrSgLogsExecFailed e]) ?t)
      with false;
    change (same_sentinel (Errorf2 ErrSgLogsExecFailed e) ?t) with false;
    cbn [orb]; reflexivity.
Qed.

(** A run of X14 on a host without [sg_logs]. *)
Lemma GetCapacityLog_exec_failure_witness :
  includes (snd (fst (GetCapacityLog no_sg_logs dev0 w0)))
    ErrSomeCapacityLogFieldsMissing = false
  /\ get_field FMainMax (fst (fst (GetCapacityLog no_sg_logs dev0 w0)))
     = UnknownCapacity.
Proof.
  destruct (GetCapacityLog_exec_failure no_sg_logs dev0 w0 []
              (LaunchError (str "/usr/bin/sg_logs")
                 (str "no such file or directory")) eq_refl)
    as [H1 [_ [_ [H4 _]]]].
  split; [rewrite H4; reflexivity | apply H1].
Defined.


(** ** Counting never returns a nil error *)

Section CountFacts.

Variable run : Runner.
Variable device : LtoNoRewindTapeDrive.

Lemma count_loop_result (ctx : Context) (fuel : nat) :
  forall (cnt : Z) (w : World) (c : Z) (err : option error),
    0 <= cnt < 2 ^ 64 ->
    fst (count_loop run device fuel ctx cnt w) = Some (c, err) ->
    err <> None /\ 0 <= c < 2 ^ 64.
Proof.
  induction fuel as [|fuel IH]; intros cnt w c err Hc H; [discriminate|].
  cbn [count_loop] in H. unfold bind, ret in H.
  destruct (NextFileCtx run device ctx w) as [[e|] w1].
  - inversion H. subst. split; [discriminate|exact Hc].
  - apply (IH _ _ _ _ (Z.mod_pos_bound (cnt + 1) (2 ^ 64) eq_refl) H).
Qed.

Lemma count_loop_keeps (ctx : Context) (fuel : nat) :
  forall (cnt : Z) (w : World),
    ctx_next (snd (count_loop run device fuel ctx cnt w)) = ctx_next w
    /\ cancelled (snd (count_loop run device fuel ctx cnt w)) = cancelled w.
Proof.
  induction fuel as [|fuel IH]; intros cnt w; [simpl; auto|].
  cbn [count_loop]. unfold bind, ret.
  destruct (primitiveCtx_keeps run device (PFSF 1) ctx w) as [K1 K2].
  cbn [primitiveCtx] in K1, K2. unfold NextFileCtx.
  destruct (FSFCtx run device ctx 1 w) as [[e|] w1]; cbn [fst snd] in *.
  - auto.
  - destruct (IH ((cnt + 1) mod 2 ^ 64) w1) as [I1 I2].
    rewrite I1, I2. auto.
Qed.

Lemma CountFiles_result (fuel : nat) (timeout : Z) (w : World) (cnt : Z)
  (err : option error) :
  fst (CountFiles run device fuel timeout w) = Some (cnt, err) ->
  err <> None /\ 0 <= cnt < 2 ^ 64
  /\ ctx_next (snd (CountFiles run device fuel timeout w)) = S (ctx_next w)
  /\ cancelled (snd (CountFiles run device fuel timeout w))
     = ctx_next w :: cancelled w.
Proof.
  unfold CountFiles, bind, ret.
  change (withTimeout timeout w)
    with (WithTimeout (ctx_next w) timeout,
          mkWorld (trace w) (S (ctx_next w)) (cancelled w)).
  set (ctx := WithTimeout (ctx_next w) timeout).
  set (w1 := mkWorld (trace w) (S (ctx_next w)) (cancelled w)).
  destruct (primitiveCtx_keeps run device PRewind ctx w1) as [R1 R2].
  cbn [primitiveCtx] in R1, R2.
  destruct (RewindCtx run device ctx w1) as [[e|] w2]; cbn [fst snd] in *.
  - destruct (primitiveCtx_keeps run device PRewind ctx w2) as [F1 F2].
    cbn [primitiveCtx] in F1, F2.
    destruct (RewindCtx run device ctx w2) as [e2 w3].
    subst ctx w1. cbn [fst snd cancel ctx_next cancelled] in *.
    intros H. inversion H. subst.
    split; [destruct e2; discriminate|]. split; [lia|].
    rewrite F1, F2, R1, R2. auto.
  - pose proof (count_loop_result ctx fuel 0 w2) as HL.
    destruct (count_loop_keeps ctx fuel 0 w2) as [L1 L2].
    destruct (count_loop run device fuel ctx 0 w2) as [[[c er]|] w3];
      cbn [fst snd] in *; [|discriminate].
    destruct (primitiveCtx_keeps run device PRewind ctx w3) as [F1 F2].
    cbn [primitiveCtx] in F1, F2.
    destruct (RewindCtx run device ctx w3) as [e2 w4].
    subst ctx w1. cbn [fst snd cancel ctx_next cancelled] in *.
    intros H. inversion H. subst.
    destruct (HL cnt er ltac:(lia) eq_refl) as [Hne Hb].
    split; [destruct er, e2; try discriminate; congruence|].
    split; [exact Hb|]. rewrite F1, F2, L1, L2, R1, R2. auto.
Qed.

End CountFacts.

(** X16. Whenever [CountFiles] returns, its error is not nil (the loop
    ends only on an error, and that error is joined into the result),
    the count is a uint64, and the one context it made is cancelled. *)
Theorem CountFiles_error_never_nil (run : Runner)
  (device : LtoNoRewindTapeDrive) (fuel : nat) (timeout : Z) (w : World)
  (cnt : Z) (err : option error) :
  fst (CountFiles run device fuel timeout w) = Some (cnt, err) ->
  err <> None /\ 0 <= cnt < 2 ^ 64
  /\ ctx_next (snd (CountFiles run device fuel timeout w)) = S (ctx_next w)
  /\ cancelled (snd (CountFiles run device fuel timeout w))
     = ctx_next w :: cancelled w.
Proof. apply CountFiles_result. Qed.

(** A run of X16: two files counted, and an error all the same. *)
Lemma CountFiles_error_never_nil_witness :
  Some (JoinError [ExitError 2]) <> None
  /\ cancelled (snd (CountFiles (tape_runner loaded_tape) dev0 10
                       60000000000 w0)) = [0%nat].
Proof.
  destruct (CountFiles_error_never_nil (tape_runner loaded_tape) dev0 10
              60000000000 w0 2 (Some (JoinError [ExitError 2])))
    as [H1 [_ [_ H4]]].
  - vm_compute. reflexivity.
  - split; [exact H1 | exact H4].
Defined.

(** ** The current file number *)

Lemma scan_file_number_cases (lines : list gostring) :
  match scan_file_number lines with
  | (v, None) => 0 <= v < 2 ^ 64
  | (v, Some e) =>
      v = 0 /\ (e = ErrSomeMtRelatedFieldsMissing
                \/ exists cause, e = Errorf2 ErrMtOutputParseFailed cause)
  end.
Proof.
  induction lines as [|line rest IH]; [simpl; auto|].
  cbn [scan_file_number].
  destruct (HasPrefix (TrimSpace (nth 0 (Split line ",") []))
              (str "File number")); [|exact IH].
  pose proof (extractMtUintVal_cases
                (TrimSpace (nth 0 (Split line ",") []))) as H.
  destruct (extractMtUintVal _ 0) as [v [e|]]; [|exact H].
  split; [reflexivity|]. right. eauto.
Qed.

Section FileNumber.

Variable run : Runner.
Variable device : LtoNoRewindTapeDrive.

Lemma GetCurFileNumber_eq (w : World) :
  fst (GetCurFileNumber run device w)
  = match fst (ExecMtCmdCtx run device Background (str "status") [] w) with
    | (_, Some err) => (0, Some (Errorf2 ErrMtExecFailed err))
    | (out, None) => scan_file_number (Split out "010")
    end.
Proof.
  unfold GetCurFileNumber, bind, ret. rewrite ExecMtCmd_zero.
  destruct (ExecMtCmdCtx _ _ _ _ _ _) as [[out [e|]] w1]; reflexivity.
Qed.

End FileNumber.

(** X17. [GetCurFileNumber] runs the probe and, when the gate is open,
    [mt status] under the background context, and nothing else.  A
    result without error is a uint64; with an error the number is 0 and
    the error is one of three: "failed to get mt cmd output" wrapping
    the cause (the gate included), "some mt related fields missing" when
    no line has the field, or "can not parse output of mt" wrapping the
    cause. *)
Theorem GetCurFileNumber_result (run : Runner)
  (device : LtoNoRewindTapeDrive) (w : World) :
  issued w (snd (GetCurFileNumber run device w))
  = probe_inv device
    :: (if gate_open (fst (HasDataCartridge run device w))
        then [mt_inv device Background (str "status") []] else [])
  /\ match fst (GetCurFileNumber run device w) with
     | (v, None) => 0 <= v < 2 ^ 64
     | (v, Some e) =>
         v = 0
         /\ ((exists cause, e = Errorf2 ErrMtExecFailed cause)
             \/ e = ErrSomeMtRelatedFieldsMissing
             \/ exists cause, e = Errorf2 ErrMtOutputParseFailed cause)
     end.
Proof.
  split.
  - rewrite GetCurFileNumber_world. apply ExecMtCmdCtx_issued.
  - rewrite GetCurFileNumber_eq.
    destruct (fst (ExecMtCmdCtx run device Background (str "status") [] w))
      as [out [e|]]; [eauto|].
    pose proof (scan_file_number_cases (Split out "010")) as H.
    destruct (scan_file_number (Split out "010")) as [v [e|]]; [|exact H].
    destruct H as [Hv [H|H]]; auto.
Qed.

(** X18. When the gate is open and [mt status] ran, but no line of its
    output has a first comma-delimited sub-field that starts with
    [File number], the result is 0 with "some mt related fields
    missing", wherever else in a line the field may stand. *)
Theorem GetCurFileNumber_no_field (run : Runner)
  (device : LtoNoRewindTapeDrive) (w : World) (out : gostring) :
  gate_open (fst (HasDataCartridge run device w)) = true ->
  run (trace w ++ [probe_inv device])
    (mt_inv device Background (str "status") []) = (out, None) ->
  forallb (fun l => negb (HasPrefix (first_sub_field l) (str "File number")))
    (Split out "010") = true ->
  fst (GetCurFileNumber run device w) = (0, Some ErrSomeMtRelatedFieldsMissing).
Proof.
  intros Hg Hrun Hno.
  rewrite GetCurFileNumber_eq, ExecMtCmdCtx_result, Hg, Hrun.
  rewrite <- (app_nil_r (Split out "010")).
  rewrite scan_file_number_skip by exact Hno. reflexivity.
Qed.

(** A run of X18: the file number stands second on its line. *)
Lemma GetCurFileNumber_no_field_witness :
  fst (GetCurFileNumber (tape_runner spec_status_tape) dev0 w0)
  = (0, Some ErrSomeMtRelatedFieldsMissing).
Proof.
  apply (GetCurFileNumber_no_field (tape_runner spec_status_tape) dev0 w0
           (str "ONLINE, File number=3, Block number=0")); reflexivity.
Defined.
